(** * TaxTrack NG: tax calculators, transaction ledger, CSV import and
      receipt extraction

    A shallow embedding of [src/app.js] (class [TaxTrackApp]) and of the
    dashboard script ([src/dashboard.js] and its sibling copy in
    [src/unnamed/part_000]), followed by the properties of the specification
    that concern them, and by further properties of the code: the ledger and
    its summary, the file handlers, export and import, the session, the user
    and the settings, and the first script of part_000 (its summary, its
    extraction of receipts and its confirm handler).

    Conventions of the embedding.
    - A JavaScript string is the list of its UTF-16 code units ([str]).
    - A JavaScript number is a [number]: [NaN], the two infinities, or a
      finite value held as an exact rational.  Finite arithmetic is exact: a
      decimal literal denotes its exact value, and neither the rounding of
      binary64, nor overflow and underflow, nor the sign of zero is
      represented.  The general statements about the calculators (rounding
      to hundredths, monotonicity) are statements about this exact
      arithmetic, and say so; the code itself computes in binary64, where
      they can fail at a tie and in the last place.
    - The two calculators are written once, over an interface [Arith], and
      are also instantiated at binary64 ([Binary64], on the specification of
      IEEE 754 floats of the standard library).  The scenarios of the
      specification are evaluated there bit for bit, and the places where
      binary64 leaves the exact results are shown on concrete inputs: near
      a tie of the rounding, and in the last place of a difference.
    - The copy of the ledger in the storage is the array that its JSON text
      denotes: an amount that is [NaN] or infinite is [null] there.
    - What the host decides (clock, random numbers, number formatting, the
      storage quota) is read from a [Host] record of oracles.
    - The page state threaded through the event handlers is a [World].
    - The user and the settings are objects whose property values are
      strings, booleans and [null]; what the application object and the
      storage hold of them is an [App], kept apart from the [World] of the
      ledger, which no function of the session reads or writes. *)

From Stdlib Require Import ZArith NArith QArith Qround Qabs Qpower.
From Stdlib Require Import Lia Lqa Bool String Ascii List.
From Stdlib Require Import Floats.SpecFloat.
Import ListNotations.

Set Implicit Arguments.
Local Open Scope Q_scope.

(* ================================================================== *)
(** * Strings *)
(* ================================================================== *)

(** A string is a list of UTF-16 code units. *)
Definition str : Type := list N.

(** An ASCII literal as a [str]. *)
Definition js (x : string) : str :=
  List.map N_of_ascii (list_ascii_of_string x).

Definition str_eqb (a b : str) : bool :=
  if list_eq_dec N.eq_dec a b then true else false.

Definition nonEmpty (s : str) : bool :=
  match s with [] => false | _ :: _ => true end.

(** ** Character classes *)

Definition between (lo hi c : N) : bool := (lo <=? c)%N && (c <=? hi)%N.

(** [\d] *)
Definition isDigit (c : N) : bool := between 48 57 c.

(** [\w] is [A-Za-z0-9_]. *)
Definition isWord (c : N) : bool :=
  isDigit c || between 65 90 c || between 97 122 c || (c =? 95)%N.

(** [\s], which is also what [trim] and [parseFloat] skip: the WhiteSpace and
    LineTerminator code points of ECMAScript. *)
Definition isSpace (c : N) : bool :=
  between 9 13 c || (c =? 32)%N || (c =? 160)%N || (c =? 5760)%N
  || between 8192 8202 c || (c =? 8232)%N || (c =? 8233)%N
  || (c =? 8239)%N || (c =? 8287)%N || (c =? 12288)%N || (c =? 65279)%N.

Definition comma : N := 44.
Definition dot : N := 46.
Definition quote : N := 34.
Definition newline : N := 10.
(** The naira sign, U+20A6. *)
Definition naira : N := 8358.

(** ** [String.prototype] functions *)

(** [s.split(sep)] for a separator of one code unit. *)
Fixpoint splitAcc (sep : N) (acc : str) (s : str) : list str :=
  match s with
  | [] => [rev acc]
  | c :: s' =>
      if (c =? sep)%N then rev acc :: splitAcc sep [] s'
      else splitAcc sep (c :: acc) s'
  end.

Definition split (sep : N) (s : str) : list str := splitAcc sep [] s.

Fixpoint dropWhile (p : N -> bool) (s : str) : str :=
  match s with
  | [] => []
  | c :: s' => if p c then dropWhile p s' else s
  end.

(** [s.trim()] *)
Definition trim (s : str) : str :=
  rev (dropWhile isSpace (rev (dropWhile isSpace s))).

(** [s.substring(0, n)] *)
Definition substring0 (n : nat) (s : str) : str := firstn n s.

(** [s.substr(k)] and [s.substr(k, n)] for [k] within the string. *)
Definition substr (k : nat) (s : str) : str := skipn k s.
Definition substr2 (k n : nat) (s : str) : str := firstn n (skipn k s).

Fixpoint startsWith (p s : str) : bool :=
  match p, s with
  | [], _ => true
  | _ :: _, [] => false
  | a :: p', b :: s' => (a =? b)%N && startsWith p' s'
  end.

Definition endsWith (p s : str) : bool := startsWith (rev p) (rev s).

(** [s.includes(p)] *)
Fixpoint includes (p s : str) : bool :=
  startsWith p s ||
  match s with
  | [] => false
  | _ :: s' => includes p s'
  end.

(** [s.replace(pat, rep)] with a string pattern: only the first occurrence
    is replaced. *)
Fixpoint replaceFirst (pat rep s : str) : str :=
  if startsWith pat s then rep ++ skipn (length pat) s
  else match s with
       | [] => []
       | c :: s' => c :: replaceFirst pat rep s'
       end.

(** Lower-casing of the letters A to Z.  [toLowerCase] also maps code units
    outside ASCII, but only two of them to text with an ASCII letter: U+212A
    to k, and U+0130 to i followed by U+0307.  No word that the script looks
    for in a lower-cased text has a k, and none can be completed by an i
    that U+0307 follows, so the searches below are not affected. *)
Definition lowerUnit (c : N) : N := if between 65 90 c then (c + 32)%N else c.
Definition toLowerCase (s : str) : str := List.map lowerUnit s.

(* ================================================================== *)
(** * Regular expressions *)
(* ================================================================== *)

(** The fragment of ECMAScript regular expressions the script uses, with the
    backtracking semantics of the language: alternatives are tried left to
    right, quantifiers are greedy, and an iteration of [*] that consumes
    nothing is rejected. *)
Inductive regex : Type :=
| Eps
| Class (p : N -> bool)
| Cat (r1 r2 : regex)
| Alt (r1 r2 : regex)
| Star (r : regex).

Definition Plus (r : regex) : regex := Cat r (Star r).
Definition Opt (r : regex) : regex := Alt r Eps.
Definition Unit (c : N) : regex := Class (N.eqb c).
(** A letter under the [i] flag. *)
Definition UnitI (c : N) : regex := Class (fun x => (lowerUnit x =? lowerUnit c)%N).
Definition Word (f : N -> regex) (w : string) : regex :=
  fold_right (fun c r => Cat (f c) r) Eps (js w).

(** The iterations of [*]: at most [n] of them, each consuming something;
    [step] matches the body once.  An iteration is tried first, and the
    continuation [k] takes over when it fails. *)
Fixpoint starLoop (step : str -> (str -> option str) -> option str)
  (k : str -> option str) (n : nat) (s : str) : option str :=
  match n with
  | O => k s
  | S n' =>
      match step s (fun s' =>
              if (length s' <? length s)%nat then starLoop step k n' s'
              else None) with
      | Some rest => Some rest
      | None => k s
      end
  end.

(** [rmatch r s k]: match [r] at the head of [s], then hand the rest to the
    continuation [k]; the result is the text left after the whole match.
    A text of [n] code units allows no more than [n] iterations of [*]. *)
Fixpoint rmatch (r : regex) (s : str) (k : str -> option str) : option str :=
  match r with
  | Eps => k s
  | Class p =>
      match s with
      | c :: s' => if p c then k s' else None
      | [] => None
      end
  | Cat r1 r2 => rmatch r1 s (fun s' => rmatch r2 s' k)
  | Alt r1 r2 =>
      match rmatch r1 s k with
      | Some rest => Some rest
      | None => rmatch r2 s k
      end
  | Star r' => starLoop (rmatch r') k (length s) s
  end.

(** The match of [r] at the head of [s]: matched text and remainder. *)
Definition matchHead (r : regex) (s : str) : option (str * str) :=
  match rmatch r s Some with
  | Some rest => Some (firstn (length s - length rest) s, rest)
  | None => None
  end.

(** [re.test(s)] without the [g] flag. *)
Fixpoint test (r : regex) (s : str) : bool :=
  match matchHead r s with
  | Some _ => true
  | None => match s with
            | [] => false
            | _ :: s' => test r s'
            end
  end.

(** [s.match(re)] with the [g] flag: all matches, left to right.  After an
    empty match the search resumes one code unit further. *)
Fixpoint matchAllFrom (fuel : nat) (r : regex) (s : str) : list str :=
  match fuel with
  | O => []
  | S fuel' =>
      let skip := match s with
                  | [] => []
                  | _ :: s' => matchAllFrom fuel' r s'
                  end in
      match matchHead r s with
      | Some (m, rest) =>
          m :: (if nonEmpty m then matchAllFrom fuel' r rest else skip)
      | None => skip
      end
  end.

Definition matchAll (r : regex) (s : str) : list str :=
  matchAllFrom (S (length s)) r s.

(** [s.replace(re, rep)] with the [g] flag and a replacement text without
    [$] patterns. *)
Fixpoint replaceAllFrom (fuel : nat) (r : regex) (rep s : str) : str :=
  match fuel with
  | O => s
  | S fuel' =>
      let skip := match s with
                  | [] => []
                  | c :: s' => c :: replaceAllFrom fuel' r rep s'
                  end in
      match matchHead r s with
      | Some (m, rest) =>
          rep ++ (if nonEmpty m then replaceAllFrom fuel' r rep rest else skip)
      | None => skip
      end
  end.

Definition replaceAll (r : regex) (rep s : str) : str :=
  replaceAllFrom (S (length s)) r rep s.

(* ================================================================== *)
(** * Numbers *)
(* ================================================================== *)

(** A JavaScript number: not-a-number, an infinity, or a finite value. *)
Inductive number : Type :=
| NaN
| Fin (q : Q)
| PInf
| NInf.

(** The same number (finite values up to equality of fractions). *)
Definition num_eq (a b : number) : Prop :=
  match a, b with
  | NaN, NaN => True
  | Fin p, Fin q => p == q
  | PInf, PInf => True
  | NInf, NInf => True
  | _, _ => False
  end.

Infix "=n=" := num_eq (at level 70, no associativity).

Definition Qltb (p q : Q) : bool := negb (Qle_bool q p).

Definition isNaN (a : number) : bool :=
  match a with NaN => true | _ => false end.

(** [a > b], [a >= b], [a <= b], [a === b]: false as soon as one side is
    [NaN]. *)
Definition ngtb (a b : number) : bool :=
  match a, b with
  | Fin p, Fin q => Qltb q p
  | PInf, Fin _ | PInf, NInf | Fin _, NInf => true
  | _, _ => false
  end.

Definition neqb (a b : number) : bool :=
  match a, b with
  | Fin p, Fin q => Qeq_bool p q
  | PInf, PInf => true
  | NInf, NInf => true
  | _, _ => false
  end.

Definition ngeb (a b : number) : bool := ngtb a b || neqb a b.
Definition nleb (a b : number) : bool := ngeb b a.

(** Truthiness, as in [x || 0] and [!x]: [NaN] and zero are falsy. *)
Definition ntruthy (a : number) : bool :=
  match a with
  | NaN => false
  | Fin q => negb (Qeq_bool q 0)
  | PInf | NInf => true
  end.

Definition nopp (a : number) : number :=
  match a with
  | NaN => NaN
  | Fin q => Fin (- q)
  | PInf => NInf
  | NInf => PInf
  end.

Definition nadd (a b : number) : number :=
  match a, b with
  | NaN, _ | _, NaN => NaN
  | Fin p, Fin q => Fin (p + q)
  | PInf, NInf | NInf, PInf => NaN
  | PInf, _ | _, PInf => PInf
  | NInf, _ | _, NInf => NInf
  end.

Definition nsub (a b : number) : number := nadd a (nopp b).

(** The infinity of the given sign ([true] for negative). *)
Definition inf (negative : bool) : number := if negative then NInf else PInf.

(** Sign of a number other than [NaN]: [None] for zero. *)
Definition nsign (a : number) : option bool :=
  match a with
  | NaN => None
  | Fin q => if Qeq_bool q 0 then None else Some (Qltb q 0)
  | PInf => Some false
  | NInf => Some true
  end.

Definition nmul (a b : number) : number :=
  match a, b with
  | NaN, _ | _, NaN => NaN
  | Fin p, Fin q => Fin (p * q)
  | _, _ =>
      match nsign a, nsign b with
      | Some sa, Some sb => inf (xorb sa sb)
      | _, _ => NaN
      end
  end.

(** Division; a zero divisor is taken as positive zero. *)
Definition ndiv (a b : number) : number :=
  match a, b with
  | NaN, _ | _, NaN => NaN
  | Fin p, Fin q =>
      if Qeq_bool q 0
      then match nsign a with Some sa => inf sa | None => NaN end
      else Fin (p / q)
  | Fin _, _ => Fin 0
  | _, Fin q => match nsign a with
                | Some sa => inf (xorb sa (Qltb q 0))
                | None => NaN
                end
  | _, _ => NaN
  end.

(** [Math.max(a, b)] *)
Definition nmax (a b : number) : number :=
  match a, b with
  | NaN, _ | _, NaN => NaN
  | PInf, _ | _, PInf => PInf
  | NInf, x | x, NInf => x
  | Fin p, Fin q => if Qle_bool p q then b else a
  end.

(** [Math.round(a)]: the nearest integer, a tie going up. *)
Definition nround (a : number) : number :=
  match a with
  | Fin q => Fin (inject_Z (Qfloor (q + (1 # 2))))
  | _ => a
  end.

(** ** The arithmetic the calculators use *)

Class Arith (num : Type) : Type := {
  lit : Q -> num;                 (* a numeric literal of the source *)
  add : num -> num -> num;
  sub : num -> num -> num;
  mul : num -> num -> num;
  div : num -> num -> num;
  gtb : num -> num -> bool;
  leb : num -> num -> bool;
  Math_max : num -> num -> num;
  Math_round : num -> num;
  truthy : num -> bool
}.

Declare Scope js_scope.
Delimit Scope js_scope with js.
Infix "+" := add : js_scope.
Infix "-" := sub : js_scope.
Infix "*" := mul : js_scope.
Infix "/" := div : js_scope.
Infix ">?" := gtb (at level 70, no associativity) : js_scope.
Infix "<=?" := leb : js_scope.

#[global] Instance number_arith : Arith number := {
  lit := Fin;
  add := nadd;
  sub := nsub;
  mul := nmul;
  div := ndiv;
  gtb := ngtb;
  leb := nleb;
  Math_max := nmax;
  Math_round := nround;
  truthy := ntruthy
}.

(** ** [parseFloat] *)

Fixpoint spanDigits (s : str) : str * str :=
  match s with
  | c :: s' =>
      if isDigit c
      then let (ds, rest) := spanDigits s' in (c :: ds, rest)
      else ([], s)
  | [] => ([], [])
  end.

Definition digitsToZ (ds : str) : Z :=
  fold_left (fun acc c => (10 * acc + (Z.of_N c - 48))%Z) ds 0%Z.

(** An optional sign: [true] for a minus sign. *)
Definition spanSign (s : str) : bool * str :=
  match s with
  | c :: s' =>
      if (c =? 45)%N then (true, s')
      else if (c =? 43)%N then (false, s')
      else (false, s)
  | [] => (false, [])
  end.

(** The exponent part [e], [E] with an optional sign and at least one digit;
    it is left out of the prefix when it is incomplete. *)
Definition spanExponent (s : str) : Z :=
  match s with
  | c :: s' =>
      if (c =? 101)%N || (c =? 69)%N then
        let (neg, s1) := spanSign s' in
        let (ds, _) := spanDigits s1 in
        if nonEmpty ds
        then (if neg then - digitsToZ ds else digitsToZ ds)%Z
        else 0%Z
      else 0%Z
  | [] => 0%Z
  end.

(** [parseFloat(s)]: the value of the longest prefix of [s], after leading
    white space, that is a decimal literal; [NaN] when there is none. *)
Definition parseFloat (input : str) : number :=
  let s := dropWhile isSpace input in
  let (neg, s1) := spanSign s in
  if startsWith (js "Infinity") s1 then inf neg
  else
    let (ip, s2) := spanDigits s1 in
    let '(fp, s3) := match s2 with
                     | c :: t => if (c =? dot)%N then spanDigits t else ([], s2)
                     | [] => ([], s2)
                     end in
    if nonEmpty ip || nonEmpty fp then
      let e := (spanExponent s3 - Z.of_nat (length fp))%Z in
      let v := inject_Z (digitsToZ (ip ++ fp)) * Qpower 10 e in
      Fin (if neg then - v else v)
    else NaN.

(** ** [Number] of a string *)

(** The value of a digit of a literal with a radix prefix. *)
Definition radixDigit (c : N) : option Z :=
  if isDigit c then Some (Z.of_N c - 48)%Z
  else if between 97 102 c then Some (Z.of_N c - 87)%Z
  else if between 65 70 c then Some (Z.of_N c - 55)%Z
  else None.

Fixpoint radixDigits (radix acc : Z) (s : str) : option Z :=
  match s with
  | [] => Some acc
  | c :: s' =>
      match radixDigit c with
      | Some d =>
          if (d <? radix)%Z then radixDigits radix (radix * acc + d)%Z s'
          else None
      | None => None
      end
  end.

(** The radix that the letter of a prefix [0x], [0o] or [0b] announces. *)
Definition radixOf (c : N) : option Z :=
  if (c =? 120)%N || (c =? 88)%N then Some 16%Z
  else if (c =? 111)%N || (c =? 79)%N then Some 8%Z
  else if (c =? 98)%N || (c =? 66)%N then Some 2%Z
  else None.

(** The exponent part that ends a decimal literal: nothing, or [e] or [E],
    an optional sign, and digits up to the end of the text. *)
Definition wholeExponent (s : str) : option Z :=
  match s with
  | [] => Some 0%Z
  | c :: s' =>
      if (c =? 101)%N || (c =? 69)%N then
        let (neg, s1) := spanSign s' in
        match spanDigits s1 with
        | (ds, []) =>
            if nonEmpty ds
            then Some (if neg then - digitsToZ ds else digitsToZ ds)%Z
            else None
        | (_, _ :: _) => None
        end
      else None
  end.

(** A signed decimal literal, or [Infinity], that is the whole of [s]. *)
Definition decimalLiteral (s : str) : number :=
  let (neg, s1) := spanSign s in
  if str_eqb s1 (js "Infinity") then inf neg
  else
    let (ip, s2) := spanDigits s1 in
    let '(fp, s3) := match s2 with
                     | c :: t => if (c =? dot)%N then spanDigits t else ([], s2)
                     | [] => ([], s2)
                     end in
    if nonEmpty ip || nonEmpty fp then
      match wholeExponent s3 with
      | Some e =>
          let v := inject_Z (digitsToZ (ip ++ fp))
                   * Qpower 10 (e - Z.of_nat (length fp)) in
          Fin (if neg then - v else v)
      | None => NaN
      end
    else NaN.

(** [Number(s)] for a string: white space is trimmed at both ends; the empty
    text is 0; otherwise the whole text has to be a numeric literal, decimal
    or with a radix prefix, and the value is [NaN] when it is not. *)
Definition toNumber (input : str) : number :=
  let s := trim input in
  match s with
  | [] => Fin 0
  | c0 :: x :: d :: ds =>
      match (if (c0 =? 48)%N then radixOf x else None) with
      | Some radix =>
          match radixDigits radix 0 (d :: ds) with
          | Some z => Fin (inject_Z z)
          | None => NaN
          end
      | None => decimalLiteral s
      end
  | _ :: _ => decimalLiteral s
  end.

(* ================================================================== *)
(** * app.js: the tax calculators *)
(* ================================================================== *)

Section Calculators.
Context {num : Type} `{Arith num}.
Local Open Scope js_scope.

(** The [reliefs] argument: an absent field is [None]. *)
Record Reliefs : Type := {
  pension : option num;
  nhf : option num;
  other : option num
}.

(** [reliefs = {}] *)
Definition noReliefs : Reliefs :=
  {| pension := None; nhf := None; other := None |}.

(** [Number(x) || 0] *)
Definition numberOr0 (x : option num) : num :=
  match x with
  | Some v => if truthy v then v else lit 0
  | None => lit 0
  end.

Record PAYEResult : Type := {
  grossIncome : num;
  totalReliefs : num;
  taxableIncome : num;
  annualTax : num;
  monthlyTax : num
}.

(** The band schedule of [calculatePAYE]: the value of its local [tax]. *)
Definition bandTax (taxable : num) : num :=
  if taxable >? lit 0 then
    if taxable <=? lit 300000 then taxable * lit 0.07
    else if taxable <=? lit 600000 then lit 21000 + (taxable - lit 300000) * lit 0.11
    else if taxable <=? lit 1100000 then lit 54000 + (taxable - lit 600000) * lit 0.15
    else if taxable <=? lit 1600000 then lit 129000 + (taxable - lit 1100000) * lit 0.19
    else if taxable <=? lit 3200000 then lit 224000 + (taxable - lit 1600000) * lit 0.21
    else lit 560000 + (taxable - lit 3200000) * lit 0.24
  else lit 0.

Definition calculatePAYE (gross : num) (reliefs : Reliefs) : PAYEResult :=
  let pension := numberOr0 (pension reliefs) in
  let nhf := numberOr0 (nhf reliefs) in
  let other := numberOr0 (other reliefs) in
  let standardRelief := lit 200000 + gross * lit 0.2 in
  let totalReliefs := pension + nhf + other + standardRelief in
  let taxable := Math_max (gross - totalReliefs) (lit 0) in
  let tax := bandTax taxable in
  {| grossIncome := gross;
     totalReliefs := totalReliefs;
     taxableIncome := taxable;
     annualTax := Math_round tax;
     monthlyTax := Math_round (tax / lit 12) |}.

Definition calculateVAT (amount : num) : num :=
  Math_round (amount * lit 0.075 * lit 100) / lit 100.
End Calculators.

Arguments Reliefs num : clear implicits.
Arguments PAYEResult num : clear implicits.

(** [Number(x.toFixed(2))]: the nearest multiple of 0.01, a tie going away
    from zero; values of magnitude 1e21 and more are left as they are. *)
Definition toFixed2 (x : number) : number :=
  match x with
  | Fin q =>
      let r := fun p : Q => inject_Z (Qfloor (p * 100 + (1 # 2))) / 100 in
      if Qle_bool (10 ^ 21) (Qabs q) then Fin q
      else if Qltb q 0 then Fin (- r (- q))
      else Fin (r q)
  | _ => x
  end.

(** The substitute that dashboard.js installs when the application object
    has no [calculateVAT] of its own. *)
Definition calculateVAT_fallback (amount : number) : number :=
  toFixed2 (nmul amount (Fin 0.075)).

(** ** The calculators in binary64 *)

Module Binary64.
Definition prec : Z := 53.
Definition emax : Z := 1024.

Definition ofZ (z : Z) : spec_float := binary_normalize prec emax z 0 false.

(** The binary64 value of a literal: numerator and denominator are exact
    for the literals of the source, and the division rounds once. *)
Definition ofQ (q : Q) : spec_float :=
  SFdiv prec emax (ofZ (Qnum q)) (ofZ (Zpos (Qden q))).

Definition max (a b : spec_float) : spec_float :=
  match a, b with
  | S754_nan, _ | _, S754_nan => S754_nan
  | S754_zero sa, S754_zero sb => S754_zero (sa && sb)
  | _, _ => if SFltb a b then b else a
  end.

(** [Math.round]: [floor(x + 1/2)] computed exactly. *)
Definition round (x : spec_float) : spec_float :=
  match x with
  | S754_finite s m e =>
      if (0 <=? e)%Z then x
      else
        let n := ((2 * cond_Zopp s (Zpos m) + 2 ^ (- e)) / 2 ^ (1 - e))%Z in
        if (n =? 0)%Z then S754_zero s else ofZ n
  | _ => x
  end.

Definition truthy (x : spec_float) : bool :=
  match x with
  | S754_nan | S754_zero _ => false
  | _ => true
  end.

(** The rational that a finite binary64 number is; zero for the others. *)
Definition toQ (x : spec_float) : Q :=
  match x with
  | S754_finite s m e => inject_Z (cond_Zopp s (Zpos m)) * Qpower 2 e
  | _ => 0
  end.

#[global] Instance binary64_arith : Arith spec_float := {
  lit := ofQ;
  add := SFadd prec emax;
  sub := SFsub prec emax;
  mul := SFmul prec emax;
  div := SFdiv prec emax;
  gtb := fun a b => SFltb b a;
  leb := SFleb;
  Math_max := max;
  Math_round := round;
  truthy := truthy
}.
End Binary64.

(* ================================================================== *)
(** * app.js: the transaction ledger *)
(* ================================================================== *)

Record Transaction : Type := {
  tx_id : str;
  tx_date : str;
  tx_type : str;
  tx_amount : number;
  tx_details : str;
  tx_createdAt : str
}.

(** The object handed to [addTransaction]; an absent property is [None]. *)
Record TxInput : Type := {
  in_date : option str;
  in_type : str;
  in_amount : number;
  in_details : option str
}.

(** A Candidate Line of the receipt preview ([ocrLines]). *)
Record Candidate : Type := {
  line_id : str;
  line_type : str;
  line_amount : number;
  line_details : str
}.

(** The editable row of a Candidate Line in the preview.  Its four controls
    carry the ids [check-], [amount-], [type-] and [details-] followed by the
    id of the line; [row_id] is that id. *)
Record Row : Type := {
  row_id : str;
  row_checked : bool;
  row_amount : str;
  row_type : str;
  row_details : str
}.

(** What the host decides.  The index is the number of reads made so far
    ([ticks] of the world). *)
Record Host : Type := {
  Date_now36 : nat -> str;            (* Date.now().toString(36) *)
  Math_random36 : nat -> str;         (* Math.random().toString(36) *)
  toISOString : nat -> str;           (* new Date().toISOString() *)
  numberToString : number -> str;     (* a number inside a template literal *)
  toLocaleString : number -> str;     (* n.toLocaleString() *)
  setItemOk : list Transaction -> bool (* localStorage.setItem does not throw *)
}.

(** A transaction as the JSON text of the ledger holds it.  The texts are
    kept as they are; a number that is [NaN] or infinite is written
    [null], which is [None] here. *)
Record StoredTransaction : Type := {
  st_id : str;
  st_date : str;
  st_type : str;
  st_amount : option number;
  st_details : str;
  st_createdAt : str
}.

Definition jsonNumber (a : number) : option number :=
  match a with
  | Fin q => Some (Fin q)
  | NaN | PInf | NInf => None
  end.

Definition jsonTransaction (tx : Transaction) : StoredTransaction :=
  {| st_id := tx_id tx; st_date := tx_date tx; st_type := tx_type tx;
     st_amount := jsonNumber (tx_amount tx); st_details := tx_details tx;
     st_createdAt := tx_createdAt tx |}.

(** [JSON.stringify(this.transactions)], as the array that the text
    denotes. *)
Definition JSON_stringify (l : list Transaction) : list StoredTransaction :=
  List.map jsonTransaction l.

Record World : Type := {
  transactions : list Transaction;          (* app.transactions *)
  stored : option (list StoredTransaction); (* the taxtrack_transactions slot *)
  ocrLines : list Candidate;
  ocrPreview : list Row;
  ticks : nat
}.

Definition setTransactions (l : list Transaction) (w : World) : World :=
  {| transactions := l; stored := stored w; ocrLines := ocrLines w;
     ocrPreview := ocrPreview w; ticks := ticks w |}.

Definition setStored (l : list StoredTransaction) (w : World) : World :=
  {| transactions := transactions w; stored := Some l; ocrLines := ocrLines w;
     ocrPreview := ocrPreview w; ticks := ticks w |}.

Definition setOcrLines (l : list Candidate) (w : World) : World :=
  {| transactions := transactions w; stored := stored w; ocrLines := l;
     ocrPreview := ocrPreview w; ticks := ticks w |}.

Definition setOcrPreview (l : list Row) (w : World) : World :=
  {| transactions := transactions w; stored := stored w; ocrLines := ocrLines w;
     ocrPreview := l; ticks := ticks w |}.

Definition tick (k : nat) (w : World) : World :=
  {| transactions := transactions w; stored := stored w; ocrLines := ocrLines w;
     ocrPreview := ocrPreview w; ticks := (ticks w + k)%nat |}.

(** A page that has just been loaded with nothing in storage. *)
Definition emptyWorld : World :=
  {| transactions := []; stored := None; ocrLines := []; ocrPreview := [];
     ticks := 0 |}.

(** [x || d] for an optional string. *)
Definition orElse (x : option str) (d : str) : str :=
  match x with
  | Some s => if nonEmpty s then s else d
  | None => d
  end.

Section Ledger.
Variable h : Host.

(** [saveTransactions()]: the slot receives the JSON text of the ledger,
    unless the storage refuses the write. *)
Definition saveTransactions (w : World) : World :=
  if setItemOk h (transactions w)
  then setStored (JSON_stringify (transactions w)) w
  else w.

(** [transaction.amount] is a number at every call of the script, so
    [Number(transaction.amount)] is that number. *)
Definition addTransaction (transaction : TxInput) (w : World)
  : Transaction * World :=
  let n := ticks w in
  let newTx :=
    {| tx_id := Date_now36 h n ++ substr 2 (Math_random36 h n);
       tx_date := orElse (in_date transaction)
                    (hd [] (split 84 (toISOString h n)));
       tx_type := in_type transaction;
       tx_amount := in_amount transaction;
       tx_details := orElse (in_details transaction) [];
       tx_createdAt := toISOString h (S n) |} in
  (newTx,
   saveTransactions (tick 2 (setTransactions (transactions w ++ [newTx]) w))).

Definition deleteTransaction (id : str) (w : World) : World :=
  saveTransactions
    (setTransactions
       (filter (fun tx => negb (str_eqb (tx_id tx) id)) (transactions w)) w).

Definition getTransactions (w : World) : list Transaction := transactions w.
End Ledger.

(* ================================================================== *)
(** * dashboard.js: CSV import *)
(* ================================================================== *)

(** The two patterns of the import: a double quote, and the class of the
    naira sign and the comma; both are used with the [g] flag. *)
Definition quoteRe : regex := Unit quote.
Definition currencyRe : regex :=
  Class (fun c => (c =? naira)%N || (c =? comma)%N).

(** The fields of a line: split on commas, each field trimmed and then
    cleared of double quotes. *)
Definition csvCols (line : str) : list str :=
  List.map (fun c => replaceAll quoteRe [] (trim c)) (split comma line).

(** [numVal]: [parseFloat] of the field without naira signs and commas. *)
Definition colNumber (col : str) : number :=
  parseFloat (replaceAll currencyRe [] col).

(** One turn of [for (const col of cols)] on the pair [(amount, details)]. *)
Definition scanCol (st : number * str) (col : str) : number * str :=
  let (amount, details) := st in
  let numVal := colNumber col in
  if negb (isNaN numVal) && ngtb numVal (Fin 0) && neqb amount (Fin 0)
  then (numVal, details)
  else if nonEmpty col && negb (ntruthy numVal) && (2 <? length col)%nat
       then (amount, col)
       else (amount, details).

Definition scanCols (cols : list str) : number * str :=
  fold_left scanCol cols (Fin 0, []).

Section CSV.
Variable h : Host.

(** The body of [for (let i = startIndex; ...)] for one line. *)
Definition csvRow (fileName : str) (w : World) (line : str) : World :=
  let cols := csvCols line in
  if (2 <=? length cols)%nat then
    let (amount, details) := scanCols cols in
    if ngtb amount (Fin 0) then
      let vatAmount := calculateVAT amount in
      snd (addTransaction h
             {| in_date := None;
                in_type := js "VAT";
                in_amount := vatAmount;
                in_details :=
                  Some (orElse (Some details) (js "CSV Import: " ++ fileName)) |}
             w)
    else w
  else w.

(** [processCSV(file)].  A file without a non-blank line makes [lines[0]]
    undefined; the exception is caught and nothing is added. *)
Definition processCSV (fileName text : str) (w : World) : World :=
  let lines := filter (fun line => nonEmpty (trim line)) (split newline text) in
  match lines with
  | [] => w
  | first :: _ =>
      let startIndex :=
        if includes (js "date") (toLowerCase first)
           || includes (js "amount") (toLowerCase first)
        then 1%nat else 0%nat in
      fold_left (csvRow fileName) (skipn startIndex lines) w
  end.
End CSV.

(* ================================================================== *)
(** * dashboard.js: receipt extraction *)
(* ================================================================== *)

(** The two copies of the dashboard script: [src/dashboard.js] and the one
    in [src/unnamed/part_000].  They differ in the placeholder rule for the
    details, in whether [ocrLines] is emptied for each image, and in what
    happens to the preview when an image yields nothing. *)
Inductive build : Type :=
| dashboard_js
| part_000.

(** The pattern of amounts: one or more digits or commas, an optional dot,
    and up to two digits; used with the [g] flag. *)
Definition amountRe : regex :=
  Cat (Plus (Class (fun c => isDigit c || (c =? comma)%N)))
      (Cat (Opt (Unit dot))
           (Opt (Cat (Class isDigit) (Opt (Class isDigit))))).

(** The words that make a line a VAT line, under the [i] flag and, for
    part_000, case-sensitive on the lower-cased line. *)
Definition vatWords (f : N -> regex) : regex :=
  Alt (Word f "vat") (Alt (Word f "tax") (Alt (Word f "excise") (Word f "levy"))).

(** A code unit that is neither of [\w] nor of [\s]; a run of [\s]. *)
Definition nonWordSpaceRe : regex := Class (fun c => negb (isWord c || isSpace c)).
Definition spacesRe : regex := Plus (Class isSpace).

Definition placeholder : str := js "Receipt Item".

(** The chain of [replace], [trim] and [substring] applied to the line. *)
Definition cleanDetails (line numStr : str) : str :=
  substring0 50
    (trim
       (replaceAll spacesRe (js " ")
          (replaceAll nonWordSpaceRe (js " ")
             (replaceFirst numStr [] line)))).

Definition receiptDetails (b : build) (line numStr : str) : str :=
  let details := cleanDetails line numStr in
  match b with
  | dashboard_js => if nonEmpty details then details else placeholder
  | part_000 =>
      if negb (nonEmpty details) || (length details <? 3)%nat
      then placeholder else details
  end.

Definition receiptType (b : build) (line : str) : str :=
  let isVat := match b with
               | dashboard_js => test (vatWords UnitI) line
               | part_000 => test (vatWords Unit) (toLowerCase line)
               end in
  if isVat then js "VAT" else js "Consumption".

(** [parseFloat(numStr.replace(/,/g, ''))] *)
Definition rawAmountOf (numStr : str) : number :=
  parseFloat (replaceAll (Unit comma) [] numStr).

(** The range filter of the extraction. *)
Definition inRange (rawAmount : number) : bool :=
  ngeb rawAmount (Fin 100) && nleb rawAmount (Fin 10000000).

(** [list.forEach((x, i) => ...)] on a state. *)
Fixpoint forEachIndexed {A St : Type} (f : St -> nat -> A -> St)
  (i : nat) (l : list A) (s : St) : St :=
  match l with
  | [] => s
  | x :: l' => forEachIndexed f (S i) l' (f s i x)
  end.

(** A file picked in the file input: its name and MIME type, its text, and
    what the recognition engine makes of it. *)
Record File : Type := {
  file_name : str;
  file_type : str;
  file_text : str;
  file_recognized : option str
}.

Section Receipts.
Variable b : build.
Variable h : Host.

(** The body of [matches.forEach(numStr => ...)]. *)
Definition ocrMatch (lineIndex : nat) (line : str) (w : World) (numStr : str)
  : World :=
  let rawAmount := rawAmountOf numStr in
  if inRange rawAmount then
    let type := receiptType b line in
    let details := receiptDetails b line numStr in
    let lineId :=
      js "ocr-" ++ numberToString h (Fin (inject_Z (Z.of_nat lineIndex)))
      ++ js "-" ++ numberToString h rawAmount
      ++ js "-" ++ substr2 2 4 (Math_random36 h (ticks w)) in
    let lineObj :=
      {| line_id := lineId; line_type := type;
         line_amount := rawAmount; line_details := details |} in
    let lineDiv :=
      {| row_id := lineId; row_checked := true;
         row_amount := numberToString h rawAmount;
         row_type := type; row_details := details |} in
    tick 1 (setOcrPreview (ocrPreview w ++ [lineDiv])
              (setOcrLines (ocrLines w ++ [lineObj]) w))
  else w.

(** The body of [lines.forEach((line, lineIndex) => ...)]. *)
Definition ocrLine (w : World) (lineIndex : nat) (line : str) : World :=
  fold_left (ocrMatch lineIndex line) (matchAll amountRe line) w.

(** [processReceiptWithOCR(file)].  [recognized] is the text returned by
    the recognition engine, or [None] when the engine could not be loaded
    or the recognition failed; both failures are caught and leave the page
    as it is. *)
Definition processReceiptWithOCR (recognized : option str) (w : World) : World :=
  match recognized with
  | None => w
  | Some text =>
      let w0 := match b with
                | dashboard_js => setOcrLines [] w
                | part_000 => w
                end in
      let w1 := forEachIndexed ocrLine 0 (split newline text) w0 in
      match b with
      | dashboard_js => w1
      | part_000 =>
          (* foundItems === 0: the preview is replaced by a notice *)
          if (length (ocrLines w1) =? length (ocrLines w0))%nat
          then setOcrPreview [] w1 else w1
      end
  end.

(** The row whose controls [getElementById] finds for a line id: the
    first one in document order. *)
Definition getRow (w : World) (id : str) : option Row :=
  find (fun r => str_eqb (row_id r) id) (ocrPreview w).

(** The body of [ocrLines.forEach(line => ...)] in the confirm handler. *)
Definition confirmLine (w : World) (line : Candidate) : World :=
  match getRow w (line_id line) with
  | Some r =>
      if row_checked r then
        let amount := parseFloat (row_amount r) in
        let type := row_type r in
        let details := row_details r in
        if ngtb amount (Fin 0) then
          let isVat := str_eqb type (js "VAT") in
          let finalAmount := if isVat then calculateVAT amount else amount in
          snd (addTransaction h
                 {| in_date := None;
                    in_type := type;
                    in_amount := finalAmount;
                    in_details :=
                      Some (if isVat
                            then details ++ js " (Base: " ++ [naira]
                                 ++ toLocaleString h amount ++ js ")"
                            else details) |}
                 w)
        else w
      else w
  | None => w
  end.

(** The click handler of the confirm button. *)
Definition confirmOCR (w : World) : World :=
  let w1 := fold_left confirmLine (ocrLines w) w in
  setOcrLines [] (setOcrPreview [] w1).

(** The change handler of the file input. *)
Definition onFilesChange (files : list File) (w : World) : World :=
  let w0 := setOcrLines [] (setOcrPreview [] w) in
  fold_left
    (fun w file =>
       if endsWith (js ".csv") (toLowerCase (file_name file))
       then processCSV h (file_name file) (file_text file) w
       else if startsWith (js "image/") (file_type file)
            then processReceiptWithOCR (file_recognized file) w
            else w)
    files w0.
End Receipts.

(* ================================================================== *)
(** * app.js: reading the ledger *)
(* ================================================================== *)

(** [getTransactionsByType(type)] *)
Definition getTransactionsByType (type : str) (w : World) : list Transaction :=
  filter (fun tx => str_eqb (tx_type tx) type) (transactions w).

(** The object returned by [getTaxSummary]. *)
Record TaxSummary : Type := {
  paye : number;
  vat : number;
  consumption : number;
  total : number;
  count : nat
}.

(** The body of [this.transactions.forEach(tx => { switch (tx.type) ... })]. *)
Definition summaryStep (summary : TaxSummary) (tx : Transaction) : TaxSummary :=
  if str_eqb (tx_type tx) (js "PAYE") then
    {| paye := nadd (paye summary) (tx_amount tx); vat := vat summary;
       consumption := consumption summary; total := total summary;
       count := count summary |}
  else if str_eqb (tx_type tx) (js "VAT") then
    {| paye := paye summary; vat := nadd (vat summary) (tx_amount tx);
       consumption := consumption summary; total := total summary;
       count := count summary |}
  else if str_eqb (tx_type tx) (js "Consumption") then
    {| paye := paye summary; vat := vat summary;
       consumption := nadd (consumption summary) (tx_amount tx);
       total := total summary; count := count summary |}
  else summary.

Definition getTaxSummary (w : World) : TaxSummary :=
  let summary :=
    fold_left summaryStep (transactions w)
      {| paye := Fin 0; vat := Fin 0; consumption := Fin 0; total := Fin 0;
         count := length (transactions w) |} in
  {| paye := paye summary; vat := vat summary;
     consumption := consumption summary;
     total := nadd (nadd (paye summary) (vat summary)) (consumption summary);
     count := count summary |}.

(** ** Export *)

(** The first line of an exported file. *)
Definition exportHeader : str :=
  js "Date,Type,Amount (" ++ [naira] ++ js "),Details" ++ [newline].

(** The line of a transaction: date, kind, amount, and the details between
    double quotes. *)
Definition exportRow (h : Host) (tx : Transaction) : str :=
  tx_date tx ++ [comma] ++ tx_type tx ++ [comma]
  ++ numberToString h (tx_amount tx) ++ [comma; quote]
  ++ tx_details tx ++ [quote; newline].

(** The file handed to the browser for download. *)
Record Download : Type := {
  download : str;   (* the name of the file *)
  content : str
}.

(** [exportTransactionsCSV()]: [None] stands for the result [null] of an
    empty ledger, [Some] for the result [true] and the download made. *)
Definition exportTransactionsCSV (h : Host) (w : World) : option Download * World :=
  match transactions w with
  | [] => (None, w)
  | _ :: _ =>
      let csv :=
        fold_left (fun csv tx => csv ++ exportRow h tx) (transactions w)
          exportHeader in
      (Some {| download := js "taxtrack_export_"
                           ++ hd [] (split 84 (toISOString h (ticks w)))
                           ++ js ".csv";
               content := csv |},
       tick 1 w)
  end.

(* ================================================================== *)
(** * app.js: the user, the session and the settings *)
(* ================================================================== *)

(** The values of the properties of the user and of the settings: [null],
    booleans and strings.  They are written to the storage as JSON and read
    back unchanged. *)
Inductive value : Type :=
| VNull
| VBool (b : bool)
| VText (s : str).

(** An object: its properties in the order of insertion. *)
Definition object : Type := list (str * value).

(** [o[k]]; [None] stands for [undefined]. *)
Fixpoint getProp (k : str) (o : object) : option value :=
  match o with
  | [] => None
  | (k', v) :: o' => if str_eqb k' k then Some v else getProp k o'
  end.

(** [o[k] = v]: in place when the object has the key, at the end
    otherwise. *)
Fixpoint setProp (k : str) (v : value) (o : object) : object :=
  match o with
  | [] => [(k, v)]
  | (k', v') :: o' =>
      if str_eqb k' k then (k', v) :: o' else (k', v') :: setProp k v o'
  end.

(** [{ ...a, ...b }] *)
Definition spread (a b : object) : object :=
  fold_left (fun o kv => setProp (fst kv) (snd kv) o) b a.

(** [x === y] on property values, [undefined] included. *)
Definition strictEq (x y : option value) : bool :=
  match x, y with
  | None, None => true
  | Some VNull, Some VNull => true
  | Some (VBool a), Some (VBool b) => Bool.eqb a b
  | Some (VText a), Some (VText b) => str_eqb a b
  | _, _ => false
  end.

Definition DEFAULT_USER : object :=
  [(js "firstName", VText []); (js "lastName", VText []); (js "email", VText []);
   (js "phone", VText []); (js "dob", VText []);
   (js "employment", VText (js "salary")); (js "company", VText []);
   (js "taxId", VText []); (js "taxOffice", VText []); (js "createdAt", VNull)].

Definition DEFAULT_SETTINGS : object :=
  [(js "currency", VText (js "NGN")); (js "financialYearStart", VText (js "01"));
   (js "emailNotifications", VBool true); (js "weeklyReports", VBool true);
   (js "theme", VText (js "dark"))].

(** An item of the storage that holds an object: absent (or empty), the
    JSON text of an object, or a text that [JSON.parse] rejects. *)
Inductive item : Type :=
| Absent
| Json (o : object)
| Garbled.

(** The three items of the storage that concern the user and the
    settings. *)
Record Store : Type := {
  loggedInItem : option str;   (* taxtrack_loggedIn *)
  userDataItem : item;         (* taxtrack_userData *)
  settingsItem : item          (* taxtrack_settings *)
}.

(** The application object, the storage, and the page the script has asked
    the browser to go to. *)
Record App : Type := {
  user : option object;
  settings : object;
  store : Store;
  location : option str
}.

(** Whether a write to the storage goes through, by item and content. *)
Record Quota : Type := {
  flagFits : bool;
  userFits : object -> bool;
  settingsFits : object -> bool
}.

(** The result object of [login] and [signup]. *)
Record AuthResult : Type := {
  success : bool;
  message : str
}.

(** A call returns a result or throws; either way it leaves a state. *)
Inductive outcome (A : Type) : Type :=
| Returns (result : A) (after : App)
| Throws (after : App).

Arguments Returns {A} result after.
Arguments Throws {A} after.

Definition setUser (u : option object) (a : App) : App :=
  {| user := u; settings := settings a; store := store a; location := location a |}.

Definition setSettings (s : object) (a : App) : App :=
  {| user := user a; settings := s; store := store a; location := location a |}.

Definition setLocation (page : str) (a : App) : App :=
  {| user := user a; settings := settings a; store := store a;
     location := Some page |}.

Definition setLoggedInItem (x : option str) (a : App) : App :=
  {| user := user a; settings := settings a;
     store := {| loggedInItem := x; userDataItem := userDataItem (store a);
                 settingsItem := settingsItem (store a) |};
     location := location a |}.

Definition setUserDataItem (o : object) (a : App) : App :=
  {| user := user a; settings := settings a;
     store := {| loggedInItem := loggedInItem (store a); userDataItem := Json o;
                 settingsItem := settingsItem (store a) |};
     location := location a |}.

Definition setSettingsItem (o : object) (a : App) : App :=
  {| user := user a; settings := settings a;
     store := {| loggedInItem := loggedInItem (store a);
                 userDataItem := userDataItem (store a);
                 settingsItem := Json o |};
     location := location a |}.

(** [isLoggedIn()]: the session flag is the text [true] and there is a
    user. *)
Definition isLoggedIn (a : App) : bool :=
  match loggedInItem (store a), user a with
  | Some flag, Some _ => str_eqb flag (js "true")
  | _, _ => false
  end.

(** [loadUser()]: an absent item leaves the user as it is; a text that
    cannot be parsed is caught and leaves no user. *)
Definition loadUser (a : App) : App :=
  match userDataItem (store a) with
  | Absent => a
  | Json o => setUser (Some o) a
  | Garbled => setUser None a
  end.

(** [loadSettings()]: the stored settings over the defaults; the defaults
    alone when there are none or they cannot be parsed. *)
Definition loadSettings (a : App) : App :=
  match settingsItem (store a) with
  | Json o => setSettings (spread DEFAULT_SETTINGS o) a
  | Absent | Garbled => setSettings DEFAULT_SETTINGS a
  end.

(** The application object that a page builds when it loads: the
    constructor and [init], as far as the user and the settings go. *)
Definition newApp (s : Store) : App :=
  loadSettings
    (loadUser
       {| user := None; settings := DEFAULT_SETTINGS; store := s;
          location := None |}).

Section Account.
Variable q : Quota.

(** [saveUser(userData)]: the user in memory is replaced before the write,
    and stays replaced when the write throws. *)
Definition saveUser (userData : object) (a : App) : bool * App :=
  let merged := spread (match user a with Some u => u | None => [] end) userData in
  let a1 := setUser (Some merged) a in
  if userFits q merged then (true, setUserDataItem merged a1) else (false, a1).

(** [getUserByEmail(email)]: the current user, when its email is the one
    asked for. *)
Definition getUserByEmail (email : option value) (a : App) : option object :=
  match user a with
  | Some u => if strictEq (getProp (js "email") u) email then Some u else None
  | None => None
  end.

(** [getUser()] *)
Definition getUser (a : App) : object :=
  match user a with
  | Some u => u
  | None => DEFAULT_USER
  end.

Definition updateProfile (updates : object) (a : App) : bool * App :=
  saveUser updates a.

(** [login(email, password, remember)]; [now] is the text of
    [new Date().toISOString()]. *)
Definition login (now : str) (email password : str) (remember : bool) (a : App)
  : outcome AuthResult :=
  match getUserByEmail (Some (VText email)) a with
  | Some userData =>
      if flagFits q
      then Returns {| success := true; message := js "Login successful!" |}
             (setUser (Some userData) (setLoggedInItem (Some (js "true")) a))
      else Throws a
  | None =>
      let newUser :=
        setProp (js "createdAt") (VText now)
          (setProp (js "lastName") (VText (js "User"))
             (setProp (js "firstName") (VText (hd [] (split 64 email)))
                (setProp (js "email") (VText email) DEFAULT_USER))) in
      let a1 := snd (saveUser newUser a) in
      if flagFits q
      then Returns {| success := true; message := js "Welcome! Account created." |}
             (setUser (Some newUser) (setLoggedInItem (Some (js "true")) a1))
      else Throws a1
  end.

(** [signup(userData)] *)
Definition signup (now : str) (userData : object) (a : App) : outcome AuthResult :=
  match getUserByEmail (getProp (js "email") userData) a with
  | Some _ =>
      Returns {| success := false;
                 message := js "An account with this email already exists." |} a
  | None =>
      let newUser :=
        setProp (js "createdAt") (VText now) (spread DEFAULT_USER userData) in
      let a1 := snd (saveUser newUser a) in
      if flagFits q
      then Returns {| success := true;
                      message := js "Account created successfully!" |}
             (setUser (Some newUser) (setLoggedInItem (Some (js "true")) a1))
      else Throws a1
  end.

(** [logout()]: the user data stay in the storage. *)
Definition logout (a : App) : App :=
  setLocation (js "login.html") (setUser None (setLoggedInItem None a)).

(** [saveSettings(newSettings)] *)
Definition saveSettings (newSettings : object) (a : App) : bool * App :=
  let merged := spread (settings a) newSettings in
  let a1 := setSettings merged a in
  if settingsFits q merged then (true, setSettingsItem merged a1) else (false, a1).

Definition getSettings (a : App) : object := settings a.

(** The two guards that pages call when they load. *)
Definition requireAuth (a : App) : bool * App :=
  if isLoggedIn a then (true, a) else (false, setLocation (js "login.html") a).

Definition redirectIfLoggedIn (destination : str) (a : App) : bool * App :=
  if isLoggedIn a then (true, setLocation destination a) else (false, a).
End Account.

(* ================================================================== *)
(** * part_000: the first dashboard script *)
(* ================================================================== *)

(** The first script of [src/unnamed/part_000] keeps its own ledger,
    [taxData], whose transactions have no id, and recomputes the three
    totals after every addition.  It has its own extraction of receipts,
    [processReceiptEditable], and its own confirm handler.  The functions
    are modelled as far as [taxData] and [ocrLines] go; what they write to
    the page is left out. *)
Module Legacy.
Record Tx : Type := {
  date : str;
  type : str;
  amount : number;
  details : str
}.

Record TaxData : Type := {
  paye : number;
  vat : number;
  consumption : number;
  transactions : list Tx
}.

(** [let taxData = { paye: 0, vat: 0, consumption: 0, transactions: [] }] *)
Definition initial : TaxData :=
  {| paye := Fin 0; vat := Fin 0; consumption := Fin 0; transactions := [] |}.

(** [transactions.filter(t => t.type === kind)
      .reduce((sum, t) => sum + t.amount, 0)] *)
Definition totalOf (kind : str) (l : list Tx) : number :=
  fold_left (fun sum t => nadd sum (amount t))
    (filter (fun t => str_eqb (type t) kind) l) (Fin 0).

Definition updateSummary (d : TaxData) : TaxData :=
  {| paye := totalOf (js "PAYE") (transactions d);
     vat := totalOf (js "VAT") (transactions d);
     consumption := totalOf (js "Consumption") (transactions d);
     transactions := transactions d |}.

Definition addTransaction (date type : str) (amount : number) (details : str)
  (d : TaxData) : TaxData :=
  updateSummary
    {| paye := paye d; vat := vat d; consumption := consumption d;
       transactions :=
         transactions d
         ++ [{| date := date; type := type; amount := amount;
                details := details |}] |}.

(** [calculateVAT(amount, details, type)]; [now] is the text of
    [new Date().toISOString()]. *)
Definition calculateVAT (now : str) (amount : number) (details type : str)
  (d : TaxData) : TaxData :=
  let vatAmount := if str_eqb type (js "VAT") then nmul amount (Fin 0.075)
                   else amount in
  addTransaction (hd [] (split 84 now)) type vatAmount details d.

(** *** The receipts of the first script *)

(** The pattern of amounts: two or three digits, groups of a comma and
    three digits, and an optional dot with two digits; used with the [g]
    flag. *)
Definition amountRe : regex :=
  Cat (Class isDigit)
    (Cat (Class isDigit)
       (Cat (Opt (Class isDigit))
          (Cat (Star (Cat (Unit comma)
                        (Cat (Class isDigit)
                           (Cat (Class isDigit) (Class isDigit)))))
             (Opt (Cat (Unit dot) (Cat (Class isDigit) (Class isDigit))))))).

(** An entry of [ocrLines]: it has no id. *)
Record Line : Type := {
  ocr_type : str;
  ocr_amount : number;
  ocr_details : str
}.

(** The kind of a line, from its text and the amount of the match. *)
Definition receiptType (line : str) (rawAmount : number) : str :=
  if test (Alt (Word UnitI "vat") (Alt (Word UnitI "tax") (Word UnitI "excise")))
       line
  then js "VAT"
  else if ngtb (Fin 1000) rawAmount
          && test (Alt (Word UnitI "vat") (Word UnitI "tax")) line
       then js "VAT"
       else js "Consumption".

(** The body of [matches.forEach(numStr => ...)], as far as [ocrLines]
    goes: the only test is [rawAmount > 0]. *)
Definition ocrMatch (line : str) (lines : list Line) (numStr : str) : list Line :=
  let rawAmount := toNumber (replaceAll (Unit comma) [] numStr) in
  if ngtb rawAmount (Fin 0) then
    let type := receiptType line rawAmount in
    let details :=
      orElse (Some (trim (replaceFirst numStr [] line))) (js "Receipt Entry") in
    lines ++ [{| ocr_type := type; ocr_amount := rawAmount;
                 ocr_details := details |}]
  else lines.

(** [processReceiptEditable(file)] when the engine has recognized [text]:
    the value it leaves in [ocrLines], which it empties first.  The rows it
    draws are not modelled: their markup is built from the details as they
    are, so what the page makes of a row depends on the parsing of markup.
    Each row carries, in the ids of its four controls, the index of its
    text line and its amount. *)
Definition processReceiptEditable (text : str) : list Line :=
  fold_left
    (fun lines line => fold_left (ocrMatch line) (matchAll amountRe line) lines)
    (split newline text) [].

(** The page of the first script at the time of a confirmation: the
    ledger, the lines held in [ocrLines], and the rows of the preview as
    the user has left them.  A [Row] stands for the four controls whose ids
    are [ocrLine], [ocrAmount], [ocrType] and [ocrDetails] followed by
    [row_id]. *)
Record Page : Type := {
  taxData : TaxData;
  ocrLines : list Line;
  ocrPreview : list Row
}.

(** The id under which the confirm handler looks for the row of a line:
    the index of the line in [ocrLines], a hyphen, and its amount. *)
Definition rowId (h : Host) (idx : nat) (line : Line) : str :=
  numberToString h (Fin (inject_Z (Z.of_nat idx)))
  ++ js "-" ++ numberToString h (ocr_amount line).

(** The body of [ocrLines.forEach((line, idx) => ...)] in the confirm
    handler: the amount typed in the row is taken as it is. *)
Definition confirmLine (h : Host) (dateStr : str) (rows : list Row)
  (d : TaxData) (idx : nat) (line : Line) : TaxData :=
  match find (fun r => str_eqb (row_id r) (rowId h idx line)) rows with
  | Some r =>
      if row_checked r then
        let amount := toNumber (row_amount r) in
        if str_eqb (row_type r) (js "VAT")
        then addTransaction dateStr (js "VAT") (nmul amount (Fin 0.075))
               (row_details r) d
        else addTransaction dateStr (js "Consumption") amount (row_details r) d
      else d
  | None => d
  end.

(** The click handler of the confirm button; [now] is the text of
    [new Date().toISOString()].  The preview is emptied, [ocrLines] is
    not. *)
Definition confirmOCR (h : Host) (now : str) (p : Page) : Page :=
  {| taxData :=
       forEachIndexed (confirmLine h (hd [] (split 84 now)) (ocrPreview p))
         0 (ocrLines p) (taxData p);
     ocrLines := ocrLines p;
     ocrPreview := [] |}.
End Legacy.

(* ================================================================== *)
(** * Notions used in the statements *)
(* ================================================================== *)

(** [r] is [x] rounded to two decimal places: a whole number of hundredths
    that no other is nearer to [x]. *)
Definition roundedTo2dp (x r : Q) : Prop :=
  (exists k : Z, r == inject_Z k / 100) /\
  x - (1 # 200) <= r /\ r <= x + (1 # 200).

(** Binary64 inputs of the remarks on rounding: two adjacent gross incomes
    near 312598.21, and a pension relief of 2^-35. *)
Definition grossBelow : spec_float := S754_finite false 5370396428580572 (-34).
Definition grossAbove : spec_float := S754_finite false 5370396428580573 (-34).
Definition tinyPension : Reliefs spec_float :=
  {| pension := Some (S754_finite false 4503599627370496 (-87));
     nhf := None; other := None |}.

(** A host for the examples: a fixed clock and random source, integers
    printed in decimal, a storage that accepts every write. *)
Definition printDigit (z : Z) : N := Z.to_N (48 + z mod 10).

Definition printInteger (z : Z) : str :=
  if (z <? 10)%Z then [printDigit z]
  else if (z <? 100)%Z then [printDigit (z / 10); printDigit z]
  else if (z <? 1000)%Z then [printDigit (z / 100); printDigit (z / 10); printDigit z]
  else [printDigit (z / 1000); printDigit (z / 100); printDigit (z / 10); printDigit z].

Definition sampleHost : Host :=
  {| Date_now36 := fun _ => js "lvn2k9c0";
     Math_random36 := fun n => js "0.k3f9" ++ printInteger (Z.of_nat n);
     toISOString := fun _ => js "2024-05-01T10:00:00.000Z";
     numberToString := fun a => match a with
                                | Fin q => printInteger (Qfloor q)
                                | _ => js "NaN"
                                end;
     toLocaleString := fun a => match a with
                                | Fin q => printInteger (Qfloor q)
                                | _ => js "NaN"
                                end;
     setItemOk := fun _ => true |}.

(** A CSV line whose only numeric field is 5000.50: the amount and the
    quoted details of the sample row of the specification. *)
Definition sampleCsvRow : str :=
  js "5000.50, " ++ [quote] ++ js "Fuel purchase" ++ [quote].

(** The invariant the specification gives for a stored transaction: a
    non-negative amount and one of the three kinds. *)
Definition validAmountType (amount : number) (type : str) : Prop :=
  ngeb amount (Fin 0) = true /\
  In type [js "PAYE"; js "VAT"; js "Consumption"].

Definition validTx (tx : Transaction) : Prop :=
  validAmountType (tx_amount tx) (tx_type tx).

Definition validInput (t : TxInput) : Prop :=
  validAmountType (in_amount t) (in_type t).

(** A sequence of [addTransaction] calls. *)
Definition addAll (h : Host) (inputs : list TxInput) (w : World) : World :=
  fold_left (fun w t => snd (addTransaction h t w)) inputs w.

(** [after] is [before] without the transactions whose id is [id]: the
    others stay, as they are and in their order. *)
Inductive removesById (id : str) : list Transaction -> list Transaction -> Prop :=
| removes_nil : removesById id [] []
| removes_drop tx before after :
    tx_id tx = id -> removesById id before after ->
    removesById id (tx :: before) after
| removes_keep tx before after :
    tx_id tx <> id -> removesById id before after ->
    removesById id (tx :: before) (tx :: after).

Definition sampleTx (id : string) (type : string) (amount : Q) : Transaction :=
  {| tx_id := js id; tx_date := js "2024-05-01"; tx_type := js type;
     tx_amount := Fin amount; tx_details := js "sample";
     tx_createdAt := js "2024-05-01T10:00:00.000Z" |}.

Definition sampleInput (type : string) (amount : Q) : TxInput :=
  {| in_date := None; in_type := js type; in_amount := Fin amount;
     in_details := None |}.

(** A field whose number is positive, and a field that qualifies as
    details: not empty, a number that is [NaN] or zero, more than two code
    units. *)
Definition positiveField (col : str) : bool :=
  negb (isNaN (colNumber col)) && ngtb (colNumber col) (Fin 0).

Definition detailsField (col : str) : bool :=
  nonEmpty col && negb (ntruthy (colNumber col)) && (2 <? length col)%nat.

(** The number of the first positive field, zero when there is none; the
    last field that qualifies as details, the empty text when there is
    none. *)
Definition firstPositive (cols : list str) : number :=
  match find positiveField cols with
  | Some col => colNumber col
  | None => Fin 0
  end.

Definition lastDetails (cols : list str) : str :=
  match find detailsField (rev cols) with
  | Some col => col
  | None => []
  end.

(** The details as the specification words them: the first field that is
    not numeric and has more than two code units. *)
Definition firstNonNumeric (cols : list str) : str :=
  match find (fun col => isNaN (colNumber col) && (2 <? length col)%nat) cols with
  | Some col => col
  | None => []
  end.

(** The sample row of the specification, with its date field. *)
Definition sampleDatedCsvRow : str :=
  js "2024-01-01, 5000.50, " ++ [quote] ++ js "Fuel purchase" ++ [quote].

(** A field that is not numeric: its text does not begin with a number. *)
Definition nonNumeric (col : str) : bool := isNaN (colNumber col).

(** A finite number whose magnitude is in the range of the normal numbers
    of binary64, from 2^-1022 to 2^1023: reading it gives neither zero nor
    an infinity. *)
Definition normalMagnitude (a : number) : bool :=
  match a with
  | Fin q => Qle_bool (Qpower 2 (-1022)) (Qabs q)
             && Qle_bool (Qabs q) (Qpower 2 1023)
  | NaN | PInf | NInf => false
  end.

(** A field that is a number other than zero, written in full: the whole
    of its text without naira signs and commas is a numeric literal, of a
    magnitude that binary64 holds. *)
Definition fullNumber (col : str) : bool :=
  ntruthy (colNumber col)
  && neqb (toNumber (replaceAll currencyRe [] col)) (colNumber col)
  && normalMagnitude (colNumber col).

(** A row whose fields are each of one of these two sorts. *)
Definition plainRow (cols : list str) : bool :=
  forallb (fun col => nonNumeric col || fullNumber col) cols.

(** The last field that is not numeric and has more than two code units,
    the empty text when there is none. *)
Definition lastNonNumeric (cols : list str) : str :=
  match find (fun col => nonNumeric col && (2 <? length col)%nat) (rev cols) with
  | Some col => col
  | None => []
  end.

(** The lines that the confirm handler of the first script holds, each with
    its index in [ocrLines]. *)
Definition heldLines (p : Legacy.Page) : list (nat * Legacy.Line) :=
  combine (seq 0 (length (Legacy.ocrLines p))) (Legacy.ocrLines p).

(** The row of a held line is found under the id the handler builds, and
    its box is ticked. *)
Definition foundAndTicked (h : Host) (rows : list Row) (x : nat * Legacy.Line)
  : bool :=
  match find (fun r => str_eqb (row_id r) (Legacy.rowId h (fst x) (snd x))) rows with
  | Some r => row_checked r
  | None => false
  end.

(** A page of the first script with one held line of amount 50, its row
    ticked and its amount retyped as 0. *)
Definition legacySample : Legacy.Page :=
  {| Legacy.taxData := Legacy.initial;
     Legacy.ocrLines := Legacy.processReceiptEditable (js "Bread 50");
     Legacy.ocrPreview :=
       [{| row_id := js "0-50"; row_checked := true; row_amount := js "0";
           row_type := js "Consumption"; row_details := js "Bread" |}] |}.

(** At confirm time: the line is selected (its row is there and its box is
    ticked); the amount typed in its row parses as a positive number. *)
Definition selected (w : World) (line : Candidate) : bool :=
  match getRow w (line_id line) with
  | Some r => row_checked r
  | None => false
  end.

Definition amountPositive (w : World) (line : Candidate) : bool :=
  match getRow w (line_id line) with
  | Some r => ngtb (parseFloat (row_amount r)) (Fin 0)
  | None => false
  end.

Definition commits (w : World) (line : Candidate) : bool :=
  selected w line && amountPositive w line.

(** The user overwrites the amount of every row of the preview. *)
Definition retypeAmounts (value : str) (w : World) : World :=
  setOcrPreview
    (List.map (fun r => {| row_id := row_id r; row_checked := row_checked r;
                           row_amount := value; row_type := row_type r;
                           row_details := row_details r |})
       (ocrPreview w)) w.

(** The preview after the recognition of a one-line receipt. *)
Definition sampleReceipt : World :=
  processReceiptWithOCR dashboard_js sampleHost (Some (js "Bread 500")) emptyWorld.

(** A plausible amount: finite, between 100 and 10,000,000. *)
Definition plausible (a : number) : Prop :=
  exists q : Q, a = Fin q /\ 100 <= q /\ q <= 10000000.

(** The lines of a recognized text paired with their matches that pass the
    range filter, in the order of the extraction. *)
Definition survivors (text : str) : list (str * str) :=
  flat_map
    (fun line =>
       List.map (pair line)
         (filter (fun numStr => inRange (rawAmountOf numStr))
            (matchAll amountRe line)))
    (split newline text).

(** Every run of code units satisfying [p] becomes the single unit [x]. *)
Fixpoint collapseRuns (p : N -> bool) (x : N) (inRun : bool) (s : str) : str :=
  match s with
  | [] => []
  | c :: s' =>
      if p c
      then (if inRun then collapseRuns p x true s'
            else x :: collapseRuns p x true s')
      else c :: collapseRuns p x false s'
  end.

Definition space : N := 32.

(** The details in words: the line without the first occurrence of the
    matched text; every code unit that is not a letter, a digit, an
    underscore or white space replaced by a space; runs of white space
    collapsed to one space; trimmed; cut to 50 code units. *)
Definition describedDetails (line numStr : str) : str :=
  firstn 50
    (trim
       (collapseRuns isSpace space false
          (List.map (fun c => if isWord c || isSpace c then c else space)
             (replaceFirst numStr [] line)))).

(** The details as the specification words them: the code units that are
    neither alphanumeric nor white space are taken out, and the placeholder
    stands for a result shorter than 3. *)
Definition isAlphanumeric (c : N) : bool :=
  isDigit c || between 65 90 c || between 97 122 c.

Definition claimedDetails (line numStr : str) : str :=
  let details :=
    firstn 50
      (trim
         (collapseRuns isSpace space false
            (filter (fun c => isAlphanumeric c || isSpace c)
               (replaceFirst numStr [] line)))) in
  if (length details <? 3)%nat then placeholder else details.

(** What is known of the Candidate Line made from a line and a match. *)
Definition extractedFrom (b : build) (c : Candidate) (p : str * str) : Prop :=
  line_amount c = rawAmountOf (snd p) /\
  line_type c = receiptType b (fst p) /\
  line_details c = receiptDetails b (fst p) (snd p).

(** The lines that are in [ocrLines] before those of the image are added. *)
Definition keptLines (b : build) (w : World) : list Candidate :=
  match b with
  | dashboard_js => []
  | part_000 => ocrLines w
  end.

(** ** Notions used in the further properties *)

(** [list.reduce((sum, t) => sum + t.amount, 0)] *)
Definition sumAmounts (l : list Transaction) : number :=
  fold_left (fun sum t => nadd sum (tx_amount t)) l (Fin 0).

(** The stored copy is the JSON text of the ledger in memory. *)
Definition inSync (w : World) : Prop :=
  stored w = Some (JSON_stringify (transactions w)).

(** An amount that the JSON text keeps: a finite number. *)
Definition finiteAmount (tx : Transaction) : Prop :=
  exists q : Q, tx_amount tx = Fin q.

(** A CSV file of one row whose first field reads as infinity. *)
Definition infiniteCsvRow : str := js "Infinity,inf".

(** A relief that counts as zero or more: absent, zero, [NaN], or a
    positive number. *)
Definition reliefNotNegative (x : option number) : Prop :=
  ngeb (numberOr0 x) (Fin 0) = true.

(** The three kinds of transaction the summary knows. *)
Definition kinds : list str := [js "PAYE"; js "VAT"; js "Consumption"].

(** Reliefs given as three finite numbers. *)
Definition finiteReliefs (p n o : Q) : Reliefs number :=
  {| pension := Some (Fin p); nhf := Some (Fin n); other := Some (Fin o) |}.

(** The lines of a CSV file that the import loop runs over: the non-blank
    lines, without the first when it contains [date] or [amount] in any
    letter case. *)
Definition csvDataLines (text : str) : list str :=
  let lines := filter (fun line => nonEmpty (trim line)) (split newline text) in
  match lines with
  | [] => []
  | first :: _ =>
      skipn (if includes (js "date") (toLowerCase first)
                || includes (js "amount") (toLowerCase first)
             then 1%nat else 0%nat) lines
  end.

(** A line of a CSV file that makes a transaction: two fields or more, one
    of them with a positive number. *)
Definition rowCommits (line : str) : bool :=
  (2 <=? length (csvCols line))%nat && ngtb (firstPositive (csvCols line)) (Fin 0).

(** The row that the preview shows for a candidate, before any edit. *)
Definition rowOf (h : Host) (c : Candidate) : Row :=
  {| row_id := line_id c; row_checked := true;
     row_amount := numberToString h (line_amount c);
     row_type := line_type c; row_details := line_details c |}.

(** The preview after an image whose candidates are shown as [rows]: the
    copy in part_000 replaces the preview by a notice when there are none. *)
Definition previewAfter (b : build) (before rows : list Row) : list Row :=
  match b, rows with
  | part_000, [] => []
  | _, _ => before ++ rows
  end.

(** [f] holds of the text itself or of what is left of it after some code
    units. *)
Fixpoint anywhere (f : str -> bool) (s : str) : bool :=
  f s || match s with
         | [] => false
         | _ :: s' => anywhere f s'
         end.

Definition vatKeywords : list str := [js "vat"; js "tax"; js "excise"; js "levy"].

(** Text made of letters, digits, underscores and spaces only. *)
Definition plainText (s : str) : bool :=
  forallb (fun c => isWord c || (c =? space)%N) s.

(** What the import makes of a field: trimmed, double quotes removed. *)
Definition cleanField (c : str) : str := replaceAll quoteRe [] (trim c).

Definition oneLine (s : str) : bool := negb (existsb (N.eqb newline) s).

(** The exported line of a transaction without the line feed that ends it. *)
Definition exportLine (h : Host) (tx : Transaction) : str :=
  tx_date tx ++ [comma] ++ tx_type tx ++ [comma]
  ++ numberToString h (tx_amount tx) ++ [comma; quote]
  ++ tx_details tx ++ [quote].

(** A transaction whose exported row is one line of text, whose date has no
    comma, and whose date begins with a positive number, as the dates that
    [addTransaction] fills in do. *)
Definition datedRow (h : Host) (tx : Transaction) : bool :=
  oneLine (exportLine h tx)
  && negb (existsb (N.eqb comma) (tx_date tx))
  && positiveField (cleanField (tx_date tx)).

(** The keys of an object. *)
Definition keys (o : object) : list str := List.map fst o.

(** A storage that accepts every write, and a storage with nothing in it. *)
Definition roomyQuota : Quota :=
  {| flagFits := true; userFits := fun _ => true; settingsFits := fun _ => true |}.

Definition emptyStore : Store :=
  {| loggedInItem := None; userDataItem := Absent; settingsItem := Absent |}.

(** The storage after Ada has signed up with a password field in her
    data. *)
Definition adaStore : Store :=
  {| loggedInItem := Some (js "true");
     userDataItem :=
       Json (setProp (js "password") (VText (js "s3cret"))
               (setProp (js "email") (VText (js "ada@example.com")) DEFAULT_USER));
     settingsItem := Absent |}.

(** A stored amount that is zero or more. *)
Definition notNegative (tx : Transaction) : Prop :=
  ngeb (tx_amount tx) (Fin 0) = true.

(** Every class of the pattern accepts only code units that [p] accepts. *)
Fixpoint within (p : N -> bool) (r : regex) : Prop :=
  match r with
  | Eps => True
  | Class c => forall x, c x = true -> p x = true
  | Cat r1 r2 | Alt r1 r2 => within p r1 /\ within p r2
  | Star r' => within p r'
  end.

(** A digit, a comma or a dot. *)
Definition isAmountUnit (c : N) : bool :=
  isDigit c || (c =? comma)%N || (c =? dot)%N.

(** A ledger with one VAT transaction whose amount is not a number. *)
Definition poisonedWorld : World :=
  addAll sampleHost
    [sampleInput "VAT" 375.04;
     {| in_date := None; in_type := js "VAT"; in_amount := NaN;
        in_details := None |}]
    emptyWorld.

(** A storage whose user data cannot be parsed, with the session flag set;
    a storage that has room for the flag but not for user data. *)
Definition garbledStore : Store :=
  {| loggedInItem := Some (js "true"); userDataItem := Garbled;
     settingsItem := Garbled |}.

Definition fullQuota : Quota :=
  {| flagFits := true; userFits := fun _ => false; settingsFits := fun _ => false |}.

(* ================================================================== *)
(** * Facts about the model *)
(* ================================================================== *)

(** ** Comparisons and rounding of finite numbers *)

Lemma Qltb_true (p q : Q) : Qltb p q = true <-> p < q.
Proof.
  unfold Qltb. rewrite negb_true_iff. split; intro Hx.
  - apply Qnot_le_lt. intro Hle. apply Qle_bool_iff in Hle. congruence.
  - destruct (Qle_bool q p) eqn:E; [|reflexivity].
    apply Qle_bool_iff in E. exfalso. lra.
Qed.

Lemma Qltb_false (p q : Q) : Qltb p q = false <-> q <= p.
Proof.
  unfold Qltb. rewrite negb_false_iff. apply Qle_bool_iff.
Qed.

Lemma Qle_bool_false (p q : Q) : Qle_bool p q = false <-> q < p.
Proof.
  rewrite <- Qltb_true. unfold Qltb.
  destruct (Qle_bool p q); simpl; intuition congruence.
Qed.

Lemma Qeq_bool_false (p q : Q) : Qeq_bool p q = false <-> ~ p == q.
Proof.
  rewrite <- Qeq_bool_iff. destruct (Qeq_bool p q); intuition congruence.
Qed.

Lemma ngtb_fin (p q : Q) : ngtb (Fin p) (Fin q) = true <-> q < p.
Proof. apply Qltb_true. Qed.

Lemma ngtb_fin_false (p q : Q) : ngtb (Fin p) (Fin q) = false <-> p <= q.
Proof. apply Qltb_false. Qed.

Lemma nleb_fin (p q : Q) : nleb (Fin p) (Fin q) = true <-> p <= q.
Proof.
  unfold nleb, ngeb, ngtb, neqb. rewrite orb_true_iff, Qltb_true, Qeq_bool_iff.
  split; [intros [Hx|Hx]; lra | intro Hx].
  destruct (Qlt_le_dec p q); [left; assumption | right; lra].
Qed.

Lemma nleb_fin_false (p q : Q) : nleb (Fin p) (Fin q) = false <-> q < p.
Proof.
  split; intro Hx.
  - apply Qnot_le_lt. intro Hle. apply nleb_fin in Hle. congruence.
  - destruct (nleb (Fin p) (Fin q)) eqn:E; [|reflexivity].
    apply nleb_fin in E. exfalso. lra.
Qed.

Lemma ngeb_fin (p q : Q) : ngeb (Fin p) (Fin q) = true <-> q <= p.
Proof. apply (nleb_fin q p). Qed.

(** Turn the tests on finite numbers that guard the branches of the goal
    into inequalities. *)
Ltac split_tests :=
  repeat match goal with
    | |- context [if Qltb ?a ?b then _ else _] =>
        let E := fresh "E" in
        destruct (Qltb a b) eqn:E;
        [apply Qltb_true in E | apply Qltb_false in E]
    | |- context [if Qle_bool ?a ?b then _ else _] =>
        let E := fresh "E" in
        destruct (Qle_bool a b) eqn:E;
        [apply Qle_bool_iff in E | apply Qle_bool_false in E]
    | |- context [if nleb (Fin ?a) (Fin ?b) then _ else _] =>
        let E := fresh "E" in
        destruct (nleb (Fin a) (Fin b)) eqn:E;
        [apply nleb_fin in E | apply nleb_fin_false in E]
    end.

Ltac js_arith :=
  cbn [gtb leb lit add sub mul div Math_max Math_round truthy number_arith
       nadd nsub nmul ndiv nopp nmax ngtb].

Ltac js_arith_in H :=
  cbn [gtb leb lit add sub mul div Math_max Math_round truthy number_arith
       nadd nsub nmul ndiv nopp nmax ngtb] in H.

Lemma nround_mono (x y : Q) :
  x <= y -> nleb (nround (Fin x)) (nround (Fin y)) = true.
Proof.
  intro Hxy. cbn [nround]. apply nleb_fin. rewrite <- Zle_Qle.
  apply Qfloor_resp_le. lra.
Qed.

(** On finite taxable incomes the band schedule is finite and monotone:
    every band starts at the cumulative tax the previous one ends with. *)
Lemma bandTax_mono (t1 t2 : Q) :
  t1 <= t2 ->
  exists x1 x2, bandTax (Fin t1) = Fin x1 /\ bandTax (Fin t2) = Fin x2 /\ x1 <= x2.
Proof.
  intro Ht. unfold bandTax. js_arith.
  split_tests; do 2 eexists; (split; [reflexivity|]); (split; [reflexivity|]); lra.
Qed.

Lemma bandTax_of_max (p1 p2 : Q) :
  p1 <= p2 ->
  nleb (nround (bandTax (nmax (Fin p1) (Fin 0))))
       (nround (bandTax (nmax (Fin p2) (Fin 0)))) = true.
Proof.
  intro Hp. cbn [nmax].
  assert (Hm : forall t1 t2, t1 <= t2 ->
             nleb (nround (bandTax (Fin t1))) (nround (bandTax (Fin t2))) = true).
  { intros t1 t2 Ht. destruct (bandTax_mono Ht) as (x1 & x2 & -> & -> & Hx).
    now apply nround_mono. }
  split_tests; apply Hm; lra.
Qed.

Ltac div_consts :=
  unfold Qdiv in *;
  change (/ 100) with (1 # 100) in *;
  change (/ 12) with (1 # 12) in *.

Lemma ndiv_fin (p q : Q) : ~ q == 0 -> ndiv (Fin p) (Fin q) = Fin (p / q).
Proof.
  intro Hq. cbn [ndiv]. apply Qeq_bool_false in Hq. now rewrite Hq.
Qed.

Lemma calculateVAT_fin (a : Q) :
  calculateVAT (Fin a)
  = Fin (inject_Z (Qfloor (a * 0.075 * 100 + (1 # 2))) / 100).
Proof.
  unfold calculateVAT. js_arith. cbn [nround]. apply ndiv_fin. lra.
Qed.

Lemma calculateVAT_rounded (a : Q) :
  exists r, calculateVAT (Fin a) = Fin r /\ roundedTo2dp (a * 0.075) r.
Proof.
  eexists. split; [apply calculateVAT_fin|].
  pose proof (Qfloor_le (a * 0.075 * 100 + (1 # 2))) as Hlo.
  pose proof (Qlt_floor (a * 0.075 * 100 + (1 # 2))) as Hhi.
  rewrite inject_Z_plus in Hhi. change (inject_Z 1) with 1 in Hhi.
  set (z := inject_Z (Qfloor (a * 0.075 * 100 + (1 # 2)))) in *.
  split; [|split].
  - eexists. reflexivity.
  - div_consts. lra.
  - div_consts. lra.
Qed.

(** On non-negative amounts the substitute of dashboard.js and the
    [calculateVAT] of app.js give the same result (below the magnitude where
    [toFixed] stops rounding). *)
Lemma calculateVAT_fallback_agrees (a : Q) :
  0 <= a -> a * 0.075 < 10 ^ 21 ->
  calculateVAT_fallback (Fin a) = calculateVAT (Fin a).
Proof.
  intros Ha Hbig. rewrite calculateVAT_fin. unfold calculateVAT_fallback.
  cbn [nmul toFixed2].
  assert (Habs : Qabs (a * 0.075) == a * 0.075) by (apply Qabs_pos; lra).
  assert (H1 : Qle_bool (10 ^ 21) (Qabs (a * 0.075)) = false).
  { apply Qle_bool_false. rewrite Habs. exact Hbig. }
  assert (H2 : Qltb (a * 0.075) 0 = false) by (apply Qltb_false; lra).
  now rewrite H1, H2.
Qed.

(** Where binary64 leaves exact arithmetic.  Three times 0.075 is 0.225, a
    tie between two hundredths: exact arithmetic rounds it up to 0.23, while
    in binary64 the product falls just below the tie and [calculateVAT]
    gives 0.22, the other nearest hundredth. *)
Remark vat_tie_in_binary64 :
  calculateVAT (Fin 3) =n= Fin 0.23 /\
  calculateVAT (Binary64.ofQ 3) = Binary64.ofQ 0.22.
Proof. split; vm_compute; reflexivity. Qed.

(** With a pension relief of 2^-35 the sum of the reliefs falls on a tie of
    the binary64 grid, and between two adjacent gross incomes the rounded
    sum takes two steps where the gross income takes one: the taxable income
    goes down by one unit in the last place and, at this point, the rounded
    tax goes from 3506 to 3505.  Exact arithmetic has no such step. *)
Remark paye_last_place_in_binary64 :
  SFltb grossBelow grossAbove = true /\
  annualTax (calculatePAYE grossBelow tinyPension) = Binary64.ofQ 3506 /\
  annualTax (calculatePAYE grossAbove tinyPension) = Binary64.ofQ 3505.
Proof. repeat split; vm_compute; reflexivity. Qed.

(** Rounding a twelfth of [t], and rounding a twelfth of [t] rounded, give
    integers at most one apart. *)
Lemma round_div12_close (t : Q) :
  (Z.abs (Qfloor (t / 12 + (1 # 2))
          - Qfloor (inject_Z (Qfloor (t + (1 # 2))) / 12 + (1 # 2))) <= 1)%Z.
Proof.
  set (A := Qfloor (t + (1 # 2))).
  set (M := Qfloor (t / 12 + (1 # 2))).
  set (M' := Qfloor (inject_Z A / 12 + (1 # 2))).
  pose proof (Qfloor_le (t + (1 # 2))) as HA1.
  pose proof (Qlt_floor (t + (1 # 2))) as HA2.
  pose proof (Qfloor_le (t / 12 + (1 # 2))) as HM1.
  pose proof (Qlt_floor (t / 12 + (1 # 2))) as HM2.
  pose proof (Qfloor_le (inject_Z A / 12 + (1 # 2))) as HN1.
  pose proof (Qlt_floor (inject_Z A / 12 + (1 # 2))) as HN2.
  fold A in HA1, HA2. fold M in HM1, HM2. fold M' in HN1, HN2.
  rewrite inject_Z_plus in HA2, HM2, HN2. change (inject_Z 1) with 1 in *.
  div_consts.
  assert (H1 : inject_Z (M - M') < inject_Z 2).
  { unfold Zminus. rewrite inject_Z_plus, inject_Z_opp.
    change (inject_Z 2) with 2. lra. }
  assert (H2 : inject_Z (M' - M) < inject_Z 2).
  { unfold Zminus. rewrite inject_Z_plus, inject_Z_opp.
    change (inject_Z 2) with 2. lra. }
  rewrite <- Zlt_Qlt in H1, H2. lia.
Qed.

(** ** The ledger operations, field by field *)

Section LedgerFacts.
Variable h : Host.

Lemma saveTransactions_transactions (w : World) :
  transactions (saveTransactions h w) = transactions w.
Proof. unfold saveTransactions. now destruct (setItemOk h _). Qed.

Lemma saveTransactions_ocrLines (w : World) :
  ocrLines (saveTransactions h w) = ocrLines w.
Proof. unfold saveTransactions. now destruct (setItemOk h _). Qed.

Lemma saveTransactions_ocrPreview (w : World) :
  ocrPreview (saveTransactions h w) = ocrPreview w.
Proof. unfold saveTransactions. now destruct (setItemOk h _). Qed.

Lemma saveTransactions_ticks (w : World) :
  ticks (saveTransactions h w) = ticks w.
Proof. unfold saveTransactions. now destruct (setItemOk h _). Qed.

Lemma addTransaction_transactions (t : TxInput) (w : World) :
  transactions (snd (addTransaction h t w))
  = transactions w ++ [fst (addTransaction h t w)].
Proof.
  unfold addTransaction. cbn [fst snd].
  now rewrite saveTransactions_transactions.
Qed.

Lemma addTransaction_ocrLines (t : TxInput) (w : World) :
  ocrLines (snd (addTransaction h t w)) = ocrLines w.
Proof.
  unfold addTransaction. cbn [fst snd].
  now rewrite saveTransactions_ocrLines.
Qed.

Lemma addTransaction_ocrPreview (t : TxInput) (w : World) :
  ocrPreview (snd (addTransaction h t w)) = ocrPreview w.
Proof.
  unfold addTransaction. cbn [fst snd].
  now rewrite saveTransactions_ocrPreview.
Qed.

Lemma addTransaction_type_amount (t : TxInput) (w : World) :
  tx_type (fst (addTransaction h t w)) = in_type t /\
  tx_amount (fst (addTransaction h t w)) = in_amount t.
Proof. now split. Qed.
End LedgerFacts.

Lemma str_eqb_eq (a b : str) : str_eqb a b = true <-> a = b.
Proof.
  unfold str_eqb. destruct (list_eq_dec N.eq_dec a b); intuition congruence.
Qed.

Lemma str_eqb_neq (a b : str) : str_eqb a b = false <-> a <> b.
Proof.
  unfold str_eqb. destruct (list_eq_dec N.eq_dec a b); intuition congruence.
Qed.

Lemma filter_removesById (id : str) (l : list Transaction) :
  removesById id l (filter (fun tx => negb (str_eqb (tx_id tx) id)) l).
Proof.
  induction l as [|tx l IH]; cbn [filter]; [constructor|].
  destruct (str_eqb (tx_id tx) id) eqn:E; cbn [negb].
  - apply removes_drop; [now apply str_eqb_eq | exact IH].
  - apply removes_keep; [now apply str_eqb_neq | exact IH].
Qed.

Lemma removesById_In (id : str) (before after : list Transaction) :
  removesById id before after ->
  forall tx, In tx after <-> In tx before /\ tx_id tx <> id.
Proof.
  induction 1 as [|t before after Ht _ IH|t before after Ht _ IH]; intro tx;
    cbn [In].
  - tauto.
  - rewrite IH. split; [tauto|]. intros [[->|Hin] Hne]; [contradiction|tauto].
  - rewrite IH. split.
    + intros [->|[Hin Hne]]; tauto.
    + intros [[->|Hin] Hne]; tauto.
Qed.

Lemma addAll_transactions (h : Host) (inputs : list TxInput) (w : World) :
  List.map (fun tx => (tx_type tx, tx_amount tx)) (transactions (addAll h inputs w))
  = List.map (fun tx => (tx_type tx, tx_amount tx)) (transactions w)
    ++ List.map (fun t => (in_type t, in_amount t)) inputs.
Proof.
  revert w. induction inputs as [|t inputs IH]; intro w; cbn [addAll fold_left List.map].
  - now rewrite app_nil_r.
  - fold (addAll h inputs (snd (addTransaction h t w))). rewrite IH.
    rewrite addTransaction_transactions, map_app, <- app_assoc. reflexivity.
Qed.

(** ** Matching *)

(** Whatever is left after a match is a suffix of the text matched. *)
Lemma starLoop_suffix (step : str -> (str -> option str) -> option str)
  (k : str -> option str) :
  (forall s k' x, step s k' = Some x ->
     exists s', k' s' = Some x /\ (length s' <= length s)%nat) ->
  forall n s x, starLoop step k n s = Some x ->
    exists s', k s' = Some x /\ (length s' <= length s)%nat.
Proof.
  intros Hstep n. induction n as [|n IH]; intros s x Hx; cbn [starLoop] in Hx.
  - exists s. split; [exact Hx | lia].
  - destruct (step s _) as [rest|] eqn:E.
    + injection Hx as ->. apply Hstep in E. destruct E as (s1 & Hk & Hlen).
      destruct (length s1 <? length s)%nat; [|discriminate].
      apply IH in Hk. destruct Hk as (s' & Hk & Hlen').
      exists s'. split; [exact Hk | lia].
    + exists s. split; [exact Hx | lia].
Qed.

Lemma rmatch_suffix (r : regex) :
  forall s k x, rmatch r s k = Some x ->
    exists s', k s' = Some x /\ (length s' <= length s)%nat.
Proof.
  induction r as [|p|r1 IH1 r2 IH2|r1 IH1 r2 IH2|r IH]; intros s k x Hx;
    cbn [rmatch] in Hx.
  - exists s. split; [exact Hx | lia].
  - destruct s as [|c s']; [discriminate|].
    destruct (p c); [|discriminate].
    exists s'. split; [exact Hx | cbn [length]; lia].
  - apply IH1 in Hx. destruct Hx as (s1 & Hx & Hlen1).
    apply IH2 in Hx. destruct Hx as (s2 & Hx & Hlen2).
    exists s2. split; [exact Hx | lia].
  - destruct (rmatch r1 s k) as [rest|] eqn:E.
    + injection Hx as ->. now apply IH1.
    + now apply IH2.
  - now apply (@starLoop_suffix (rmatch r) k IH) in Hx.
Qed.

Lemma matchHead_shorter (r : regex) (s m rest : str) :
  matchHead r s = Some (m, rest) ->
  (length rest <= length s)%nat /\
  (nonEmpty m = true -> (length rest < length s)%nat).
Proof.
  unfold matchHead. destruct (rmatch r s Some) as [x|] eqn:E; [|discriminate].
  intro H. injection H as <- <-.
  apply rmatch_suffix in E. destruct E as (s' & Hs' & Hlen).
  injection Hs' as ->. split; [exact Hlen|].
  destruct (length s - length x)%nat eqn:Ed; [discriminate|]. lia.
Qed.

(** The bound that [matchAll] and [replaceAll] put on their loops is never
    reached: any larger bound gives the same result. *)
Lemma matchAllFrom_fuel (r : regex) (f1 f2 : nat) (s : str) :
  (length s < f1)%nat -> (length s < f2)%nat ->
  matchAllFrom f1 r s = matchAllFrom f2 r s.
Proof.
  revert f2 s. induction f1 as [|f1 IH]; intros f2 s H1 H2; [lia|].
  destruct f2 as [|f2]; [lia|]. cbn [matchAllFrom].
  assert (Hskip : match s with [] => [] | _ :: s' => matchAllFrom f1 r s' end
                  = match s with [] => [] | _ :: s' => matchAllFrom f2 r s' end).
  { destruct s as [|c s']; [reflexivity|]. cbn [length] in *. apply IH; lia. }
  destruct (matchHead r s) as [[m rest]|] eqn:E; [|exact Hskip].
  f_equal. destruct (nonEmpty m) eqn:Em; [|exact Hskip].
  destruct (@matchHead_shorter r s m rest E) as [_ Hlt]. specialize (Hlt Em).
  apply IH; lia.
Qed.

Lemma replaceAllFrom_fuel (r : regex) (rep : str) (f1 f2 : nat) (s : str) :
  (length s < f1)%nat -> (length s < f2)%nat ->
  replaceAllFrom f1 r rep s = replaceAllFrom f2 r rep s.
Proof.
  revert f2 s. induction f1 as [|f1 IH]; intros f2 s H1 H2; [lia|].
  destruct f2 as [|f2]; [lia|]. cbn [replaceAllFrom].
  assert (Hskip :
            match s with [] => [] | c :: s' => c :: replaceAllFrom f1 r rep s' end
            = match s with [] => [] | c :: s' => c :: replaceAllFrom f2 r rep s' end).
  { destruct s as [|c s']; [reflexivity|]. cbn [length] in *.
    f_equal. apply IH; lia. }
  destruct (matchHead r s) as [[m rest]|] eqn:E; [|exact Hskip].
  f_equal. destruct (nonEmpty m) eqn:Em; [|exact Hskip].
  destruct (@matchHead_shorter r s m rest E) as [_ Hlt]. specialize (Hlt Em).
  apply IH; lia.
Qed.

(** ** The replacements, as functions on lists *)

Lemma matchHead_class (p : N -> bool) (s : str) :
  matchHead (Class p) s
  = match s with
    | c :: s' => if p c then Some ([c], s') else None
    | [] => None
    end.
Proof.
  unfold matchHead. destruct s as [|c s']; cbn [rmatch]; [reflexivity|].
  destruct (p c); [|reflexivity].
  cbn [length]. replace (S (length s') - length s')%nat with 1%nat by lia.
  reflexivity.
Qed.

Lemma replaceAllFrom_class (p : N -> bool) (rep : str) (fuel : nat) (s : str) :
  (length s < fuel)%nat ->
  replaceAllFrom fuel (Class p) rep s
  = flat_map (fun c => if p c then rep else [c]) s.
Proof.
  revert s. induction fuel as [|fuel IH]; intros s Hlen; [lia|].
  cbn [replaceAllFrom]. rewrite matchHead_class.
  destruct s as [|c s']; [reflexivity|]. cbn [length] in Hlen. cbn [flat_map].
  destruct (p c); cbn [nonEmpty app]; rewrite IH by lia; reflexivity.
Qed.

(** Replacing every code unit of a class. *)
Lemma replaceAll_class (p : N -> bool) (rep s : str) :
  replaceAll (Class p) rep s = flat_map (fun c => if p c then rep else [c]) s.
Proof. apply replaceAllFrom_class. lia. Qed.

Lemma dropWhile_length (p : N -> bool) (s : str) :
  (length (dropWhile p s) <= length s)%nat.
Proof.
  induction s as [|c s IH]; cbn [dropWhile length]; [lia|].
  destruct (p c); cbn [length]; lia.
Qed.

(** A starred class, followed by nothing that can fail, takes the longest
    run. *)
Lemma starLoop_class (p : N -> bool) (n : nat) (s : str) :
  (length s <= n)%nat ->
  starLoop (rmatch (Class p)) Some n s = Some (dropWhile p s).
Proof.
  revert s. induction n as [|n IH]; intros s Hlen.
  - destruct s; [reflexivity | cbn [length] in Hlen; lia].
  - cbn [starLoop rmatch]. destruct s as [|c s']; [reflexivity|].
    cbn [dropWhile]. destruct (p c); [|reflexivity].
    cbn [length] in *.
    replace (length s' <? S (length s'))%nat with true
      by (symmetry; apply Nat.ltb_lt; lia).
    rewrite IH by lia. reflexivity.
Qed.

Lemma matchHead_plus_class (p : N -> bool) (s : str) :
  matchHead (Plus (Class p)) s
  = match s with
    | c :: s' =>
        if p c
        then Some (firstn (length s - length (dropWhile p s')) s, dropWhile p s')
        else None
    | [] => None
    end.
Proof.
  unfold matchHead, Plus. cbn [rmatch]. destruct s as [|c s']; [reflexivity|].
  destruct (p c); [|reflexivity].
  pose proof (@starLoop_class p (length s') s' (Nat.le_refl _)) as Hs.
  cbn [rmatch] in Hs. rewrite Hs. reflexivity.
Qed.

Lemma collapseRuns_inRun (p : N -> bool) (x : N) (s : str) :
  collapseRuns p x true s = collapseRuns p x false (dropWhile p s).
Proof.
  induction s as [|c s IH]; cbn [collapseRuns dropWhile]; [reflexivity|].
  destruct (p c) eqn:E; [exact IH|]. cbn [collapseRuns]. now rewrite E.
Qed.

Lemma replaceAllFrom_runs (p : N -> bool) (x : N) (fuel : nat) (s : str) :
  (length s < fuel)%nat ->
  replaceAllFrom fuel (Plus (Class p)) [x] s = collapseRuns p x false s.
Proof.
  revert s. induction fuel as [|fuel IH]; intros s Hlen; [lia|].
  cbn [replaceAllFrom]. rewrite matchHead_plus_class.
  destruct s as [|c s']; [reflexivity|]. cbn [length] in Hlen.
  cbn [collapseRuns]. destruct (p c).
  - pose proof (dropWhile_length p s') as Hd.
    cbn [length].
    replace (S (length s') - length (dropWhile p s'))%nat
      with (S (length s' - length (dropWhile p s')))%nat by lia.
    cbn [firstn nonEmpty app]. rewrite IH by lia.
    now rewrite collapseRuns_inRun.
  - rewrite IH by lia. reflexivity.
Qed.

(** Replacing every run of a class by one code unit. *)
Lemma replaceAll_runs (p : N -> bool) (x : N) (s : str) :
  replaceAll (Plus (Class p)) [x] s = collapseRuns p x false s.
Proof. apply replaceAllFrom_runs. lia. Qed.

(** The chain of replacements of the script does what the words say. *)
Lemma cleanDetails_described (line numStr : str) :
  cleanDetails line numStr = describedDetails line numStr.
Proof.
  unfold cleanDetails, describedDetails, substring0, spacesRe, nonWordSpaceRe.
  change (js " ") with [space].
  rewrite replaceAll_runs, replaceAll_class. do 3 f_equal.
  generalize (replaceFirst numStr [] line) as s.
  induction s as [|c s IH]; cbn [flat_map List.map]; [reflexivity|].
  rewrite IH. now destruct (isWord c || isSpace c).
Qed.

(** ** The scan of a CSV line *)

(** Replace a closed subterm by its value. *)
Ltac compute_closed t := let v := eval vm_compute in t in change t with v.

Lemma positive_number (n : number) :
  ngtb n (Fin 0) = true -> neqb n (Fin 0) = false /\ ntruthy n = true.
Proof.
  destruct n as [ | q | | ]; cbn [ngtb neqb ntruthy]; try discriminate; auto.
  rewrite Qltb_true. intro Hq.
  assert (Hne : Qeq_bool q 0 = false) by (apply Qeq_bool_false; lra).
  now rewrite Hne.
Qed.

Lemma positiveField_not_details (col : str) :
  positiveField col = true -> detailsField col = false.
Proof.
  unfold positiveField, detailsField. rewrite andb_true_iff. intros [_ Hpos].
  destruct (positive_number _ Hpos) as [_ ->].
  now rewrite andb_false_r.
Qed.

(** One turn of the loop, by cases on the field. *)
Lemma scanCol_cases (amount : number) (details col : str) :
  scanCol (amount, details) col
  = if positiveField col
    then ((if neqb amount (Fin 0) then colNumber col else amount), details)
    else (amount, if detailsField col then col else details).
Proof.
  unfold scanCol. fold (positiveField col). fold (detailsField col).
  destruct (positiveField col) eqn:Hp; cbn [andb].
  - rewrite (positiveField_not_details _ Hp).
    now destruct (neqb amount (Fin 0)).
  - now destruct (detailsField col).
Qed.

Lemma find_snoc {A : Type} (f : A -> bool) (l : list A) (x : A) :
  find f (l ++ [x])
  = match find f l with
    | Some y => Some y
    | None => if f x then Some x else None
    end.
Proof.
  induction l as [|y l IH]; cbn [app find]; [reflexivity|].
  now destruct (f y).
Qed.

Lemma scanCols_from (cols : list str) (amount : number) (details : str) :
  amount = Fin 0 \/ ngtb amount (Fin 0) = true ->
  fold_left scanCol cols (amount, details)
  = ((if neqb amount (Fin 0) then firstPositive cols else amount),
     match find detailsField (rev cols) with
     | Some col => col
     | None => details
     end).
Proof.
  revert amount details.
  induction cols as [|col cols IH]; intros amount details Hamount.
  - cbn [fold_left rev find]. unfold firstPositive. cbn [find].
    destruct Hamount as [->|Hpos]; [reflexivity|].
    now destruct (positive_number _ Hpos) as [-> _].
  - cbn [fold_left rev]. rewrite scanCol_cases, find_snoc.
    unfold firstPositive. cbn [find].
    destruct (positiveField col) eqn:Hp.
    + rewrite (positiveField_not_details _ Hp).
      assert (Hn : ngtb (colNumber col) (Fin 0) = true).
      { unfold positiveField in Hp. now apply andb_true_iff in Hp. }
      destruct (neqb amount (Fin 0)) eqn:Ha.
      * rewrite IH by now right.
        destruct (positive_number _ Hn) as [-> _].
        now destruct (find detailsField (rev cols)).
      * rewrite IH by assumption. rewrite Ha.
        now destruct (find detailsField (rev cols)).
    + rewrite IH by assumption. fold (firstPositive cols).
      destruct (find detailsField (rev cols)); [reflexivity|].
      now destruct (detailsField col).
Qed.

Lemma scanCols_first_last (cols : list str) :
  scanCols cols = (firstPositive cols, lastDetails cols).
Proof.
  unfold scanCols. rewrite scanCols_from by now left. reflexivity.
Qed.

Lemma csvRow_effect (h : Host) (name : str) (w : World) (line : str) :
  let cols := csvCols line in
  if (2 <=? length cols)%nat && ngtb (firstPositive cols) (Fin 0)
  then exists tx,
      transactions (csvRow h name w line) = transactions w ++ [tx] /\
      tx_type tx = js "VAT" /\
      tx_amount tx = calculateVAT (firstPositive cols) /\
      tx_details tx
      = orElse (Some (orElse (Some (lastDetails cols))
                        (js "CSV Import: " ++ name))) []
  else csvRow h name w line = w.
Proof.
  cbv zeta. unfold csvRow. rewrite scanCols_first_last.
  destruct (2 <=? length (csvCols line))%nat; cbn [andb]; [|reflexivity].
  destruct (ngtb (firstPositive (csvCols line)) (Fin 0)); [|reflexivity].
  eexists. split; [apply addTransaction_transactions|].
  repeat split.
Qed.

(** A line whose base amount is 5000.50 commits a VAT transaction of
    375.04. *)
Lemma csvRow_base_5000_50 (h : Host) (name : str) (w : World) (line : str) :
  (2 <= length (csvCols line))%nat ->
  firstPositive (csvCols line) =n= Fin 5000.50 ->
  exists tx,
    transactions (csvRow h name w line) = transactions w ++ [tx] /\
    tx_type tx = js "VAT" /\ tx_amount tx =n= Fin 375.04.
Proof.
  intros Hlen Hbase. pose proof (csvRow_effect h name w line) as Hrow.
  cbv zeta in Hrow.
  replace (2 <=? length (csvCols line))%nat with true in Hrow
    by (symmetry; apply Nat.leb_le; exact Hlen).
  destruct (firstPositive (csvCols line)) as [ | q | | ]; try contradiction.
  cbn [num_eq] in Hbase.
  assert (Hpos : ngtb (Fin q) (Fin 0) = true) by (apply ngtb_fin; lra).
  rewrite Hpos in Hrow. cbn [andb] in Hrow.
  destruct Hrow as (tx & Htx & Htype & Hamount & _).
  exists tx. split; [exact Htx|]. split; [exact Htype|].
  rewrite Hamount, calculateVAT_fin. cbn [num_eq].
  assert (Hfloor : Qfloor (q * 0.075 * 100 + (1 # 2))
                   = Qfloor (5000.50 * 0.075 * 100 + (1 # 2))).
  { apply Qfloor_comp. now rewrite Hbase. }
  rewrite Hfloor. vm_compute. reflexivity.
Qed.

(** The sample row of the specification begins with a date; [parseFloat]
    reads its year, so the base amount of that row is 2024 and the committed
    amount 151.80. *)
Remark csv_dated_sample_commit (h : Host) (name : str) (w : World) :
  firstPositive (csvCols sampleDatedCsvRow) =n= Fin 2024 /\
  exists tx,
    transactions (csvRow h name w sampleDatedCsvRow) = transactions w ++ [tx] /\
    tx_amount tx =n= Fin 151.80.
Proof.
  split; [vm_compute; reflexivity|].
  pose proof (csvRow_effect h name w sampleDatedCsvRow) as Hrow.
  cbv zeta in Hrow.
  match type of Hrow with
  | if ?c then _ else _ => compute_closed c
  end.
  cbv beta iota in Hrow. destruct Hrow as (tx & Htx & _ & Hamount & _).
  exists tx. split; [exact Htx|]. rewrite Hamount. vm_compute. reflexivity.
Qed.

(** On a field that is not numeric, or is a number other than zero
    written in full, the test of the details is: not numeric, and more than
    two code units. *)
Lemma detailsField_plain (col : str) :
  nonNumeric col || fullNumber col = true ->
  detailsField col = nonNumeric col && (2 <? length col)%nat.
Proof.
  unfold nonNumeric, fullNumber, detailsField.
  destruct (colNumber col) as [ | q | | ]; cbn [isNaN ntruthy negb orb andb].
  - intros _. destruct col as [|c [|c' [|c'' col]]]; reflexivity.
  - intro Hfull. apply andb_true_iff in Hfull. destruct Hfull as [Hfull _].
    apply andb_true_iff in Hfull. destruct Hfull as [-> _].
    cbn [negb]. now rewrite andb_false_r.
  - intros _. now rewrite andb_false_r.
  - intros _. now rewrite andb_false_r.
Qed.

Lemma find_agree {A : Type} (f g : A -> bool) (l : list A) :
  (forall x, In x l -> f x = g x) -> find f l = find g l.
Proof.
  induction l as [|x l IH]; intro Hfg; cbn [find]; [reflexivity|].
  rewrite (Hfg x) by now left.
  destruct (g x); [reflexivity|]. apply IH. intros y Hy. apply Hfg. now right.
Qed.

Lemma lastDetails_plain (cols : list str) :
  plainRow cols = true -> lastDetails cols = lastNonNumeric cols.
Proof.
  unfold plainRow, lastDetails, lastNonNumeric. intro Hplain.
  rewrite forallb_forall in Hplain.
  rewrite (@find_agree _ detailsField
             (fun col => nonNumeric col && (2 <? length col)%nat) (rev cols));
    [reflexivity|].
  intros col Hin. apply detailsField_plain, Hplain. now apply in_rev.
Qed.

(** ** The confirm loop *)

Section ConfirmFacts.
Variable h : Host.

(** One turn of the confirm loop: a line that is selected and has a positive
    amount adds one transaction, any other line changes nothing. *)
Lemma confirmLine_cases (w : World) (line : Candidate) :
  if commits w line
  then exists t, confirmLine h w line = snd (addTransaction h t w)
  else confirmLine h w line = w.
Proof.
  unfold commits, selected, amountPositive, confirmLine.
  destruct (getRow w (line_id line)) as [r|]; [|reflexivity].
  destruct (row_checked r); cbn [andb]; [|reflexivity].
  destruct (ngtb (parseFloat (row_amount r)) (Fin 0)); [|reflexivity].
  eexists. reflexivity.
Qed.

Lemma confirmLine_ocrPreview (w : World) (line : Candidate) :
  ocrPreview (confirmLine h w line) = ocrPreview w.
Proof.
  pose proof (confirmLine_cases w line) as Hc.
  destruct (commits w line); [destruct Hc as [t ->] | now rewrite Hc].
  apply addTransaction_ocrPreview.
Qed.

Lemma commits_preview (w w0 : World) (line : Candidate) :
  ocrPreview w = ocrPreview w0 ->
  selected w line = selected w0 line /\ commits w line = commits w0 line.
Proof.
  intro Hp. unfold commits, selected, amountPositive, getRow. now rewrite Hp.
Qed.

Lemma confirm_loop (w0 : World) (lines : list Candidate) (w : World) :
  ocrPreview w = ocrPreview w0 ->
  exists new,
    transactions (fold_left (confirmLine h) lines w) = transactions w ++ new /\
    length new = length (filter (commits w0) lines).
Proof.
  revert w. induction lines as [|line lines IH]; intros w Hp; cbn [fold_left filter].
  - exists []. now rewrite app_nil_r.
  - destruct (IH (confirmLine h w line)) as (new & Hnew & Hlen).
    { now rewrite confirmLine_ocrPreview. }
    rewrite Hnew. pose proof (confirmLine_cases w line) as Hc.
    rewrite (proj2 (@commits_preview w w0 line Hp)) in Hc.
    destruct (commits w0 line).
    + destruct Hc as [t ->]. rewrite addTransaction_transactions.
      eexists. rewrite <- app_assoc. split; [reflexivity|].
      cbn [app length]. now rewrite Hlen.
    + rewrite Hc. now exists new.
Qed.

Lemma confirm_loop_selected (w0 : World) (lines : list Candidate) (w : World) :
  ocrPreview w = ocrPreview w0 ->
  fold_left (confirmLine h) (filter (selected w0) lines) w
  = fold_left (confirmLine h) lines w.
Proof.
  revert w. induction lines as [|line lines IH]; intros w Hp; cbn [fold_left filter].
  - reflexivity.
  - destruct (selected w0 line) eqn:Hs; cbn [fold_left].
    + apply IH. now rewrite confirmLine_ocrPreview.
    + pose proof (confirmLine_cases w line) as Hc.
      unfold commits in Hc. rewrite (proj1 (@commits_preview w w0 line Hp)), Hs in Hc.
      cbn [andb] in Hc. rewrite Hc. now apply IH.
Qed.

(** The loop reads the ledger, the preview and the host counter only. *)
Lemma confirm_loop_frame (lines : list Candidate) (a c : World) :
  transactions a = transactions c -> ocrPreview a = ocrPreview c ->
  ticks a = ticks c ->
  transactions (fold_left (confirmLine h) lines a)
  = transactions (fold_left (confirmLine h) lines c).
Proof.
  revert a c. induction lines as [|x lines IH]; intros a c Ht Hp Hk;
    cbn [fold_left]; [exact Ht|].
  apply IH.
  - unfold confirmLine, getRow. rewrite Hp.
    destruct (find _ _) as [r|]; [|exact Ht].
    destruct (row_checked r); [|exact Ht].
    destruct (ngtb _ _); [|exact Ht].
    rewrite !addTransaction_transactions. unfold addTransaction.
    cbn [fst]. now rewrite Ht, Hk.
  - now rewrite !confirmLine_ocrPreview.
  - unfold confirmLine, getRow. rewrite Hp.
    destruct (find _ _) as [r|]; [|exact Hk].
    destruct (row_checked r); [|exact Hk].
    destruct (ngtb _ _); [|exact Hk].
    unfold addTransaction. cbn [snd].
    rewrite !saveTransactions_ticks. cbn [ticks tick setTransactions].
    now rewrite Hk.
Qed.

Lemma confirmOCR_transactions (w : World) :
  transactions (confirmOCR h w)
  = transactions (fold_left (confirmLine h) (ocrLines w) w).
Proof. reflexivity. Qed.

Lemma confirmOCR_adds (w : World) :
  exists new,
    transactions (confirmOCR h w) = transactions w ++ new /\
    length new = length (filter (commits w) (ocrLines w)).
Proof. rewrite confirmOCR_transactions. now apply confirm_loop. Qed.
End ConfirmFacts.

Lemma filter_all_positive (w : World) (lines : list Candidate) :
  (forall line, In line lines -> selected w line = true ->
                amountPositive w line = true) ->
  filter (commits w) lines = filter (selected w) lines.
Proof.
  intro Hall. apply filter_ext_in. intros line Hin. unfold commits.
  destruct (selected w line) eqn:Hs; [|reflexivity].
  now rewrite (Hall line Hin Hs).
Qed.

(** ** The candidates of an image *)

Lemma inRange_plausible (a : number) : inRange a = true -> plausible a.
Proof.
  unfold inRange. rewrite andb_true_iff. intros [Hlo Hhi].
  destruct a as [ | q | | ]; try discriminate.
  exists q. split; [reflexivity|].
  split; [now apply ngeb_fin | now apply nleb_fin].
Qed.

Section ExtractionFacts.
Variable h : Host.

Lemma ocrMatch_lines (b : build) (i : nat) (line : str) (w : World) (numStr : str) :
  exists new,
    ocrLines (ocrMatch b h i line w numStr) = ocrLines w ++ new /\
    Forall2 (extractedFrom b) new
      (List.map (pair line)
         (filter (fun n => inRange (rawAmountOf n)) [numStr])).
Proof.
  unfold ocrMatch. cbn [filter].
  destruct (inRange (rawAmountOf numStr)).
  - eexists. cbn [ocrLines tick setOcrPreview setOcrLines List.map].
    split; [reflexivity|]. constructor; [|constructor]. now repeat split.
  - exists []. cbn [List.map]. rewrite app_nil_r. split; [reflexivity|constructor].
Qed.

Lemma ocrLine_lines (b : build) (w : World) (i : nat) (line : str) :
  exists new,
    ocrLines (ocrLine b h w i line) = ocrLines w ++ new /\
    Forall2 (extractedFrom b) new
      (List.map (pair line)
         (filter (fun n => inRange (rawAmountOf n)) (matchAll amountRe line))).
Proof.
  unfold ocrLine. generalize (matchAll amountRe line) as matches.
  intro matches. revert w.
  induction matches as [|numStr matches IH]; intro w; cbn [fold_left].
  - exists []. rewrite app_nil_r. split; [reflexivity|constructor].
  - destruct (ocrMatch_lines b i line w numStr) as (n1 & H1 & F1).
    destruct (IH (ocrMatch b h i line w numStr)) as (n2 & H2 & F2).
    exists (n1 ++ n2). rewrite H2, H1, <- app_assoc. split; [reflexivity|].
    change (numStr :: matches) with ([numStr] ++ matches).
    rewrite filter_app, map_app. now apply Forall2_app.
Qed.

Lemma forEach_lines (b : build) (lines : list str) (i : nat) (w : World) :
  exists new,
    ocrLines (forEachIndexed (ocrLine b h) i lines w) = ocrLines w ++ new /\
    Forall2 (extractedFrom b) new
      (flat_map
         (fun line =>
            List.map (pair line)
              (filter (fun n => inRange (rawAmountOf n)) (matchAll amountRe line)))
         lines).
Proof.
  revert i w. induction lines as [|line lines IH]; intros i w;
    cbn [forEachIndexed flat_map].
  - exists []. rewrite app_nil_r. split; [reflexivity|constructor].
  - destruct (ocrLine_lines b w i line) as (n1 & H1 & F1).
    destruct (IH (S i) (ocrLine b h w i line)) as (n2 & H2 & F2).
    exists (n1 ++ n2). rewrite H2, H1, <- app_assoc. split; [reflexivity|].
    now apply Forall2_app.
Qed.

(** The candidates that [processReceiptWithOCR] adds for a recognized text
    are those of the surviving matches, one for one and in order. *)
Lemma processReceipt_lines (b : build) (text : str) (w : World) :
  exists new,
    ocrLines (processReceiptWithOCR b h (Some text) w) = keptLines b w ++ new /\
    Forall2 (extractedFrom b) new (survivors text).
Proof.
  unfold processReceiptWithOCR, survivors, keptLines.
  destruct b.
  - destruct (forEach_lines dashboard_js (split newline text) 0 (setOcrLines [] w))
      as (new & Hnew & Hall).
    exists new. split; [exact Hnew | exact Hall].
  - destruct (forEach_lines part_000 (split newline text) 0 w) as (new & Hnew & Hall).
    exists new. split; [|exact Hall].
    now destruct (_ =? _)%nat.
Qed.

Lemma survivors_inRange (text : str) (p : str * str) :
  In p (survivors text) -> inRange (rawAmountOf (snd p)) = true.
Proof.
  unfold survivors. rewrite in_flat_map. intros (line & _ & Hin).
  apply in_map_iff in Hin. destruct Hin as (numStr & <- & Hin).
  apply filter_In in Hin. exact (proj2 Hin).
Qed.

Lemma extracted_plausible (b : build) (new : list Candidate) (ps : list (str * str)) :
  Forall2 (extractedFrom b) new ps ->
  (forall p, In p ps -> inRange (rawAmountOf (snd p)) = true) ->
  Forall (fun c => plausible (line_amount c)) new.
Proof.
  induction 1 as [|c p new ps Hc _ IH]; intro Hin; constructor.
  - destruct Hc as [-> _]. apply inRange_plausible, Hin. now left.
  - apply IH. intros q Hq. apply Hin. now right.
Qed.

Lemma processReceipt_plausible (b : build) (text : str) (w : World) :
  exists new,
    ocrLines (processReceiptWithOCR b h (Some text) w) = keptLines b w ++ new /\
    Forall (fun c => plausible (line_amount c)) new.
Proof.
  destruct (processReceipt_lines b text w) as (new & Hnew & Hall).
  exists new. split; [exact Hnew|].
  apply (extracted_plausible Hall). apply survivors_inRange.
Qed.

Lemma processReceipt_invariant (b : build) (recognized : option str) (w : World) :
  Forall (fun c => plausible (line_amount c)) (ocrLines w) ->
  Forall (fun c => plausible (line_amount c))
    (ocrLines (processReceiptWithOCR b h recognized w)).
Proof.
  intro Hw. destruct recognized as [text|]; [|exact Hw].
  destruct (processReceipt_plausible b text w) as (new & -> & Hnew).
  apply Forall_app. split; [|exact Hnew].
  unfold keptLines. destruct b; [constructor | exact Hw].
Qed.

Lemma csvRow_ocrLines (name : str) (w : World) (line : str) :
  ocrLines (csvRow h name w line) = ocrLines w.
Proof.
  unfold csvRow. destruct (2 <=? _)%nat; [|reflexivity].
  destruct (scanCols _) as [amount details].
  destruct (ngtb amount (Fin 0)); [|reflexivity].
  apply addTransaction_ocrLines.
Qed.

Lemma processCSV_ocrLines (name text : str) (w : World) :
  ocrLines (processCSV h name text w) = ocrLines w.
Proof.
  unfold processCSV. destruct (filter _ _) as [|first lines]; [reflexivity|].
  generalize (skipn (if includes (js "date") (toLowerCase first)
                        || includes (js "amount") (toLowerCase first)
                     then 1%nat else 0%nat) (first :: lines)) as rows.
  intro rows. revert w. induction rows as [|row rows IH]; intro w;
    cbn [fold_left]; [reflexivity|].
  now rewrite IH, csvRow_ocrLines.
Qed.

Lemma onFilesChange_plausible (b : build) (files : list File) (w : World) :
  Forall (fun c => plausible (line_amount c))
    (ocrLines (onFilesChange b h files w)).
Proof.
  unfold onFilesChange.
  assert (Hstart : Forall (fun c => plausible (line_amount c))
                     (ocrLines (setOcrLines [] (setOcrPreview [] w))))
    by constructor.
  revert Hstart. generalize (setOcrLines [] (setOcrPreview [] w)) as w0.
  induction files as [|file files IH]; intros w0 Hw0; cbn [fold_left];
    [exact Hw0|].
  apply IH. destruct (endsWith _ _).
  - now rewrite processCSV_ocrLines.
  - destruct (startsWith _ _); [|exact Hw0].
    now apply processReceipt_invariant.
Qed.
End ExtractionFacts.

Lemma receiptDetails_cases (b : build) (line numStr : str) :
  (describedDetails line numStr = [] ->
   receiptDetails b line numStr = placeholder) /\
  ((3 <= length (describedDetails line numStr))%nat ->
   receiptDetails b line numStr = describedDetails line numStr).
Proof.
  unfold receiptDetails. rewrite cleanDetails_described.
  destruct (describedDetails line numStr) as [|c d]; split.
  - now destruct b.
  - cbn [length]. lia.
  - discriminate.
  - intro Hlen. destruct b; cbn [nonEmpty negb orb]; [reflexivity|].
    now replace (length (c :: d) <? 3)%nat with false
      by (symmetry; apply Nat.ltb_ge; exact Hlen).
Qed.

(** The two copies of the script part on a result of one or two code units:
    dashboard.js keeps it, the copy in part_000 puts the placeholder. *)
Remark receipt_details_short :
  receiptDetails dashboard_js (js "ab 500") (js "500") = js "ab" /\
  receiptDetails part_000 (js "ab 500") (js "500") = placeholder.
Proof. split; vm_compute; reflexivity. Qed.

(** Two scenarios of the specification, run on the model: a receipt of two
    lines gives a VAT candidate of 1500 and a Consumption candidate of
    12000; a CSV row without a positive amount commits nothing. *)
Example extraction_scenario :
  List.map (fun c => (line_type c, line_amount c))
    (ocrLines (processReceiptWithOCR dashboard_js sampleHost
                 (Some (js "Total VAT: 1,500.00" ++ [newline] ++ js "Subtotal 12,000"))
                 emptyWorld))
  = [(js "VAT", rawAmountOf (js "1,500.00"));
     (js "Consumption", rawAmountOf (js "12,000"))] /\
  rawAmountOf (js "1,500.00") =n= Fin 1500 /\
  rawAmountOf (js "12,000") =n= Fin 12000.
Proof. repeat split; vm_compute; reflexivity. Qed.

Example csv_row_without_amount :
  transactions
    (processCSV sampleHost (js "offices.csv")
       ([quote] ++ js "Lagos Office" ++ [quote] ++ js ",0," ++ [quote; quote])
       emptyWorld)
  = [].
Proof. vm_compute. reflexivity. Qed.

(** ** The receipts of the first script of part_000 *)

Lemma legacy_ocrMatch_positive (line numStr : str) (lines : list Legacy.Line) :
  Forall (fun l => ngtb (Legacy.ocr_amount l) (Fin 0) = true) lines ->
  Forall (fun l => ngtb (Legacy.ocr_amount l) (Fin 0) = true)
    (Legacy.ocrMatch line lines numStr).
Proof.
  intro Hall. unfold Legacy.ocrMatch.
  destruct (ngtb (toNumber (replaceAll (Unit comma) [] numStr)) (Fin 0)) eqn:E;
    [|exact Hall].
  apply Forall_app. split; [exact Hall|]. constructor; [exact E|constructor].
Qed.

Lemma fold_left_Forall {A B : Type} (P : A -> Prop) (f : list A -> B -> list A)
  (xs : list B) (acc : list A) :
  (forall acc x, Forall P acc -> Forall P (f acc x)) ->
  Forall P acc -> Forall P (fold_left f xs acc).
Proof.
  intro Hf. revert acc. induction xs as [|x xs IH]; intros acc Hacc;
    cbn [fold_left]; [exact Hacc|].
  apply IH, Hf, Hacc.
Qed.

Lemma legacy_lines_positive (text : str) :
  Forall (fun l => ngtb (Legacy.ocr_amount l) (Fin 0) = true)
    (Legacy.processReceiptEditable text).
Proof.
  unfold Legacy.processReceiptEditable.
  apply fold_left_Forall; [|constructor].
  intros acc line Hacc. apply fold_left_Forall; [|exact Hacc].
  intros acc' numStr. apply legacy_ocrMatch_positive.
Qed.

Lemma legacy_addTransaction_transactions (date type : str) (amount : number)
  (details : str) (d : Legacy.TaxData) :
  Legacy.transactions (Legacy.addTransaction date type amount details d)
  = Legacy.transactions d
    ++ [{| Legacy.date := date; Legacy.type := type; Legacy.amount := amount;
           Legacy.details := details |}].
Proof. reflexivity. Qed.

(** One turn of the confirm loop of the first script: a line whose row is
    found and ticked appends one transaction, any other line none. *)
Lemma legacy_confirmLine_adds (h : Host) (dateStr : str) (rows : list Row)
  (d : Legacy.TaxData) (idx : nat) (line : Legacy.Line) :
  exists new,
    Legacy.transactions (Legacy.confirmLine h dateStr rows d idx line)
    = Legacy.transactions d ++ new /\
    length new = (if foundAndTicked h rows (idx, line) then 1%nat else 0%nat).
Proof.
  unfold Legacy.confirmLine, foundAndTicked. cbn [fst snd].
  destruct (find _ rows) as [r|]; [|exists []; now rewrite app_nil_r].
  destruct (row_checked r); [|exists []; now rewrite app_nil_r].
  destruct (str_eqb (row_type r) (js "VAT"));
    rewrite legacy_addTransaction_transactions; eexists; split; reflexivity.
Qed.

Lemma legacy_confirm_loop (h : Host) (dateStr : str) (rows : list Row)
  (lines : list Legacy.Line) (i : nat) (d : Legacy.TaxData) :
  exists new,
    Legacy.transactions
      (forEachIndexed (Legacy.confirmLine h dateStr rows) i lines d)
    = Legacy.transactions d ++ new /\
    length new
    = length (filter (foundAndTicked h rows) (combine (seq i (length lines)) lines)).
Proof.
  revert i d. induction lines as [|line lines IH]; intros i d.
  - exists []. cbn. now rewrite app_nil_r.
  - cbn [forEachIndexed length seq combine filter].
    destruct (legacy_confirmLine_adds h dateStr rows d i line) as (n1 & H1 & L1).
    destruct (IH (S i) (Legacy.confirmLine h dateStr rows d i line))
      as (n2 & H2 & L2).
    exists (n1 ++ n2). rewrite H2, H1, <- app_assoc. split; [reflexivity|].
    rewrite length_app, L1, L2.
    destruct (foundAndTicked h rows (i, line)); reflexivity.
Qed.

Lemma legacy_confirmOCR_adds (h : Host) (now : str) (p : Legacy.Page) :
  exists new,
    Legacy.transactions (Legacy.taxData (Legacy.confirmOCR h now p))
    = Legacy.transactions (Legacy.taxData p) ++ new /\
    length new
    = length (filter (foundAndTicked h (Legacy.ocrPreview p)) (heldLines p)).
Proof.
  unfold Legacy.confirmOCR, heldLines. cbn [Legacy.taxData].
  apply legacy_confirm_loop.
Qed.

(* ================================================================== *)
(** * The statements of the specification *)
(* ================================================================== *)

(** C1.  For a gross income of 1,000,000 and no reliefs, [calculatePAYE]
    returns total reliefs 400,000, taxable income 600,000 and annual tax
    54,000, which is the value of the band schedule at the 600,000 boundary.
    The same holds, bit for bit, when the function is run in binary64. *)
Theorem paye_scenario_one_million :
  let r := calculatePAYE (Fin 1000000) noReliefs in
  (totalReliefs r =n= Fin 400000 /\
   taxableIncome r =n= Fin 600000 /\
   annualTax r =n= Fin 54000 /\
   bandTax (Fin 600000) =n= Fin 54000) /\
  let r64 := calculatePAYE (Binary64.ofQ 1000000) noReliefs in
  totalReliefs r64 = Binary64.ofQ 400000 /\
  taxableIncome r64 = Binary64.ofQ 600000 /\
  annualTax r64 = Binary64.ofQ 54000.
Proof.
  split.
  - repeat split; vm_compute; reflexivity.
  - repeat split; vm_compute; reflexivity.
Qed.




(** C3, as the specification states it, fails for one of the two
    extractions it is about: [processReceiptEditable], of the first script
    of part_000, makes a Candidate Line of amount 50 from the text
    [Bread 50]. *)
Lemma legacy_candidate_below_100 :
  let lines := Legacy.processReceiptEditable (js "Bread 50") in
  (exists l, lines = [l] /\ Legacy.ocr_amount l = Fin 50) /\
  ~ Forall (fun l => plausible (Legacy.ocr_amount l)) lines.
Proof.
  cbv zeta.
  assert (Hlines : exists l, Legacy.processReceiptEditable (js "Bread 50") = [l]
                             /\ Legacy.ocr_amount l = Fin 50).
  { eexists. split; vm_compute; reflexivity. }
  split; [exact Hlines|].
  destruct Hlines as (l & -> & Hamount). intro Hall.
  apply Forall_inv in Hall. rewrite Hamount in Hall.
  destruct Hall as (q & Hq & Hlow & _). injection Hq as <-.
  apply Hlow. reflexivity.
Qed.

(** C3, amended.  Whatever the recognized text, every Candidate Line that
    [processReceiptWithOCR] adds, in dashboard.js and in its copy in
    part_000, has a finite amount between 100 and 10,000,000; and after the
    file handler of those scripts has run, whatever the files, every
    Candidate Line it holds has such an amount.  [processReceiptEditable],
    of the first script of part_000, has another test: every Candidate Line
    it makes has an amount greater than 0. *)
Theorem extraction_amounts_in_range :
  (forall (b : build) (h : Host) (text : str) (w : World),
     exists new,
       ocrLines (processReceiptWithOCR b h (Some text) w) = keptLines b w ++ new /\
       Forall (fun c => plausible (line_amount c)) new) /\
  (forall (b : build) (h : Host) (files : list File) (w : World),
     Forall (fun c => plausible (line_amount c))
       (ocrLines (onFilesChange b h files w))) /\
  (forall text : str,
     Forall (fun l => ngtb (Legacy.ocr_amount l) (Fin 0) = true)
       (Legacy.processReceiptEditable text)).
Proof.
  split; [|split].
  - intros b h. apply processReceipt_plausible.
  - intros b h. apply onFilesChange_plausible.
  - exact legacy_lines_positive.
Qed.

(** C4, as the specification states it, fails: a selected line whose amount
    was retyped as 0 is not committed, so one selected line can give no
    transaction. *)
Lemma confirm_selected_line_without_transaction :
  let w := retypeAmounts (js "0") sampleReceipt in
  length (filter (selected w) (ocrLines w)) = 1%nat /\
  transactions (confirmOCR sampleHost w) = transactions w /\
  length (transactions (confirmOCR sampleHost w))
  <> (length (transactions w) + length (filter (selected w) (ocrLines w)))%nat.
Proof.
  cbv zeta. split; [vm_compute; reflexivity|]. split; [vm_compute; reflexivity|].
  vm_compute. intro Hc. discriminate Hc.
Qed.

(** C4, amended.  The confirm handler goes through the Candidate Lines it
    holds in [ocrLines]; a held line is selected when its row is found and
    its box is ticked.  In dashboard.js and its copy in part_000, a held
    line that is not selected contributes no transaction: the ledger after
    the confirmation is the one obtained from the selected held lines
    alone.  The transactions appended are as many as the held lines that
    are selected and whose amount, as edited, parses as a number greater
    than 0; so N selected held lines append exactly N transactions when
    each of their amounts parses as such a number, whatever the other
    edited values.  The handler of the first script of part_000 has no test
    of the amount: the transactions it appends are as many as the held
    lines whose row is found, under the id made of the index of the line in
    [ocrLines] and of its amount, and ticked, whatever the edited
    values. *)
Theorem confirm_commits_selected_positive (h : Host) (w : World) :
  transactions (confirmOCR h w)
  = transactions (confirmOCR h (setOcrLines (filter (selected w) (ocrLines w)) w)) /\
  (exists new,
     transactions (confirmOCR h w) = transactions w ++ new /\
     length new = length (filter (commits w) (ocrLines w))) /\
  ((forall line, In line (ocrLines w) -> selected w line = true ->
                 amountPositive w line = true) ->
   exists new,
     transactions (confirmOCR h w) = transactions w ++ new /\
     length new = length (filter (selected w) (ocrLines w))) /\
  (forall (now : str) (p : Legacy.Page),
     exists new,
       Legacy.transactions (Legacy.taxData (Legacy.confirmOCR h now p))
       = Legacy.transactions (Legacy.taxData p) ++ new /\
       length new
       = length (filter (foundAndTicked h (Legacy.ocrPreview p)) (heldLines p))).
Proof.
  split; [|split; [|split]].
  - rewrite !confirmOCR_transactions. cbn [ocrLines setOcrLines].
    rewrite <- (@confirm_loop_selected h w (ocrLines w) w eq_refl).
    now apply confirm_loop_frame.
  - apply confirmOCR_adds.
  - intro Hall. destruct (confirmOCR_adds h w) as (new & Hnew & Hlen).
    exists new. split; [exact Hnew|].
    now rewrite Hlen, (filter_all_positive w (ocrLines w) Hall).
  - intros now p. apply legacy_confirmOCR_adds.
Qed.

Lemma confirm_commits_selected_positive_witness :
  ((forall line, In line (ocrLines sampleReceipt) ->
                 selected sampleReceipt line = true ->
                 amountPositive sampleReceipt line = true) /\
   exists new,
     transactions (confirmOCR sampleHost sampleReceipt)
     = transactions sampleReceipt ++ new /\
     length new = length (filter (selected sampleReceipt) (ocrLines sampleReceipt))) /\
  (length (filter (foundAndTicked sampleHost (Legacy.ocrPreview legacySample))
             (heldLines legacySample)) = 1%nat /\
   exists new,
     Legacy.transactions
       (Legacy.taxData
          (Legacy.confirmOCR sampleHost (js "2024-05-01T10:00:00.000Z") legacySample))
     = Legacy.transactions (Legacy.taxData legacySample) ++ new /\
     length new
     = length (filter (foundAndTicked sampleHost (Legacy.ocrPreview legacySample))
                 (heldLines legacySample))).
Proof.
  assert (Hall : forall line, In line (ocrLines sampleReceipt) ->
                   selected sampleReceipt line = true ->
                   amountPositive sampleReceipt line = true).
  { intros line Hin _. vm_compute in Hin. destruct Hin as [<-|[]].
    vm_compute. reflexivity. }
  split.
  - split; [exact Hall|].
    exact (proj1 (proj2 (proj2
             (confirm_commits_selected_positive sampleHost sampleReceipt))) Hall).
  - split; [vm_compute; reflexivity|].
    exact (proj2 (proj2 (proj2
             (confirm_commits_selected_positive sampleHost sampleReceipt)))
             (js "2024-05-01T10:00:00.000Z") legacySample).
Defined.

(** C5, as the specification states it, fails on the details: the loop
    overwrites them at every field that qualifies, so in the row
    [500,abc,defg] they are [defg], the last field that is not numeric, and
    not [abc], the first. *)
Lemma csv_details_not_first_nonnumeric :
  let cols := csvCols (js "500,abc,defg") in
  snd (scanCols cols) = js "defg" /\
  firstNonNumeric cols = js "abc" /\
  snd (scanCols cols) <> firstNonNumeric cols.
Proof.
  cbv zeta. split; [vm_compute; reflexivity|]. split; [vm_compute; reflexivity|].
  vm_compute. intro Hc. discriminate Hc.
Qed.

(** C5, amended.  Take a CSV data row each of whose fields either is not
    numeric (its text does not begin with a number) or is a number other
    than zero written in full (the whole of its text without naira signs
    and commas, of a magnitude that binary64 holds).  The candidate amount
    is the number of the first field, from the left, that is a positive
    number, and the details are the last field that is not numeric and has
    more than two code units. *)
Theorem csv_row_amount_and_details (line : str) :
  plainRow (csvCols line) = true ->
  scanCols (csvCols line)
  = (firstPositive (csvCols line), lastNonNumeric (csvCols line)).
Proof.
  intro Hplain. rewrite scanCols_first_last.
  now rewrite (lastDetails_plain _ Hplain).
Qed.

Lemma csv_row_amount_and_details_witness :
  let line := js "500,abc,defg" in
  plainRow (csvCols line) = true /\
  scanCols (csvCols line)
  = (firstPositive (csvCols line), lastNonNumeric (csvCols line)) /\
  firstPositive (csvCols line) =n= Fin 500 /\
  lastNonNumeric (csvCols line) = js "defg".
Proof.
  cbv zeta.
  assert (Hplain : plainRow (csvCols (js "500,abc,defg")) = true)
    by (vm_compute; reflexivity).
  split; [exact Hplain|].
  split; [exact (@csv_row_amount_and_details (js "500,abc,defg") Hplain)|].
  split; vm_compute; reflexivity.
Defined.




(** C7, as the specification states it, fails: for a gross income of 250,100
    the tax is 5.6, [annualTax] is 6 and [monthlyTax] is 0, while 6 / 12
    rounded is 1.  The same values come out in binary64. *)
Lemma paye_monthly_not_from_rounded_annual :
  (let res := calculatePAYE (Fin 250100) noReliefs in
   annualTax res =n= Fin 6 /\ monthlyTax res =n= Fin 0 /\
   ~ monthlyTax res =n= nround (ndiv (annualTax res) (Fin 12))) /\
  (let res := calculatePAYE (Binary64.ofQ 250100) noReliefs in
   monthlyTax res <> Math_round (div (annualTax res) (lit 12))).
Proof.
  split.
  - split; [vm_compute; reflexivity|]. split; [vm_compute; reflexivity|].
    vm_compute. intro Hc. discriminate Hc.
  - vm_compute. intro Hc. discriminate Hc.
Qed.

(** C7, amended.  [monthlyTax] is a twelfth of the unrounded tax of the band
    schedule, rounded; [annualTax] is that same unrounded tax, rounded.  When
    the tax is finite both are integers, and [monthlyTax] is at most one away
    from a twelfth of [annualTax], rounded. *)
Theorem paye_monthly_tax_of_unrounded_tax (gross : number) (r : Reliefs number) :
  let res := calculatePAYE gross r in
  let tax := bandTax (taxableIncome res) in
  annualTax res = nround tax /\
  monthlyTax res = nround (ndiv tax (Fin 12)) /\
  forall t : Q, tax = Fin t ->
    exists a m : Z,
      annualTax res = Fin (inject_Z a) /\
      monthlyTax res = Fin (inject_Z m) /\
      nround (ndiv (annualTax res) (Fin 12))
      = Fin (inject_Z (Qfloor (inject_Z a / 12 + (1 # 2)))) /\
      (Z.abs (m - Qfloor (inject_Z a / 12 + (1 # 2))) <= 1)%Z.
Proof.
  cbv zeta. split; [reflexivity|]. split; [reflexivity|].
  intros t Ht. unfold calculatePAYE in *. cbn [annualTax monthlyTax taxableIncome] in *.
  js_arith. js_arith_in Ht. rewrite Ht.
  assert (H12 : ~ 12 == 0) by (intro Hc; discriminate Hc).
  rewrite (ndiv_fin _ H12). cbn [nround]. rewrite (ndiv_fin _ H12).
  do 2 eexists. split; [reflexivity|]. split; [reflexivity|].
  split; [reflexivity|]. apply round_div12_close.
Qed.

Lemma paye_monthly_tax_of_unrounded_tax_witness :
  let res := calculatePAYE (Fin 250100) noReliefs in
  exists t : Q,
    bandTax (taxableIncome res) = Fin t /\
    exists a m : Z,
      annualTax res = Fin (inject_Z a) /\
      monthlyTax res = Fin (inject_Z m) /\
      nround (ndiv (annualTax res) (Fin 12))
      = Fin (inject_Z (Qfloor (inject_Z a / 12 + (1 # 2)))) /\
      (Z.abs (m - Qfloor (inject_Z a / 12 + (1 # 2))) <= 1)%Z.
Proof.
  cbv zeta.
  assert (H : exists t, bandTax (taxableIncome (calculatePAYE (Fin 250100) noReliefs))
                        = Fin t).
  { eexists. vm_compute. reflexivity. }
  destruct H as [t Ht]. exists t. split; [exact Ht|].
  exact (proj2 (proj2 (paye_monthly_tax_of_unrounded_tax (Fin 250100) noReliefs))
           t Ht).
Defined.

(** C8, as the specification states it, fails: in the line [Item-No_7 500]
    the hyphen becomes a space and the underscore stays, so both copies of
    the script give [Item No_7] where the wording gives [ItemNo7]. *)
Lemma receipt_details_not_stripped :
  let text := js "Item-No_7 500" in
  survivors text = [(text, js "500")] /\
  List.map line_details
    (ocrLines (processReceiptWithOCR dashboard_js sampleHost (Some text) emptyWorld))
  = [js "Item No_7"] /\
  List.map line_details
    (ocrLines (processReceiptWithOCR part_000 sampleHost (Some text) emptyWorld))
  = [js "Item No_7"] /\
  claimedDetails text (js "500") = js "ItemNo7" /\
  js "Item No_7" <> claimedDetails text (js "500").
Proof.
  cbv zeta. repeat split; try (vm_compute; reflexivity).
  vm_compute. intro Hc. discriminate Hc.
Qed.

(** C8, amended.  For every line of the recognized text and every match that
    passes the range filter there is one Candidate Line, in order, with the
    amount of the match.  Take the line without the first occurrence of the
    matched text, replace every code unit that is not a letter, a digit, an
    underscore or white space by a space, collapse the runs of white space,
    trim, and cut to 50 code units: when the result is empty the details are
    the placeholder, and when it has 3 code units or more the details are
    that result. *)
Theorem candidate_details_cleaned (b : build) (h : Host) (text : str) (w : World) :
  exists new,
    ocrLines (processReceiptWithOCR b h (Some text) w) = keptLines b w ++ new /\
    Forall2
      (fun c p =>
         line_amount c = rawAmountOf (snd p) /\
         (describedDetails (fst p) (snd p) = [] ->
          line_details c = placeholder) /\
         ((3 <= length (describedDetails (fst p) (snd p)))%nat ->
          line_details c = describedDetails (fst p) (snd p)))
      new (survivors text).
Proof.
  destruct (processReceipt_lines h b text w) as (new & Hnew & Hall).
  exists new. split; [exact Hnew|]. clear Hnew.
  induction Hall as [|c p new' ps Hc _ IH]; [constructor|].
  constructor; [|exact IH].
  destruct Hc as (Hamount & _ & Hdetails). rewrite Hdetails.
  split; [exact Hamount|]. apply receiptDetails_cases.
Qed.

Lemma candidate_details_cleaned_witness :
  (3 <= length (describedDetails (js "Bread 500") (js "500")))%nat /\
  exists c,
    ocrLines sampleReceipt = [c] /\
    line_details c = describedDetails (js "Bread 500") (js "500").
Proof.
  assert (Hlen : (3 <= length (describedDetails (js "Bread 500") (js "500")))%nat).
  { vm_compute. repeat constructor. }
  split; [exact Hlen|].
  destruct (candidate_details_cleaned dashboard_js sampleHost (js "Bread 500")
              emptyWorld) as (new & Hnew & Hall).
  assert (Hs : survivors (js "Bread 500") = [(js "Bread 500", js "500")])
    by (vm_compute; reflexivity).
  rewrite Hs in Hall. inversion Hall as [|c p new' ps Hc Hrest]; subst.
  inversion Hrest; subst. exists c. split; [exact Hnew|].
  exact (proj2 (proj2 Hc) Hlen).
Defined.

(** C9, as the specification states it, fails: [addTransaction] stores the
    kind and the amount it is given, whatever they are. *)
Lemma addTransaction_stores_invalid :
  ~ Forall validTx
      (transactions (addAll sampleHost [sampleInput "Refund" (-5)] emptyWorld)).
Proof.
  intro Hall. apply Forall_inv in Hall. destruct Hall as [Hamount _].
  vm_compute in Hamount. discriminate Hamount.
Qed.

(** C9, amended.  [addTransaction] stores kind and amount as given, without
    a check; so, starting from an empty ledger, every stored transaction has
    a non-negative amount and one of the three kinds whenever every call was
    given such an amount and kind. *)
Theorem addTransaction_keeps_valid (h : Host) (inputs : list TxInput) (w : World) :
  transactions w = [] ->
  List.map (fun tx => (tx_type tx, tx_amount tx)) (transactions (addAll h inputs w))
  = List.map (fun t => (in_type t, in_amount t)) inputs /\
  (Forall validInput inputs -> Forall validTx (transactions (addAll h inputs w))).
Proof.
  intro Hempty. pose proof (addAll_transactions h inputs w) as Hmap.
  rewrite Hempty in Hmap. cbn [List.map app] in Hmap. split; [exact Hmap|].
  intro Hvalid. revert Hmap. generalize (transactions (addAll h inputs w)).
  induction Hvalid as [|t inputs Ht _ IH]; intros [|tx l] Hmap;
    try discriminate Hmap; constructor.
  - cbn [List.map] in Hmap. injection Hmap as Htype Hamount _.
    unfold validTx. rewrite Htype, Hamount. exact Ht.
  - apply IH. cbn [List.map] in Hmap. now injection Hmap.
Qed.

Lemma addTransaction_keeps_valid_witness :
  transactions emptyWorld = [] /\
  Forall validInput [sampleInput "VAT" 375.04; sampleInput "PAYE" 54000] /\
  Forall validTx
    (transactions
       (addAll sampleHost [sampleInput "VAT" 375.04; sampleInput "PAYE" 54000]
          emptyWorld)).
Proof.
  assert (Hv : Forall validInput
                 [sampleInput "VAT" 375.04; sampleInput "PAYE" 54000]).
  { repeat constructor; cbn; tauto. }
  split; [reflexivity|]. split; [exact Hv|].
  exact (proj2 (addTransaction_keeps_valid sampleHost
                  [sampleInput "VAT" 375.04; sampleInput "PAYE" 54000]
                  emptyWorld eq_refl) Hv).
Defined.

(** C10.  [deleteTransaction(id)] removes exactly the stored transactions
    whose id is [id]; every other transaction stays, unchanged and in its
    place relative to the others, and the receipt preview is not touched. *)
Theorem deleteTransaction_removes_by_id (h : Host) (id : str) (w : World) :
  let w' := deleteTransaction h id w in
  removesById id (transactions w) (transactions w') /\
  (forall tx, In tx (transactions w') <-> In tx (transactions w) /\ tx_id tx <> id) /\
  ocrLines w' = ocrLines w /\ ocrPreview w' = ocrPreview w.
Proof.
  cbv zeta. unfold deleteTransaction.
  rewrite saveTransactions_transactions, saveTransactions_ocrLines,
    saveTransactions_ocrPreview. cbn [transactions setTransactions ocrLines ocrPreview].
  assert (Hr := filter_removesById id (transactions w)).
  split; [exact Hr|]. split; [|split; reflexivity].
  now apply removesById_In.
Qed.

Lemma deleteTransaction_removes_by_id_witness :
  let w := setTransactions
             [sampleTx "a1" "VAT" 75; sampleTx "b2" "PAYE" 54000;
              sampleTx "a1" "Consumption" 1200] emptyWorld in
  transactions (deleteTransaction sampleHost (js "a1") w)
  = [sampleTx "b2" "PAYE" 54000] /\
  (In (sampleTx "b2" "PAYE" 54000)
      (transactions (deleteTransaction sampleHost (js "a1") w))).
Proof.
  cbv zeta. split; [reflexivity|].
  apply (proj1 (proj2 (deleteTransaction_removes_by_id sampleHost (js "a1") _))).
  split; [right; left; reflexivity | intro Hc; discriminate Hc].
Defined.

(* ================================================================== *)
(** * Further properties of the code *)
(* ================================================================== *)

(** ** The ledger *)

Lemma summary_fold (l : list Transaction) (s : TaxSummary) :
  let s' := fold_left summaryStep l s in
  paye s' = fold_left (fun sum t => nadd sum (tx_amount t))
              (filter (fun tx => str_eqb (tx_type tx) (js "PAYE")) l) (paye s) /\
  vat s' = fold_left (fun sum t => nadd sum (tx_amount t))
             (filter (fun tx => str_eqb (tx_type tx) (js "VAT")) l) (vat s) /\
  consumption s' = fold_left (fun sum t => nadd sum (tx_amount t))
             (filter (fun tx => str_eqb (tx_type tx) (js "Consumption")) l)
             (consumption s) /\
  total s' = total s /\ count s' = count s.
Proof.
  cbv zeta. revert s. induction l as [|tx l IH]; intro s; cbn [fold_left filter].
  - repeat split.
  - destruct (IH (summaryStep s tx)) as (Hp & Hv & Hc & Ht & Hn).
    rewrite Hp, Hv, Hc, Ht, Hn. unfold summaryStep.
    destruct (str_eqb (tx_type tx) (js "PAYE")) eqn:E1.
    { apply str_eqb_eq in E1. rewrite E1.
      compute_closed (str_eqb (js "PAYE") (js "VAT")).
      compute_closed (str_eqb (js "PAYE") (js "Consumption")).
      cbv iota. cbn [paye vat consumption total count fold_left]. repeat split. }
    destruct (str_eqb (tx_type tx) (js "VAT")) eqn:E2.
    { apply str_eqb_eq in E2. rewrite E2.
      compute_closed (str_eqb (js "VAT") (js "Consumption")).
      cbv iota. cbn [paye vat consumption total count fold_left]. repeat split. }
    destruct (str_eqb (tx_type tx) (js "Consumption")) eqn:E3;
      cbn [paye vat consumption total count fold_left]; repeat split.
Qed.

Lemma summary_sums (l : list Transaction) (n : nat) :
  let s := fold_left summaryStep l
             {| paye := Fin 0; vat := Fin 0; consumption := Fin 0; total := Fin 0;
                count := n |} in
  paye s = sumAmounts (filter (fun tx => str_eqb (tx_type tx) (js "PAYE")) l) /\
  vat s = sumAmounts (filter (fun tx => str_eqb (tx_type tx) (js "VAT")) l) /\
  consumption s
  = sumAmounts (filter (fun tx => str_eqb (tx_type tx) (js "Consumption")) l) /\
  count s = n.
Proof.
  cbv zeta.
  destruct (summary_fold l
              {| paye := Fin 0; vat := Fin 0; consumption := Fin 0; total := Fin 0;
                 count := n |}) as (Hp & Hv & Hc & _ & Hn).
  cbv zeta in *. now rewrite Hp, Hv, Hc, Hn.
Qed.

Lemma sumAmounts_snoc (f : Transaction -> bool) (l : list Transaction)
  (tx : Transaction) :
  sumAmounts (filter f (l ++ [tx]))
  = if f tx then nadd (sumAmounts (filter f l)) (tx_amount tx)
    else sumAmounts (filter f l).
Proof.
  unfold sumAmounts. rewrite filter_app. cbn [filter].
  destruct (f tx); [|now rewrite app_nil_r].
  now rewrite fold_left_app.
Qed.

(** X1.  [getTaxSummary] and [getTransactionsByType] agree: each of the
    three sums of the summary is the sum, from zero and in ledger order, of
    the amounts of the transactions that [getTransactionsByType] returns for
    that kind; [total] is the sum of the three, and [count] is the length of
    the whole ledger, transactions of other kinds included. *)
Theorem getTaxSummary_by_type (w : World) :
  let s := getTaxSummary w in
  paye s = sumAmounts (getTransactionsByType (js "PAYE") w) /\
  vat s = sumAmounts (getTransactionsByType (js "VAT") w) /\
  consumption s = sumAmounts (getTransactionsByType (js "Consumption") w) /\
  total s = nadd (nadd (paye s) (vat s)) (consumption s) /\
  count s = length (getTransactions w).
Proof.
  cbv zeta. unfold getTaxSummary, sumAmounts, getTransactionsByType, getTransactions.
  cbn [paye vat consumption total count].
  destruct (summary_fold (transactions w)
              {| paye := Fin 0; vat := Fin 0; consumption := Fin 0; total := Fin 0;
                 count := length (transactions w) |}) as (Hp & Hv & Hc & _ & Hn).
  cbv zeta in *. rewrite Hp, Hv, Hc, Hn. repeat split.
Qed.

(** X2.  What [addTransaction] does to the summary: [count] goes up by
    one; the sum of the kind of the new transaction is the former sum plus
    its amount, and the two other sums stay; a transaction whose kind is
    none of PAYE, VAT and Consumption changes no sum and leaves [total] as
    it is.  [total] is computed anew as the sum of the three sums, PAYE and
    VAT first: no law of arithmetic is used, and nothing is said of the
    former [total] plus the amount, which rounding can make another
    number. *)
Theorem getTaxSummary_after_addTransaction (h : Host) (t : TxInput) (w : World) :
  let s := getTaxSummary w in
  let s' := getTaxSummary (snd (addTransaction h t w)) in
  count s' = S (count s) /\
  (paye s', vat s', consumption s')
  = (if str_eqb (in_type t) (js "PAYE")
     then (nadd (paye s) (in_amount t), vat s, consumption s)
     else if str_eqb (in_type t) (js "VAT")
     then (paye s, nadd (vat s) (in_amount t), consumption s)
     else if str_eqb (in_type t) (js "Consumption")
     then (paye s, vat s, nadd (consumption s) (in_amount t))
     else (paye s, vat s, consumption s)) /\
  total s' = nadd (nadd (paye s') (vat s')) (consumption s') /\
  (existsb (str_eqb (in_type t)) kinds = false -> total s' = total s).
Proof.
  cbv zeta. unfold getTaxSummary. cbn [paye vat consumption total count].
  rewrite addTransaction_transactions.
  destruct (summary_sums (transactions w) (length (transactions w)))
    as (Hp & Hv & Hc & Hn).
  destruct (summary_sums (transactions w ++ [fst (addTransaction h t w)])
              (length (transactions w ++ [fst (addTransaction h t w)])))
    as (Hp' & Hv' & Hc' & Hn').
  cbv zeta in *. rewrite Hp, Hv, Hc, Hn, Hp', Hv', Hc', Hn'.
  rewrite !sumAmounts_snoc.
  destruct (addTransaction_type_amount h t w) as [-> ->].
  split; [rewrite length_app; cbn [length]; lia|].
  split; [|split; [reflexivity|]].
  - destruct (str_eqb (in_type t) (js "PAYE")) eqn:E1.
    { apply str_eqb_eq in E1. rewrite E1.
      compute_closed (str_eqb (js "PAYE") (js "VAT")).
      compute_closed (str_eqb (js "PAYE") (js "Consumption")).
      reflexivity. }
    destruct (str_eqb (in_type t) (js "VAT")) eqn:E2.
    { apply str_eqb_eq in E2. rewrite E2.
      compute_closed (str_eqb (js "VAT") (js "Consumption")).
      reflexivity. }
    now destruct (str_eqb (in_type t) (js "Consumption")).
  - unfold kinds. cbn [existsb]. intro Hkind.
    apply orb_false_iff in Hkind. destruct Hkind as [-> Hkind].
    apply orb_false_iff in Hkind. destruct Hkind as [-> Hkind].
    apply orb_false_iff in Hkind. destruct Hkind as [-> _].
    reflexivity.
Qed.

(** ** Deleting *)

Lemma filter_idem {A : Type} (f : A -> bool) (l : list A) :
  filter f (filter f l) = filter f l.
Proof.
  induction l as [|x l IH]; cbn [filter]; [reflexivity|].
  destruct (f x) eqn:E; cbn [filter]; [rewrite E, IH|]; auto.
Qed.

Lemma filter_all {A : Type} (f : A -> bool) (l : list A) :
  (forall x, In x l -> f x = true) -> filter f l = l.
Proof.
  induction l as [|x l IH]; intro Hall; cbn [filter]; [reflexivity|].
  rewrite (Hall x) by now left. f_equal. apply IH. intros y Hy. apply Hall. now right.
Qed.

Lemma deleteTransaction_transactions (h : Host) (id : str) (w : World) :
  transactions (deleteTransaction h id w)
  = filter (fun tx => negb (str_eqb (tx_id tx) id)) (transactions w).
Proof. unfold deleteTransaction. now rewrite saveTransactions_transactions. Qed.

(** X3.  Deleting the transaction that [addTransaction] has just returned
    gives back the ledger as it was, provided its id is new: no transaction
    of the ledger carried it before. *)
Theorem deleteTransaction_undoes_addTransaction (h : Host) (t : TxInput) (w : World) :
  let tx := fst (addTransaction h t w) in
  (forall x, In x (transactions w) -> tx_id x <> tx_id tx) ->
  transactions (deleteTransaction h (tx_id tx) (snd (addTransaction h t w)))
  = transactions w.
Proof.
  cbv zeta. intro Hfresh.
  rewrite deleteTransaction_transactions, addTransaction_transactions, filter_app.
  cbn [filter]. replace (str_eqb _ _) with true by (symmetry; now apply str_eqb_eq).
  cbn [negb]. rewrite app_nil_r. apply filter_all.
  intros x Hx. apply negb_true_iff, str_eqb_neq. now apply Hfresh.
Qed.

Lemma deleteTransaction_undoes_addTransaction_witness :
  let w := snd (addTransaction sampleHost (sampleInput "VAT" 375.04) emptyWorld) in
  let t := sampleInput "PAYE" 54000 in
  (forall x, In x (transactions w) ->
             tx_id x <> tx_id (fst (addTransaction sampleHost t w))) /\
  transactions
    (deleteTransaction sampleHost (tx_id (fst (addTransaction sampleHost t w)))
       (snd (addTransaction sampleHost t w)))
  = transactions w.
Proof.
  cbv zeta.
  assert (Hfresh : forall x,
             In x (transactions
                     (snd (addTransaction sampleHost (sampleInput "VAT" 375.04)
                             emptyWorld))) ->
             tx_id x
             <> tx_id (fst (addTransaction sampleHost (sampleInput "PAYE" 54000)
                              (snd (addTransaction sampleHost
                                      (sampleInput "VAT" 375.04) emptyWorld))))).
  { intros x Hx. vm_compute in Hx. destruct Hx as [<-|[]].
    vm_compute. intro Hc. discriminate Hc. }
  split; [exact Hfresh|].
  exact (deleteTransaction_undoes_addTransaction sampleHost
           (sampleInput "PAYE" 54000)
           (snd (addTransaction sampleHost (sampleInput "VAT" 375.04) emptyWorld))
           Hfresh).
Defined.

(** X4.  Deleting an id that no transaction carries leaves the ledger as it
    is, and deleting the same id a second time changes nothing more. *)
Theorem deleteTransaction_absent_or_repeated (h : Host) (id : str) (w : World) :
  ((forall x, In x (transactions w) -> tx_id x <> id) ->
   transactions (deleteTransaction h id w) = transactions w) /\
  transactions (deleteTransaction h id (deleteTransaction h id w))
  = transactions (deleteTransaction h id w).
Proof.
  split.
  - intro Habsent. rewrite deleteTransaction_transactions. apply filter_all.
    intros x Hx. apply negb_true_iff, str_eqb_neq. now apply Habsent.
  - rewrite !deleteTransaction_transactions. apply filter_idem.
Qed.

Lemma deleteTransaction_absent_or_repeated_witness :
  let w := addAll sampleHost [sampleInput "VAT" 375.04; sampleInput "PAYE" 54000]
             emptyWorld in
  (forall x, In x (transactions w) -> tx_id x <> js "no-such-id") /\
  transactions (deleteTransaction sampleHost (js "no-such-id") w) = transactions w.
Proof.
  cbv zeta.
  assert (Habsent : forall x,
            In x (transactions
                    (addAll sampleHost
                       [sampleInput "VAT" 375.04; sampleInput "PAYE" 54000]
                       emptyWorld)) ->
            tx_id x <> js "no-such-id").
  { intros x Hx. vm_compute in Hx. destruct Hx as [<-|[<-|[]]];
      vm_compute; intro Hc; discriminate Hc. }
  split; [exact Habsent|].
  exact (proj1 (deleteTransaction_absent_or_repeated sampleHost (js "no-such-id")
                  (addAll sampleHost
                     [sampleInput "VAT" 375.04; sampleInput "PAYE" 54000]
                     emptyWorld)) Habsent).
Defined.

(** ** The stored copy *)

Lemma saveTransactions_inSync (h : Host) (w : World) :
  setItemOk h (transactions w) = true -> inSync (saveTransactions h w).
Proof. intro Hok. unfold saveTransactions. now rewrite Hok. Qed.

Section SyncFacts.
Variable h : Host.
Hypothesis accepts : forall l, setItemOk h l = true.

Lemma addTransaction_inSync (t : TxInput) (w : World) :
  inSync (snd (addTransaction h t w)).
Proof. unfold addTransaction. cbn [snd]. apply saveTransactions_inSync, accepts. Qed.

Lemma deleteTransaction_inSync (id : str) (w : World) :
  inSync (deleteTransaction h id w).
Proof. unfold deleteTransaction. apply saveTransactions_inSync, accepts. Qed.

Lemma csvRow_inSync (name : str) (w : World) (line : str) :
  inSync w -> inSync (csvRow h name w line).
Proof.
  intro Hw. unfold csvRow. destruct (2 <=? _)%nat; [|exact Hw].
  destruct (scanCols _) as [amount details].
  destruct (ngtb amount (Fin 0)); [|exact Hw]. apply addTransaction_inSync.
Qed.

Lemma fold_inSync {A : Type} (f : World -> A -> World) (l : list A) (w : World) :
  (forall w x, inSync w -> inSync (f w x)) ->
  inSync w -> inSync (fold_left f l w).
Proof.
  intro Hf. revert w. induction l as [|x l IH]; intros w Hw; cbn [fold_left];
    [exact Hw|]. apply IH, Hf, Hw.
Qed.

Lemma processCSV_inSync (name text : str) (w : World) :
  inSync w -> inSync (processCSV h name text w).
Proof.
  intro Hw. unfold processCSV. destruct (filter _ _) as [|first lines]; [exact Hw|].
  apply fold_inSync; [|exact Hw]. intros w0 x. apply csvRow_inSync.
Qed.

Lemma confirmLine_inSync (w : World) (line : Candidate) :
  inSync w -> inSync (confirmLine h w line).
Proof.
  intro Hw. pose proof (confirmLine_cases h w line) as Hc.
  destruct (commits w line); [destruct Hc as [t ->] | now rewrite Hc].
  apply addTransaction_inSync.
Qed.
End SyncFacts.

(** The extraction reads and writes the preview and the candidates only. *)
Lemma ocrMatch_ledger (b : build) (h : Host) (i : nat) (line : str) (w : World)
  (numStr : str) :
  transactions (ocrMatch b h i line w numStr) = transactions w /\
  stored (ocrMatch b h i line w numStr) = stored w.
Proof. unfold ocrMatch. now destruct (inRange _). Qed.

Lemma ocrLine_ledger (b : build) (h : Host) (w : World) (i : nat) (line : str) :
  transactions (ocrLine b h w i line) = transactions w /\
  stored (ocrLine b h w i line) = stored w.
Proof.
  unfold ocrLine. generalize (matchAll amountRe line) as matches.
  intro matches. revert w.
  induction matches as [|numStr matches IH]; intro w; cbn [fold_left]; [now split|].
  destruct (IH (ocrMatch b h i line w numStr)) as [-> ->].
  apply ocrMatch_ledger.
Qed.

Lemma forEach_ledger (b : build) (h : Host) (lines : list str) (i : nat) (w : World) :
  transactions (forEachIndexed (ocrLine b h) i lines w) = transactions w /\
  stored (forEachIndexed (ocrLine b h) i lines w) = stored w.
Proof.
  revert i w. induction lines as [|line lines IH]; intros i w;
    cbn [forEachIndexed]; [now split|].
  destruct (IH (S i) (ocrLine b h w i line)) as [-> ->]. apply ocrLine_ledger.
Qed.

Lemma processReceipt_ledger (b : build) (h : Host) (recognized : option str)
  (w : World) :
  transactions (processReceiptWithOCR b h recognized w) = transactions w /\
  stored (processReceiptWithOCR b h recognized w) = stored w.
Proof.
  unfold processReceiptWithOCR. destruct recognized as [text|]; [|now split].
  destruct b.
  - destruct (forEach_ledger dashboard_js h (split newline text) 0 (setOcrLines [] w))
      as [-> ->]. now split.
  - destruct (_ =? _)%nat; cbn [transactions stored setOcrPreview];
      apply forEach_ledger.
Qed.

Lemma onFilesChange_inSync (b : build) (h : Host) (files : list File) (w : World) :
  (forall l, setItemOk h l = true) ->
  inSync w -> inSync (onFilesChange b h files w).
Proof.
  intros accepts Hw. unfold onFilesChange. apply fold_inSync; [|exact Hw].
  intros w0 file Hw0. destruct (endsWith _ _).
  - now apply processCSV_inSync.
  - destruct (startsWith _ _); [|exact Hw0].
    unfold inSync.
    now destruct (processReceipt_ledger b h (file_recognized file) w0) as [-> ->].
Qed.

Lemma confirmOCR_inSync (h : Host) (w : World) :
  (forall l, setItemOk h l = true) -> inSync w -> inSync (confirmOCR h w).
Proof.
  intros accepts Hw. unfold confirmOCR.
  assert (Hloop : inSync (fold_left (confirmLine h) (ocrLines w) w)).
  { apply fold_inSync; [|exact Hw]. intros w0 x. now apply confirmLine_inSync. }
  exact Hloop.
Qed.

(** X5.  What [saveTransactions] writes is the JSON text of the ledger,
    in which every text field is as in memory and an amount that is [NaN]
    or infinite is [null].  With a storage that accepts every write, when
    the stored copy is the JSON text of the ledger in memory it is so again
    after [addTransaction], after [deleteTransaction], after the file
    handler and after the confirmation; its amounts are those of the
    ledger when these are all finite. *)
Theorem stored_ledger_stays_in_sync (b : build) (h : Host) (w : World) :
  (forall l, setItemOk h l = true) -> inSync w ->
  (forall t, inSync (snd (addTransaction h t w))) /\
  (forall id, inSync (deleteTransaction h id w)) /\
  (forall files, inSync (onFilesChange b h files w)) /\
  inSync (confirmOCR h w) /\
  (forall w' : World, inSync w' ->
     Forall finiteAmount (transactions w') ->
     option_map (List.map st_amount) (stored w')
     = Some (List.map (fun tx => Some (tx_amount tx)) (transactions w'))).
Proof.
  intros accepts Hw. repeat split.
  - intro t. now apply addTransaction_inSync.
  - intro id. now apply deleteTransaction_inSync.
  - intro files. now apply onFilesChange_inSync.
  - now apply confirmOCR_inSync.
  - intros w' Hsync Hfin. rewrite Hsync. cbn [option_map]. f_equal.
    clear Hsync. unfold JSON_stringify. rewrite List.map_map.
    induction Hfin as [|tx l [q Hq] _ IH]; cbn [List.map]; [reflexivity|].
    rewrite IH. cbn [st_amount jsonTransaction]. rewrite Hq. reflexivity.
Qed.

(** The import of a CSV row whose first field reads as infinity: the
    ledger holds an infinite amount, and the stored copy holds [null]. *)
Remark stored_copy_of_an_infinite_amount :
  let w := processCSV sampleHost (js "rows.csv") infiniteCsvRow emptyWorld in
  List.map tx_amount (transactions w) = [PInf] /\
  option_map (List.map st_amount) (stored w) = Some [None] /\
  inSync w.
Proof. cbv zeta. repeat split; vm_compute; reflexivity. Qed.

Lemma stored_ledger_stays_in_sync_witness :
  let w := addAll sampleHost [sampleInput "VAT" 375.04] emptyWorld in
  (forall l, setItemOk sampleHost l = true) /\ inSync w /\
  (forall t, inSync (snd (addTransaction sampleHost t w))) /\
  (forall id, inSync (deleteTransaction sampleHost id w)) /\
  (forall files, inSync (onFilesChange dashboard_js sampleHost files w)) /\
  inSync (confirmOCR sampleHost w) /\
  (forall w' : World, inSync w' ->
     Forall finiteAmount (transactions w') ->
     option_map (List.map st_amount) (stored w')
     = Some (List.map (fun tx => Some (tx_amount tx)) (transactions w'))).
Proof.
  cbv zeta.
  assert (Hok : forall l, setItemOk sampleHost l = true) by (intro l; reflexivity).
  assert (Hw : inSync (addAll sampleHost [sampleInput "VAT" 375.04] emptyWorld))
    by reflexivity.
  split; [exact Hok|]. split; [exact Hw|].
  exact (@stored_ledger_stays_in_sync dashboard_js sampleHost _ Hok Hw).
Defined.

Lemma csvRow_ocrPreview (h : Host) (name : str) (w : World) (line : str) :
  ocrPreview (csvRow h name w line) = ocrPreview w.
Proof.
  unfold csvRow. destruct (2 <=? _)%nat; [|reflexivity].
  destruct (scanCols _) as [amount details].
  destruct (ngtb amount (Fin 0)); [|reflexivity].
  apply addTransaction_ocrPreview.
Qed.

Lemma processCSV_ocrPreview (h : Host) (name text : str) (w : World) :
  ocrPreview (processCSV h name text w) = ocrPreview w.
Proof.
  unfold processCSV. destruct (filter _ _) as [|first lines]; [reflexivity|].
  generalize (skipn (if includes (js "date") (toLowerCase first)
                        || includes (js "amount") (toLowerCase first)
                     then 1%nat else 0%nat) (first :: lines)) as rows.
  intro rows. revert w. induction rows as [|row rows IH]; intro w;
    cbn [fold_left]; [reflexivity|].
  now rewrite IH, csvRow_ocrPreview.
Qed.

(** X6.  The two branches of the file handler keep to their own data.  The
    recognition of a receipt, whether it succeeds or fails, changes neither
    the ledger nor its stored copy: nothing is recorded before the
    confirmation.  The import of a CSV file changes neither the candidates
    nor the preview. *)
Theorem receipt_and_csv_frames (b : build) (h : Host) (w : World) :
  (forall recognized,
     transactions (processReceiptWithOCR b h recognized w) = transactions w /\
     stored (processReceiptWithOCR b h recognized w) = stored w) /\
  (forall name text,
     ocrLines (processCSV h name text w) = ocrLines w /\
     ocrPreview (processCSV h name text w) = ocrPreview w).
Proof.
  split.
  - intro recognized. apply processReceipt_ledger.
  - intros name text. split; [apply processCSV_ocrLines | apply processCSV_ocrPreview].
Qed.

(** ** The calculators, in exact arithmetic *)

(** The operations of the interface, at [number]. *)
Ltac js_ops :=
  cbn [gtb leb lit add sub mul div Math_max Math_round truthy number_arith].

Lemma zero_taxable_no_tax :
  nround (bandTax (Fin 0)) =n= Fin 0 /\
  nround (ndiv (bandTax (Fin 0)) (Fin 12)) =n= Fin 0.
Proof. split; vm_compute; reflexivity. Qed.

Lemma nmax_zero_of_nonpositive (x : Q) : x <= 0 -> nmax (Fin x) (Fin 0) = Fin 0.
Proof.
  intro Hx. cbn [nmax]. destruct (Qle_bool x 0) eqn:E; [reflexivity|].
  apply Qle_bool_false in E. exfalso. lra.
Qed.

(** X7.  Up to a gross income of 250,000 no tax is due: when no relief is
    negative (each is absent, zero, not a number, or positive), the taxable
    income, the annual tax and the monthly tax are all zero. *)
Theorem calculatePAYE_nothing_due_up_to_250000 (g : Q) (r : Reliefs number) :
  reliefNotNegative (pension r) -> reliefNotNegative (nhf r) ->
  reliefNotNegative (other r) -> g <= 250000 ->
  let res := calculatePAYE (Fin g) r in
  taxableIncome res =n= Fin 0 /\ annualTax res =n= Fin 0 /\
  monthlyTax res =n= Fin 0.
Proof.
  unfold reliefNotNegative. intros Hp Hn Ho Hg. cbv zeta.
  unfold calculatePAYE. cbn [taxableIncome annualTax monthlyTax]. js_ops.
  destruct (numberOr0 (pension r)) as [ | p | | ]; try discriminate Hp;
    destruct (numberOr0 (nhf r)) as [ | n | | ]; try discriminate Hn;
    destruct (numberOr0 (other r)) as [ | o | | ]; try discriminate Ho;
    cbn [nadd nsub nopp nmul];
    first [ rewrite nmax_zero_of_nonpositive
              by (apply ngeb_fin in Hp, Hn, Ho; lra)
          | cbn [nmax] ];
    (split; [reflexivity | exact zero_taxable_no_tax]).
Qed.

Lemma calculatePAYE_nothing_due_up_to_250000_witness :
  reliefNotNegative (pension noReliefs) /\ reliefNotNegative (nhf noReliefs) /\
  reliefNotNegative (other noReliefs) /\ 250000 <= 250000 /\
  annualTax (calculatePAYE (Fin 250000) noReliefs) =n= Fin 0.
Proof.
  assert (H1 : reliefNotNegative (@None number)) by reflexivity.
  assert (H2 : 250000 <= 250000) by (intro Hc; discriminate Hc).
  split; [exact H1|]. split; [exact H1|]. split; [exact H1|]. split; [exact H2|].
  exact (proj1 (proj2 (calculatePAYE_nothing_due_up_to_250000 noReliefs
                         H1 H1 H1 H2))).
Defined.

Lemma bandTax_rates (t : Q) :
  0 <= t ->
  exists x, bandTax (Fin t) = Fin x /\ t * 0.07 <= x /\ x <= t * 0.24.
Proof.
  intro Ht. unfold bandTax. js_arith.
  split_tests; eexists; (split; [reflexivity|]); lra.
Qed.

Lemma nmax_zero_fin (x : number) (t : Q) :
  nmax x (Fin 0) = Fin t -> 0 <= t.
Proof.
  destruct x as [ | q | | ]; cbn [nmax]; try discriminate.
  - destruct (Qle_bool q 0) eqn:E; intro H; injection H as <-; [lra|].
    apply Qle_bool_false in E. lra.
  - intro H. injection H as <-. lra.
Qed.

(** X8.  Whenever the taxable income is finite it is not negative, and the
    annual tax is a whole number that lies, up to the half unit of the
    rounding, between 7 percent and 24 percent of the taxable income. *)
Theorem calculatePAYE_tax_between_7_and_24_percent
  (gross : number) (r : Reliefs number) (t : Q) :
  taxableIncome (calculatePAYE gross r) = Fin t ->
  0 <= t /\
  exists a : Z,
    annualTax (calculatePAYE gross r) = Fin (inject_Z a) /\
    t * 0.07 - (1 # 2) <= inject_Z a /\ inject_Z a <= t * 0.24 + (1 # 2).
Proof.
  unfold calculatePAYE. cbn [taxableIncome annualTax]. js_arith. intro Ht.
  rewrite Ht. apply nmax_zero_fin in Ht. split; [exact Ht|].
  destruct (bandTax_rates Ht) as (x & -> & Hlo & Hhi).
  cbn [nround]. eexists. split; [reflexivity|].
  pose proof (Qfloor_le (x + (1 # 2))) as H1.
  pose proof (Qlt_floor (x + (1 # 2))) as H2.
  rewrite inject_Z_plus in H2. change (inject_Z 1) with 1 in H2.
  split; lra.
Qed.

Lemma calculatePAYE_tax_between_7_and_24_percent_witness :
  exists t : Q,
    taxableIncome (calculatePAYE (Fin 1000000) noReliefs) = Fin t /\
    0 <= t /\
    exists a : Z,
      annualTax (calculatePAYE (Fin 1000000) noReliefs) = Fin (inject_Z a) /\
      t * 0.07 - (1 # 2) <= inject_Z a /\ inject_Z a <= t * 0.24 + (1 # 2).
Proof.
  assert (H : {t | taxableIncome (calculatePAYE (Fin 1000000) noReliefs) = Fin t})
    by (eexists; vm_compute; reflexivity).
  destruct H as [t H]. exists t. split; [exact H|].
  exact (calculatePAYE_tax_between_7_and_24_percent (Fin 1000000) noReliefs H).
Defined.

Lemma numberOr0_fin (p : Q) :
  exists p', numberOr0 (Some (Fin p)) = Fin p' /\ p' == p.
Proof.
  cbn [numberOr0 truthy number_arith ntruthy lit].
  destruct (Qeq_bool p 0) eqn:E; cbn [negb].
  - exists 0. split; [reflexivity|]. apply Qeq_bool_iff in E. now rewrite E.
  - exists p. split; reflexivity.
Qed.

(** X9.  A larger relief never gives a larger tax: for finite reliefs, if
    each of pension, NHF and other relief is at least what it was, the
    annual tax on the same gross income is at most what it was.  The
    reliefs are not clamped at zero, so a negative relief raises the tax. *)
Theorem calculatePAYE_annualTax_antitone_in_reliefs (g p1 n1 o1 p2 n2 o2 : Q) :
  p1 <= p2 -> n1 <= n2 -> o1 <= o2 ->
  nleb (annualTax (calculatePAYE (Fin g) (finiteReliefs p2 n2 o2)))
       (annualTax (calculatePAYE (Fin g) (finiteReliefs p1 n1 o1))) = true.
Proof.
  intros Hp Hn Ho. unfold calculatePAYE, finiteReliefs.
  cbn [annualTax pension nhf other].
  destruct (numberOr0_fin p1) as (p1' & -> & Ep1).
  destruct (numberOr0_fin n1) as (n1' & -> & En1).
  destruct (numberOr0_fin o1) as (o1' & -> & Eo1).
  destruct (numberOr0_fin p2) as (p2' & -> & Ep2).
  destruct (numberOr0_fin n2) as (n2' & -> & En2).
  destruct (numberOr0_fin o2) as (o2' & -> & Eo2).
  js_arith. apply bandTax_of_max. lra.
Qed.

Lemma calculatePAYE_annualTax_antitone_in_reliefs_witness :
  0 <= 50000 /\ 0 <= 0 /\ (-10000) <= 0 /\
  nleb (annualTax (calculatePAYE (Fin 1000000) (finiteReliefs 50000 0 0)))
       (annualTax (calculatePAYE (Fin 1000000) (finiteReliefs 0 0 (-10000)))) = true.
Proof.
  assert (H1 : 0 <= 50000) by (intro Hc; discriminate Hc).
  assert (H2 : 0 <= 0) by (intro Hc; discriminate Hc).
  assert (H3 : (-10000) <= 0) by (intro Hc; discriminate Hc).
  split; [exact H1|]. split; [exact H2|]. split; [exact H3|].
  exact (calculatePAYE_annualTax_antitone_in_reliefs 1000000 H1 H2 H3).
Defined.

(** X10.  On amounts that are not negative [calculateVAT] is monotone, its
    result is not negative, and it never exceeds the amount itself. *)
Theorem calculateVAT_monotone_and_bounded (a b : Q) :
  0 <= a -> a <= b ->
  exists x y,
    calculateVAT (Fin a) = Fin x /\ calculateVAT (Fin b) = Fin y /\
    0 <= x /\ x <= y /\ x <= a.
Proof.
  intros Ha Hab. rewrite !calculateVAT_fin. do 2 eexists.
  split; [reflexivity|]. split; [reflexivity|].
  set (fa := Qfloor (a * 0.075 * 100 + (1 # 2))).
  set (fb := Qfloor (b * 0.075 * 100 + (1 # 2))).
  assert (H0 : (0 <= fa)%Z).
  { change 0%Z with (Qfloor 0). apply Qfloor_resp_le. lra. }
  assert (Hm : (fa <= fb)%Z) by (apply Qfloor_resp_le; lra).
  pose proof (Qfloor_le (a * 0.075 * 100 + (1 # 2))) as Hle. fold fa in Hle.
  pose proof H0 as H0z.
  rewrite Zle_Qle in H0, Hm. change (inject_Z 0) with 0 in H0.
  split; [div_consts; lra|]. split; [div_consts; lra|].
  destruct (Qlt_le_dec (a * 100) 1) as [Hsmall|Hlarge].
  - assert (Hz : (fa < 1)%Z).
    { rewrite Zlt_Qlt. change (inject_Z 1) with 1. lra. }
    assert (Hfa : fa = 0%Z) by lia.
    rewrite Hfa. change (inject_Z 0) with 0. div_consts. lra.
  - div_consts. lra.
Qed.

Lemma calculateVAT_monotone_and_bounded_witness :
  0 <= 100 /\ 100 <= 5000.50 /\
  exists x y,
    calculateVAT (Fin 100) = Fin x /\ calculateVAT (Fin 5000.50) = Fin y /\
    0 <= x /\ x <= y /\ x <= 100.
Proof.
  assert (H1 : 0 <= 100) by (intro Hc; discriminate Hc).
  assert (H2 : 100 <= 5000.50) by (intro Hc; discriminate Hc).
  split; [exact H1|]. split; [exact H2|].
  exact (calculateVAT_monotone_and_bounded H1 H2).
Defined.

(** ** The import of a CSV file *)

Lemma splitAcc_no_sep (sep : N) (s acc : str) :
  ~ In sep acc -> Forall (fun piece => ~ In sep piece) (splitAcc sep acc s).
Proof.
  revert acc. induction s as [|c s IH]; intros acc Hacc; cbn [splitAcc].
  - constructor; [|constructor]. now rewrite <- in_rev.
  - destruct (c =? sep)%N eqn:E.
    + constructor; [now rewrite <- in_rev|]. apply IH. intros [].
    + apply IH. intros [Hc|Hin]; [|contradiction].
      apply N.eqb_neq in E. contradiction.
Qed.

Lemma dropWhile_In (p : N -> bool) (s : str) (x : N) :
  In x (dropWhile p s) -> In x s.
Proof.
  induction s as [|c s IH]; cbn [dropWhile]; [tauto|].
  destruct (p c); [|tauto]. intro Hin. right. now apply IH.
Qed.

Lemma trim_In (s : str) (x : N) : In x (trim s) -> In x s.
Proof.
  unfold trim. intro Hin. apply in_rev, dropWhile_In, in_rev, dropWhile_In in Hin.
  exact Hin.
Qed.

Lemma remove_class_In (p : N -> bool) (s : str) (x : N) :
  In x (replaceAll (Class p) [] s) <-> In x s /\ p x = false.
Proof.
  rewrite replaceAll_class, in_flat_map. split.
  - intros (c & Hc & Hx). destruct (p c) eqn:E; [destruct Hx|].
    destruct Hx as [<-|[]]. now split.
  - intros [Hin Hp]. exists x. split; [exact Hin|]. rewrite Hp. now left.
Qed.

Lemma remove_class_filter (p q : N -> bool) (s : str) :
  (forall c, In c s -> p c = negb (q c)) ->
  replaceAll (Class p) [] s = filter q s.
Proof.
  rewrite replaceAll_class.
  induction s as [|c s IH]; intro Hpq; cbn [flat_map filter]; [reflexivity|].
  rewrite IH by (intros x Hx; apply Hpq; now right).
  rewrite (Hpq c) by now left. now destruct (q c).
Qed.

(** X11.  A line is split at every comma before anything else is done, so
    no field contains a comma, and none a double quote: the comma in the
    pattern that prepares the number of a field has nothing to remove, the
    number of a field is [parseFloat] of the field without its naira signs,
    and a thousands separator always ends the field. *)
Theorem csv_field_never_holds_a_separator (line : str) :
  Forall
    (fun col =>
       ~ In comma col /\ ~ In quote col /\
       colNumber col = parseFloat (filter (fun c => negb (c =? naira)%N) col))
    (csvCols line).
Proof.
  unfold csvCols. apply Forall_map.
  assert (Hsplit : Forall (fun piece => ~ In comma piece) (split comma line))
    by (apply splitAcc_no_sep; intros []).
  revert Hsplit. apply Forall_impl. intros piece Hpiece.
  assert (Hcomma : ~ In comma (replaceAll quoteRe [] (trim piece))).
  { unfold quoteRe, Unit. rewrite remove_class_In. intros [Hin _].
    now apply trim_In in Hin. }
  split; [exact Hcomma|]. split.
  - unfold quoteRe, Unit. rewrite remove_class_In. intros [_ Hq].
    now rewrite N.eqb_refl in Hq.
  - unfold colNumber, currencyRe. f_equal. apply remove_class_filter.
    intros c Hc. rewrite negb_involutive.
    destruct (c =? comma)%N eqn:E; [|now rewrite orb_false_r].
    apply N.eqb_eq in E. subst c. contradiction.
Qed.

Lemma processCSV_fold (h : Host) (name text : str) (w : World) :
  processCSV h name text w = fold_left (csvRow h name) (csvDataLines text) w.
Proof.
  unfold processCSV, csvDataLines. now destruct (filter _ _).
Qed.

Lemma calculateVAT_of_positive (x : number) :
  ngtb x (Fin 0) = true -> ngeb (calculateVAT x) (Fin 0) = true.
Proof.
  destruct x as [ | q | | ]; try discriminate.
  - intro Hq. apply ngtb_fin in Hq. rewrite calculateVAT_fin. apply ngeb_fin.
    assert (H0 : (0 <= Qfloor (q * 0.075 * 100 + (1 # 2)))%Z).
    { change 0%Z with (Qfloor 0). apply Qfloor_resp_le. lra. }
    rewrite Zle_Qle in H0. change (inject_Z 0) with 0 in H0. div_consts. lra.
  - intros _. vm_compute. reflexivity.
Qed.

Lemma csvRows_effect (h : Host) (name : str) (rows : list str) (w : World) :
  exists new,
    transactions (fold_left (csvRow h name) rows w) = transactions w ++ new /\
    List.map (fun tx => (tx_type tx, tx_amount tx)) new
    = List.map (fun line => (js "VAT", calculateVAT (firstPositive (csvCols line))))
        (filter rowCommits rows).
Proof.
  revert w. induction rows as [|line rows IH]; intro w; cbn [fold_left filter].
  - exists []. now rewrite app_nil_r.
  - destruct (IH (csvRow h name w line)) as (new & Hnew & Hmap).
    pose proof (csvRow_effect h name w line) as Hrow. cbv zeta in Hrow.
    fold (rowCommits line) in Hrow. destruct (rowCommits line).
    + destruct Hrow as (tx & Htx & Htype & Hamount & _).
      exists (tx :: new). rewrite Hnew, Htx, <- app_assoc. split; [reflexivity|].
      cbn [List.map]. now rewrite Hmap, Htype, Hamount.
    + rewrite Hrow in Hnew |- *. now exists new.
Qed.

(** X12.  The import of a CSV file only appends to the ledger, one
    transaction for each data line that has at least two fields and a
    positive number, in the order of the file.  Each is of kind VAT and its
    amount is [calculateVAT] of that number, which is not negative: the
    import keeps the invariant of the ledger. *)
Theorem processCSV_appends_vat_rows (h : Host) (name text : str) (w : World) :
  exists new,
    transactions (processCSV h name text w) = transactions w ++ new /\
    List.map (fun tx => (tx_type tx, tx_amount tx)) new
    = List.map (fun line => (js "VAT", calculateVAT (firstPositive (csvCols line))))
        (filter rowCommits (csvDataLines text)) /\
    Forall validTx new.
Proof.
  rewrite processCSV_fold.
  destruct (csvRows_effect h name (csvDataLines text) w) as (new & Hnew & Hmap).
  exists new. split; [exact Hnew|]. split; [exact Hmap|].
  assert (Hrows : Forall (fun line => rowCommits line = true)
                    (filter rowCommits (csvDataLines text))).
  { apply Forall_forall. intros line Hin. apply filter_In in Hin. tauto. }
  revert Hmap Hrows. generalize (filter rowCommits (csvDataLines text)) as rows.
  clear Hnew. induction new as [|tx new IH]; intros rows Hmap Hrows; [constructor|].
  destruct rows as [|line rows]; [discriminate Hmap|].
  cbn [List.map] in Hmap. injection Hmap as Htype Hamount Hrest.
  inversion Hrows as [|? ? Hline Hrows']; subst.
  constructor; [|now apply (IH rows)].
  unfold validTx, validAmountType. rewrite Htype, Hamount. split.
  - apply calculateVAT_of_positive. unfold rowCommits in Hline.
    now apply andb_true_iff in Hline.
  - right. now left.
Qed.

(** ** The preview and the candidates of an image *)

Section PreviewFacts.
Variable h : Host.

Lemma ocrMatch_both (b : build) (i : nat) (line : str) (w : World) (numStr : str) :
  exists new,
    ocrLines (ocrMatch b h i line w numStr) = ocrLines w ++ new /\
    ocrPreview (ocrMatch b h i line w numStr)
    = ocrPreview w ++ List.map (rowOf h) new /\
    Forall2 (extractedFrom b) new
      (List.map (pair line)
         (filter (fun n => inRange (rawAmountOf n)) [numStr])).
Proof.
  unfold ocrMatch. cbn [filter].
  destruct (inRange (rawAmountOf numStr)).
  - eexists [_]. cbn [ocrLines ocrPreview tick setOcrPreview setOcrLines List.map].
    split; [reflexivity|]. split; [reflexivity|].
    constructor; [|constructor]. now repeat split.
  - exists []. cbn [List.map]. rewrite !app_nil_r.
    split; [reflexivity|]. split; [reflexivity|constructor].
Qed.

Lemma ocrLine_both (b : build) (w : World) (i : nat) (line : str) :
  exists new,
    ocrLines (ocrLine b h w i line) = ocrLines w ++ new /\
    ocrPreview (ocrLine b h w i line) = ocrPreview w ++ List.map (rowOf h) new /\
    Forall2 (extractedFrom b) new
      (List.map (pair line)
         (filter (fun n => inRange (rawAmountOf n)) (matchAll amountRe line))).
Proof.
  unfold ocrLine. generalize (matchAll amountRe line) as matches.
  intro matches. revert w.
  induction matches as [|numStr matches IH]; intro w; cbn [fold_left].
  - exists []. cbn [List.map]. rewrite !app_nil_r.
    split; [reflexivity|]. split; [reflexivity|constructor].
  - destruct (ocrMatch_both b i line w numStr) as (n1 & H1 & P1 & F1).
    destruct (IH (ocrMatch b h i line w numStr)) as (n2 & H2 & P2 & F2).
    exists (n1 ++ n2). rewrite H2, H1, P2, P1, map_app, <- !app_assoc.
    split; [reflexivity|]. split; [reflexivity|].
    change (numStr :: matches) with ([numStr] ++ matches).
    rewrite filter_app, map_app. now apply Forall2_app.
Qed.

Lemma forEach_both (b : build) (lines : list str) (i : nat) (w : World) :
  exists new,
    ocrLines (forEachIndexed (ocrLine b h) i lines w) = ocrLines w ++ new /\
    ocrPreview (forEachIndexed (ocrLine b h) i lines w)
    = ocrPreview w ++ List.map (rowOf h) new /\
    Forall2 (extractedFrom b) new
      (flat_map
         (fun line =>
            List.map (pair line)
              (filter (fun n => inRange (rawAmountOf n)) (matchAll amountRe line)))
         lines).
Proof.
  revert i w. induction lines as [|line lines IH]; intros i w;
    cbn [forEachIndexed flat_map].
  - exists []. cbn [List.map]. rewrite !app_nil_r.
    split; [reflexivity|]. split; [reflexivity|constructor].
  - destruct (ocrLine_both b w i line) as (n1 & H1 & P1 & F1).
    destruct (IH (S i) (ocrLine b h w i line)) as (n2 & H2 & P2 & F2).
    exists (n1 ++ n2). rewrite H2, H1, P2, P1, map_app, <- !app_assoc.
    split; [reflexivity|]. split; [reflexivity|]. now apply Forall2_app.
Qed.

(** The candidates and the rows that an image adds, side by side. *)
Lemma processReceipt_both (b : build) (text : str) (w : World) :
  exists new,
    ocrLines (processReceiptWithOCR b h (Some text) w) = keptLines b w ++ new /\
    ocrPreview (processReceiptWithOCR b h (Some text) w)
    = previewAfter b (ocrPreview w) (List.map (rowOf h) new) /\
    Forall2 (extractedFrom b) new (survivors text).
Proof.
  unfold processReceiptWithOCR, survivors, keptLines.
  destruct b.
  - destruct (forEach_both dashboard_js (split newline text) 0 (setOcrLines [] w))
      as (new & Hnew & Hrows & Hall).
    exists new. split; [exact Hnew|]. split; [|exact Hall].
    rewrite Hrows. cbn [ocrPreview setOcrLines]. unfold previewAfter.
    now destruct (List.map (rowOf h) new).
  - destruct (forEach_both part_000 (split newline text) 0 w)
      as (new & Hnew & Hrows & Hall).
    exists new. rewrite Hnew. split; [now destruct (_ =? _)%nat|].
    split; [|exact Hall].
    destruct new as [|c new].
    + rewrite app_nil_r, Nat.eqb_refl. reflexivity.
    + replace (length (ocrLines w ++ c :: new) =? length (ocrLines w))%nat
        with false
        by (symmetry; apply Nat.eqb_neq; rewrite length_app; cbn [length]; lia).
      exact Hrows.
Qed.
End PreviewFacts.

Lemma find_row_of_candidate (h : Host) (new : list Candidate) (c : Candidate) :
  In c new ->
  exists c', In c' new /\
    find (fun r => str_eqb (row_id r) (line_id c)) (List.map (rowOf h) new)
    = Some (rowOf h c').
Proof.
  intro Hin.
  destruct (find (fun r => str_eqb (row_id r) (line_id c)) (List.map (rowOf h) new))
    as [r|] eqn:E.
  - apply find_some in E. destruct E as [Hr _].
    apply in_map_iff in Hr. destruct Hr as (c' & <- & Hc'). now exists c'.
  - exfalso. apply find_none with (x := rowOf h c) in E.
    + cbn [rowOf row_id] in E. apply str_eqb_neq in E. now apply E.
    + now apply in_map.
Qed.

Lemma Forall2_In_left {A B : Type} (R : A -> B -> Prop) (l : list A) (l' : list B)
  (x : A) :
  Forall2 R l l' -> In x l -> exists y, In y l' /\ R x y.
Proof.
  induction 1 as [|a b l l' Hab _ IH]; intros [].
  - subst. exists b. split; [now left | exact Hab].
  - destruct (IH H) as (y & Hy & Hxy). exists y. split; [now right | exact Hxy].
Qed.

(** X13.  In dashboard.js the candidates are emptied at every image while
    the preview is not: after two images of one batch the preview shows the
    rows of both, the candidates are those of the second image alone, and
    the confirmation appends at most as many transactions as the second
    image has candidates.  In the copy of part_000 the candidates of both
    images are kept. *)
Theorem batch_of_two_images (h : Host) (t1 t2 : str) (w : World) :
  (let w2 := processReceiptWithOCR dashboard_js h (Some t2)
               (processReceiptWithOCR dashboard_js h (Some t1) w) in
   length (ocrPreview w2)
   = (length (ocrPreview w) + length (survivors t1) + length (survivors t2))%nat /\
   Forall2 (extractedFrom dashboard_js) (ocrLines w2) (survivors t2) /\
   exists new,
     transactions (confirmOCR h w2) = transactions w ++ new /\
     (length new <= length (survivors t2))%nat) /\
  (let w2 := processReceiptWithOCR part_000 h (Some t2)
               (processReceiptWithOCR part_000 h (Some t1) w) in
   exists n1 n2,
     ocrLines w2 = ocrLines w ++ n1 ++ n2 /\
     Forall2 (extractedFrom part_000) n1 (survivors t1) /\
     Forall2 (extractedFrom part_000) n2 (survivors t2)).
Proof.
  split; cbv zeta.
  - set (w1 := processReceiptWithOCR dashboard_js h (Some t1) w).
    destruct (processReceipt_both h dashboard_js t1 w) as (n1 & _ & P1 & F1).
    destruct (processReceipt_both h dashboard_js t2 w1) as (n2 & L2 & P2 & F2).
    fold w1 in P1. cbn [keptLines app] in L2.
    assert (Hprev : forall rows rows', previewAfter dashboard_js rows rows'
                                       = rows ++ rows')
      by (intros rows [|r rows']; reflexivity).
    rewrite Hprev in P1, P2. split; [|split].
    + rewrite P2, P1, !length_app, !length_map.
      now rewrite (Forall2_length F1), (Forall2_length F2).
    + now rewrite L2.
    + destruct (confirmOCR_adds h
                  (processReceiptWithOCR dashboard_js h (Some t2) w1))
        as (new & Hnew & Hlen).
      exists new. split.
      * rewrite Hnew.
        rewrite (proj1 (processReceipt_ledger dashboard_js h (Some t2) w1)).
        unfold w1.
        now rewrite (proj1 (processReceipt_ledger dashboard_js h (Some t1) w)).
      * rewrite Hlen, L2, <- (Forall2_length F2). apply filter_length_le.
  - destruct (processReceipt_both h part_000 t1 w) as (n1 & L1 & _ & F1).
    destruct (processReceipt_both h part_000 t2
                (processReceiptWithOCR part_000 h (Some t1) w))
      as (n2 & L2 & _ & F2).
    exists n1, n2. cbn [keptLines] in L1, L2.
    rewrite L2, L1, <- app_assoc. now repeat split.
Qed.

(** X14.  Confirming a preview as the recognition left it records every
    candidate: from a page without candidates and with an empty preview,
    the recognition of an image followed by the confirmation appends as many
    transactions as the text has matches in the range, provided the host
    prints each of these amounts as a text that [parseFloat] reads as a
    positive number. *)
Theorem confirm_of_unedited_preview (b : build) (h : Host) (text : str) (w : World) :
  ocrLines w = [] -> ocrPreview w = [] ->
  (forall p, In p (survivors text) ->
     ngtb (parseFloat (numberToString h (rawAmountOf (snd p)))) (Fin 0) = true) ->
  exists new,
    transactions (confirmOCR h (processReceiptWithOCR b h (Some text) w))
    = transactions w ++ new /\
    length new = length (survivors text).
Proof.
  intros Hlines Hrows Hprint.
  set (w1 := processReceiptWithOCR b h (Some text) w).
  destruct (processReceipt_both h b text w) as (new & L & P & F). fold w1 in L, P.
  assert (HL : ocrLines w1 = new).
  { rewrite L. unfold keptLines. destruct b; [reflexivity | now rewrite Hlines]. }
  assert (HP : ocrPreview w1 = List.map (rowOf h) new).
  { rewrite P, Hrows. unfold previewAfter. now destruct b, (List.map (rowOf h) new). }
  destruct (confirmOCR_adds h w1) as (added & Hadded & Hlen).
  exists added. split.
  - rewrite Hadded. unfold w1.
    now rewrite (proj1 (processReceipt_ledger b h (Some text) w)).
  - rewrite Hlen, HL, <- (Forall2_length F). f_equal. apply filter_all.
    intros c Hc. unfold commits, selected, amountPositive, getRow. rewrite HP.
    destruct (find_row_of_candidate h new c Hc) as (c' & Hc' & ->).
    cbn [rowOf row_checked row_amount andb].
    destruct (Forall2_In_left _ F Hc') as (p & Hp & Hamount & _).
    rewrite Hamount. now apply Hprint.
Qed.

Lemma confirm_of_unedited_preview_witness :
  ocrLines emptyWorld = [] /\ ocrPreview emptyWorld = [] /\
  (forall p, In p (survivors (js "Bread 500")) ->
     ngtb (parseFloat (numberToString sampleHost (rawAmountOf (snd p)))) (Fin 0)
     = true) /\
  exists new,
    transactions
      (confirmOCR sampleHost
         (processReceiptWithOCR dashboard_js sampleHost (Some (js "Bread 500"))
            emptyWorld))
    = transactions emptyWorld ++ new /\
    length new = length (survivors (js "Bread 500")).
Proof.
  assert (Hprint : forall p, In p (survivors (js "Bread 500")) ->
            ngtb (parseFloat (numberToString sampleHost (rawAmountOf (snd p))))
              (Fin 0) = true).
  { intros p Hp. vm_compute in Hp. destruct Hp as [<-|[]]. vm_compute. reflexivity. }
  split; [reflexivity|]. split; [reflexivity|]. split; [exact Hprint|].
  exact (confirm_of_unedited_preview dashboard_js sampleHost (js "Bread 500")
           emptyWorld eq_refl eq_refl Hprint).
Defined.

(** ** The details and the kind of a candidate *)

Lemma collapse_plain (s : str) (inRun : bool) :
  plainText
    (collapseRuns isSpace space inRun
       (List.map (fun c => if isWord c || isSpace c then c else space) s)) = true.
Proof.
  unfold plainText. revert inRun.
  induction s as [|c s IH]; intro inRun; cbn [List.map collapseRuns forallb];
    [reflexivity|].
  destruct (isWord c) eqn:Ew; cbn [orb].
  - destruct (isSpace c) eqn:Es.
    + destruct inRun; cbn [forallb]; rewrite IH; reflexivity.
    + cbn [forallb]. now rewrite Ew, IH.
  - destruct (isSpace c) eqn:Es.
    + rewrite Es. destruct inRun; cbn [forallb]; rewrite IH; reflexivity.
    + change (isSpace space) with true. cbv iota.
      destruct inRun; cbn [forallb]; rewrite IH; reflexivity.
Qed.

Lemma forallb_sub (f : N -> bool) (s t : str) :
  (forall x, In x t -> In x s) -> forallb f s = true -> forallb f t = true.
Proof.
  intros Hsub Hs. apply forallb_forall. intros x Hx.
  rewrite forallb_forall in Hs. now apply Hs, Hsub.
Qed.

Lemma firstn_In {A : Type} (n : nat) (l : list A) (x : A) :
  In x (firstn n l) -> In x l.
Proof.
  intro Hin. rewrite <- (firstn_skipn n l). apply in_or_app. now left.
Qed.

Lemma describedDetails_plain (line numStr : str) :
  plainText (describedDetails line numStr) = true /\
  (length (describedDetails line numStr) <= 50)%nat.
Proof.
  unfold describedDetails. split; [|apply firstn_le_length].
  unfold plainText.
  eapply forallb_sub; [|apply (collapse_plain (replaceFirst numStr [] line) false)].
  intros x Hx. now apply firstn_In, trim_In in Hx.
Qed.

Lemma receiptDetails_plain (b : build) (line numStr : str) :
  nonEmpty (receiptDetails b line numStr) = true /\
  (length (receiptDetails b line numStr) <= 50)%nat /\
  plainText (receiptDetails b line numStr) = true.
Proof.
  unfold receiptDetails. rewrite cleanDetails_described.
  destruct (describedDetails_plain line numStr) as [Hplain Hlen].
  assert (Hph : nonEmpty placeholder = true /\ (length placeholder <= 50)%nat /\
                plainText placeholder = true).
  { split; [reflexivity|]. split; [vm_compute; lia | reflexivity]. }
  destruct b.
  - destruct (nonEmpty (describedDetails line numStr)) eqn:E; [|exact Hph].
    now repeat split.
  - destruct (negb (nonEmpty (describedDetails line numStr))
              || (length (describedDetails line numStr) <? 3)%nat) eqn:E;
      [exact Hph|].
    apply orb_false_iff in E. destruct E as [E _]. apply negb_false_iff in E.
    now repeat split.
Qed.

(** X15.  The details of every candidate that the recognition of an image
    adds are not empty, have at most 50 code units, and consist of letters,
    digits, underscores and spaces only: no quote, angle bracket or
    ampersand reaches the markup of the preview row. *)
Theorem candidate_details_are_plain_text (b : build) (h : Host) (text : str)
  (w : World) :
  exists new,
    ocrLines (processReceiptWithOCR b h (Some text) w) = keptLines b w ++ new /\
    ocrPreview (processReceiptWithOCR b h (Some text) w)
    = previewAfter b (ocrPreview w) (List.map (rowOf h) new) /\
    Forall
      (fun c =>
         nonEmpty (line_details c) = true /\
         (length (line_details c) <= 50)%nat /\
         plainText (line_details c) = true)
      new.
Proof.
  destruct (processReceipt_both h b text w) as (new & L & P & F).
  exists new. split; [exact L|]. split; [exact P|]. clear L P.
  induction F as [|c p new ps Hc _ IH]; constructor; [|exact IH].
  destruct Hc as (_ & _ & ->). apply receiptDetails_plain.
Qed.

Lemma rmatch_word_unit (word s : str) (k : str -> option str) :
  rmatch (fold_right (fun c r => Cat (Unit c) r) Eps word) s k
  = if startsWith word s then k (skipn (length word) s) else None.
Proof.
  revert s. induction word as [|c word IH]; intro s;
    cbn [fold_right rmatch startsWith length skipn]; [reflexivity|].
  destruct s as [|x s]; [reflexivity|]. unfold Unit at 1. cbn [rmatch skipn].
  destruct (c =? x)%N; cbn [andb]; [apply IH | reflexivity].
Qed.

Lemma rmatch_word_unitI (word s : str) (k : str -> option str) :
  (forall c, In c word -> lowerUnit c = c) ->
  rmatch (fold_right (fun c r => Cat (UnitI c) r) Eps word) s k
  = if startsWith word (toLowerCase s) then k (skipn (length word) s) else None.
Proof.
  revert s. induction word as [|c word IH]; intros s Hlow;
    cbn [fold_right rmatch startsWith length skipn]; [reflexivity|].
  destruct s as [|x s]; [reflexivity|]. unfold UnitI at 1.
  cbn [rmatch skipn toLowerCase List.map startsWith].
  rewrite (Hlow c) by now left. rewrite (N.eqb_sym (lowerUnit x) c).
  destruct (c =? lowerUnit x)%N; cbn [andb]; [|reflexivity].
  apply IH. intros c' Hc'. apply Hlow. now right.
Qed.

Lemma test_anywhere (r : regex) (s : str) :
  test r s
  = anywhere (fun x => match rmatch r x Some with Some _ => true | None => false end) s.
Proof.
  induction s as [|c s IH]; cbn [test anywhere]; unfold matchHead.
  - now destruct (rmatch r [] Some).
  - destruct (rmatch r (c :: s) Some); [reflexivity|]. exact IH.
Qed.

Lemma includes_anywhere (p s : str) : includes p s = anywhere (startsWith p) s.
Proof.
  induction s as [|c s IH]; cbn [includes anywhere]; [reflexivity|]. now rewrite IH.
Qed.

Lemma anywhere_ext (f g : str -> bool) (s : str) :
  (forall x, f x = g x) -> anywhere f s = anywhere g s.
Proof.
  intro Hfg. induction s as [|c s IH]; cbn [anywhere]; rewrite Hfg; [reflexivity|].
  now rewrite IH.
Qed.

Lemma anywhere_orb (f g : str -> bool) (s : str) :
  anywhere (fun x => f x || g x) s = anywhere f s || anywhere g s.
Proof.
  induction s as [|c s IH]; cbn [anywhere].
  - now rewrite !orb_false_r.
  - rewrite IH. destruct (f (c :: s)), (g (c :: s)), (anywhere f s); reflexivity.
Qed.

Lemma anywhere_lower (f : str -> bool) (s : str) :
  anywhere (fun x => f (toLowerCase x)) s = anywhere f (toLowerCase s).
Proof.
  unfold toLowerCase.
  induction s as [|c s IH]; cbn [anywhere List.map]; [reflexivity|].
  now rewrite IH.
Qed.

Lemma vatWords_at (f : N -> regex) (g : str -> str) (s : str) :
  (forall word k, In word vatKeywords ->
     rmatch (fold_right (fun c r => Cat (f c) r) Eps word) s k
     = if startsWith word (g s) then k (skipn (length word) s) else None) ->
  match rmatch (vatWords f) s Some with Some _ => true | None => false end
  = existsb (fun word => startsWith word (g s)) vatKeywords.
Proof.
  intro Hword. unfold vatWords, Word, vatKeywords. cbn [rmatch existsb].
  rewrite !Hword by (cbn; tauto).
  destruct (startsWith (js "vat") (g s)); [reflexivity|].
  destruct (startsWith (js "tax") (g s)); [reflexivity|].
  destruct (startsWith (js "excise") (g s)); [reflexivity|].
  destruct (startsWith (js "levy") (g s)); reflexivity.
Qed.

Lemma anywhere_keywords (words : list str) (s : str) :
  anywhere (fun x => existsb (fun word => startsWith word x) words) s
  = existsb (fun word => includes word s) words.
Proof.
  induction words as [|word words IH]; cbn [existsb].
  - induction s as [|c s IHs]; cbn [anywhere]; [reflexivity | exact IHs].
  - now rewrite anywhere_orb, IH, includes_anywhere.
Qed.

Lemma keywords_lower (word : str) (c : N) :
  In word vatKeywords -> In c word -> lowerUnit c = c.
Proof.
  unfold vatKeywords. cbn [In]. intros [<-|[<-|[<-|[<-|[]]]]] Hc;
    vm_compute in Hc; repeat (destruct Hc as [<-|Hc]; [reflexivity|]);
    destruct Hc.
Qed.

(** X16.  A line is a VAT line exactly when its text, with the letters A to
    Z lower-cased, contains one of [vat], [tax], [excise], [levy] anywhere,
    inside a longer word too; every other line is a Consumption line.  The
    two copies of the script, one with a case-insensitive pattern and one
    with a pattern on the lower-cased line, decide alike. *)
Theorem receiptType_by_keyword (b : build) (line : str) :
  receiptType b line
  = if existsb (fun word => includes word (toLowerCase line)) vatKeywords
    then js "VAT" else js "Consumption".
Proof.
  unfold receiptType.
  assert (Hb : match b with
               | dashboard_js => test (vatWords UnitI) line
               | part_000 => test (vatWords Unit) (toLowerCase line)
               end
               = existsb (fun word => includes word (toLowerCase line)) vatKeywords).
  { rewrite <- anywhere_keywords. destruct b; rewrite test_anywhere.
    - rewrite <- anywhere_lower. apply anywhere_ext. intro x.
      apply (vatWords_at UnitI toLowerCase). intros word k Hin.
      apply rmatch_word_unitI. intro c. now apply keywords_lower.
    - apply anywhere_ext. intro x.
      apply (vatWords_at Unit (fun y => y)). intros word k Hin.
      apply rmatch_word_unit. }
  now rewrite Hb.
Qed.

(** ** Export and import *)

Lemma splitAcc_app (sep : N) (a acc rest : str) :
  ~ In sep a ->
  splitAcc sep acc (a ++ sep :: rest) = (rev acc ++ a) :: splitAcc sep [] rest.
Proof.
  revert acc. induction a as [|c a IH]; intros acc Ha; cbn [app splitAcc].
  - now rewrite N.eqb_refl, app_nil_r.
  - destruct (c =? sep)%N eqn:E.
    + apply N.eqb_eq in E. exfalso. apply Ha. now left.
    + rewrite IH by (intro Hin; apply Ha; now right).
      cbn [rev]. now rewrite <- app_assoc.
Qed.

Lemma split_app (sep : N) (a rest : str) :
  ~ In sep a -> split sep (a ++ sep :: rest) = a :: split sep rest.
Proof. intro Ha. unfold split. now rewrite splitAcc_app. Qed.

Lemma splitAcc_length (sep : N) (s acc : str) :
  (1 <= length (splitAcc sep acc s))%nat.
Proof.
  revert acc. induction s as [|c s IH]; intro acc; cbn [splitAcc length]; [lia|].
  destruct (c =? sep)%N; [cbn [length]; lia | apply IH].
Qed.

Lemma no_unit_iff (c : N) (s : str) :
  negb (existsb (N.eqb c) s) = true <-> ~ In c s.
Proof.
  rewrite negb_true_iff. split.
  - intros Hex Hin. assert (Ht : existsb (N.eqb c) s = true).
    { apply existsb_exists. exists c. split; [exact Hin | apply N.eqb_refl]. }
    congruence.
  - intro Hin. destruct (existsb (N.eqb c) s) eqn:E; [|reflexivity].
    apply existsb_exists in E. destruct E as (x & Hx & Hcx).
    apply N.eqb_eq in Hcx. subst x. contradiction.
Qed.

Lemma dropWhile_keeps (p : N -> bool) (s : str) (c : N) :
  In c s -> p c = false -> In c (dropWhile p s).
Proof.
  induction s as [|x s IH]; cbn [dropWhile]; [tauto|].
  intros Hin Hc. destruct (p x) eqn:E; [|exact Hin].
  destruct Hin as [->|Hin]; [congruence | now apply IH].
Qed.

Lemma trim_nonEmpty (s : str) (c : N) :
  In c s -> isSpace c = false -> nonEmpty (trim s) = true.
Proof.
  intros Hin Hc. unfold trim.
  assert (H : In c (rev (dropWhile isSpace (rev (dropWhile isSpace s))))).
  { apply -> in_rev. apply dropWhile_keeps; [|exact Hc].
    apply -> in_rev. now apply dropWhile_keeps. }
  now destruct (rev _).
Qed.

Lemma export_text (h : Host) (l : list Transaction) (init : str) :
  fold_left (fun csv tx => csv ++ exportRow h tx) l init
  = init ++ flat_map (fun tx => exportLine h tx ++ [newline]) l.
Proof.
  revert init. induction l as [|tx l IH]; intro init; cbn [fold_left flat_map].
  - now rewrite app_nil_r.
  - rewrite IH, <- app_assoc. do 2 f_equal. unfold exportRow, exportLine.
    now rewrite <- !app_assoc.
Qed.

Lemma split_export_rows (h : Host) (l : list Transaction) :
  forallb (fun tx => oneLine (exportLine h tx)) l = true ->
  split newline (flat_map (fun tx => exportLine h tx ++ [newline]) l)
  = List.map (exportLine h) l ++ [[]].
Proof.
  induction l as [|tx l IH]; cbn [forallb flat_map List.map app]; [reflexivity|].
  rewrite andb_true_iff. intros [Htx Hl].
  rewrite <- app_assoc. cbn [app]. rewrite split_app by now apply no_unit_iff.
  now rewrite IH.
Qed.

Lemma exported_line_commits (h : Host) (tx : Transaction) :
  datedRow h tx = true ->
  nonEmpty (trim (exportLine h tx)) = true /\
  rowCommits (exportLine h tx) = true /\
  firstPositive (csvCols (exportLine h tx)) = colNumber (cleanField (tx_date tx)).
Proof.
  unfold datedRow. rewrite !andb_true_iff. intros [[_ Hcomma] Hpos].
  apply no_unit_iff in Hcomma. split.
  - apply (@trim_nonEmpty _ comma); [|reflexivity].
    unfold exportLine. apply in_or_app. right. now left.
  - assert (Hcols : csvCols (exportLine h tx)
                    = cleanField (tx_date tx)
                      :: List.map cleanField
                           (split comma
                              (tx_type tx ++ [comma]
                               ++ numberToString h (tx_amount tx) ++ [comma; quote]
                               ++ tx_details tx ++ [quote]))).
    { unfold csvCols, exportLine. cbn [app]. now rewrite split_app. }
    assert (Hfirst : firstPositive (csvCols (exportLine h tx))
                     = colNumber (cleanField (tx_date tx))).
    { rewrite Hcols. unfold firstPositive. cbn [find]. now rewrite Hpos. }
    split; [|exact Hfirst]. unfold rowCommits. rewrite Hfirst.
    apply andb_true_iff. split.
    + apply Nat.leb_le. rewrite Hcols. cbn [length]. rewrite length_map.
      pose proof (splitAcc_length comma
                    (tx_type tx ++ [comma] ++ numberToString h (tx_amount tx)
                     ++ [comma; quote] ++ tx_details tx ++ [quote]) []) as Hlen.
      unfold split. lia.
    + unfold positiveField in Hpos. now apply andb_true_iff in Hpos.
Qed.

Lemma csvDataLines_of_export (h : Host) (l : list Transaction) :
  forallb (datedRow h) l = true ->
  csvDataLines (exportHeader ++ flat_map (fun tx => exportLine h tx ++ [newline]) l)
  = List.map (exportLine h) l.
Proof.
  intro Hall. unfold csvDataLines.
  change exportHeader
    with ((js "Date,Type,Amount (" ++ [naira] ++ js "),Details") ++ [newline]).
  rewrite <- app_assoc. cbn [app].
  rewrite split_app by (vm_compute; intuition discriminate).
  rewrite split_export_rows.
  2:{ apply forallb_forall. intros tx Htx. rewrite forallb_forall in Hall.
      specialize (Hall tx Htx). unfold datedRow in Hall.
      rewrite !andb_true_iff in Hall. tauto. }
  cbn [filter].
  match goal with
  | |- context [nonEmpty (trim ?hdr)] =>
      is_ground hdr; compute_closed (nonEmpty (trim hdr))
  end.
  cbv iota. rewrite filter_app. cbn [filter].
  compute_closed (nonEmpty (trim [])). cbv iota. rewrite app_nil_r.
  rewrite filter_all.
  2:{ intros line Hin. apply in_map_iff in Hin. destruct Hin as (tx & <- & Htx).
      rewrite forallb_forall in Hall. now apply exported_line_commits, Hall. }
  match goal with
  | |- context [if ?c then 1%nat else 0%nat] => compute_closed c
  end.
  reflexivity.
Qed.

(** X17.  An exported file does not come back as it went out.  When the
    rows of the export are read by the import (each transaction giving one
    line, with a date that has no comma and begins with a positive number,
    as an ISO date does), every row is recorded as a VAT transaction whose
    amount is [calculateVAT] of the number the date begins with: the date
    is the first field with a positive number, and the kind and the amount
    of the exported transaction are not read. *)
Theorem import_of_an_export_reads_the_dates (h : Host) (name : str) (w w' : World)
  (d : Download) :
  fst (exportTransactionsCSV h w) = Some d ->
  forallb (datedRow h) (transactions w) = true ->
  exists new,
    transactions (processCSV h name (content d) w') = transactions w' ++ new /\
    List.map (fun tx => (tx_type tx, tx_amount tx)) new
    = List.map
        (fun tx => (js "VAT", calculateVAT (colNumber (cleanField (tx_date tx)))))
        (transactions w).
Proof.
  intros Hexport Hall.
  assert (Hd : content d
               = fold_left (fun csv tx => csv ++ exportRow h tx) (transactions w)
                   exportHeader).
  { unfold exportTransactionsCSV in Hexport.
    destruct (transactions w); [discriminate Hexport|].
    cbn [fst] in Hexport. injection Hexport as <-. reflexivity. }
  rewrite Hd, export_text, processCSV_fold.
  rewrite csvDataLines_of_export by exact Hall.
  destruct (csvRows_effect h name (List.map (exportLine h) (transactions w)) w')
    as (new & Hnew & Hmap).
  exists new. split; [exact Hnew|]. rewrite Hmap.
  rewrite filter_all.
  2:{ intros line Hin. apply in_map_iff in Hin. destruct Hin as (tx & <- & Htx).
      rewrite forallb_forall in Hall. now apply exported_line_commits, Hall. }
  rewrite map_map. apply map_ext_in. intros tx Htx.
  rewrite forallb_forall in Hall.
  now rewrite (proj2 (proj2 (exported_line_commits h tx (Hall tx Htx)))).
Qed.

Lemma import_of_an_export_reads_the_dates_witness :
  let w := addAll sampleHost [sampleInput "VAT" 375.04; sampleInput "PAYE" 54000]
             emptyWorld in
  exists d,
    fst (exportTransactionsCSV sampleHost w) = Some d /\
    forallb (datedRow sampleHost) (transactions w) = true /\
    exists new,
      transactions (processCSV sampleHost (js "export.csv") (content d) emptyWorld)
      = transactions emptyWorld ++ new /\
      List.map (fun tx => (tx_type tx, tx_amount tx)) new
      = List.map
          (fun tx => (js "VAT", calculateVAT (colNumber (cleanField (tx_date tx)))))
          (transactions w).
Proof.
  cbv zeta.
  assert (He : {d | fst (exportTransactionsCSV sampleHost
                           (addAll sampleHost
                              [sampleInput "VAT" 375.04; sampleInput "PAYE" 54000]
                              emptyWorld)) = Some d})
    by (eexists; vm_compute; reflexivity).
  destruct He as [d He].
  assert (Hall : forallb (datedRow sampleHost)
                   (transactions
                      (addAll sampleHost
                         [sampleInput "VAT" 375.04; sampleInput "PAYE" 54000]
                         emptyWorld)) = true)
    by (vm_compute; reflexivity).
  exists d. split; [exact He|]. split; [exact Hall|].
  exact (import_of_an_export_reads_the_dates sampleHost (js "export.csv") _
           emptyWorld He Hall).
Defined.

(** ** The user, the session and the settings *)

Lemma getProp_setProp (k k' : str) (v : value) (o : object) :
  getProp k (setProp k' v o) = if str_eqb k' k then Some v else getProp k o.
Proof.
  induction o as [|[k0 v0] o IH]; cbn [setProp getProp]; [reflexivity|].
  destruct (str_eqb k0 k') eqn:E0; cbn [getProp].
  - apply str_eqb_eq in E0. subst k0. now destruct (str_eqb k' k).
  - rewrite IH. destruct (str_eqb k0 k) eqn:E1; [|reflexivity].
    apply str_eqb_eq in E1. subst k0.
    destruct (str_eqb k' k) eqn:E2; [|reflexivity].
    apply str_eqb_eq in E2. subst k'.
    rewrite (proj2 (str_eqb_eq k k) eq_refl) in E0. discriminate E0.
Qed.

Lemma getProp_spread_absent (k : str) (a b : object) :
  getProp k b = None -> getProp k (spread a b) = getProp k a.
Proof.
  unfold spread. revert a.
  induction b as [|[k1 v1] b IH]; intros a Hb; cbn [fold_left fst snd];
    [reflexivity|].
  cbn [getProp] in Hb. destruct (str_eqb k1 k) eqn:E; [discriminate Hb|].
  rewrite IH by exact Hb. now rewrite getProp_setProp, E.
Qed.

Lemma getProp_none_iff (k : str) (o : object) :
  getProp k o = None <-> ~ In k (keys o).
Proof.
  induction o as [|[k0 v0] o IH]; cbn [getProp keys List.map fst In]; [tauto|].
  destruct (str_eqb k0 k) eqn:E.
  - apply str_eqb_eq in E. split; [discriminate | tauto].
  - apply str_eqb_neq in E. fold (keys o). rewrite IH. tauto.
Qed.

Lemma keys_setProp (k x : str) (v : value) (o : object) :
  In x (keys (setProp k v o)) <-> In x (keys o) \/ x = k.
Proof.
  induction o as [|[k0 v0] o IH]; cbn [setProp keys List.map fst In].
  - intuition congruence.
  - destruct (str_eqb k0 k) eqn:E; cbn [keys List.map fst In].
    + apply str_eqb_eq in E. subst k0. intuition congruence.
    + fold (keys (setProp k v o)). fold (keys o). rewrite IH. tauto.
Qed.

Lemma setProp_NoDup (k : str) (v : value) (o : object) :
  NoDup (keys o) -> NoDup (keys (setProp k v o)).
Proof.
  induction o as [|[k0 v0] o IH]; cbn [setProp keys List.map fst]; intro Hnd.
  - constructor; [intros [] | constructor].
  - inversion Hnd as [|? ? Hnotin Hrest]; subst.
    destruct (str_eqb k0 k) eqn:E; cbn [keys List.map fst].
    + now constructor.
    + constructor; [|now apply IH].
      fold (keys (setProp k v o)). rewrite keys_setProp.
      apply str_eqb_neq in E. intros [Hin|Heq]; [contradiction | congruence].
Qed.

Lemma spread_NoDup (a b : object) : NoDup (keys a) -> NoDup (keys (spread a b)).
Proof.
  unfold spread. revert a. induction b as [|[k v] b IH]; intros a Ha;
    cbn [fold_left fst snd]; [exact Ha|].
  now apply IH, setProp_NoDup.
Qed.

Lemma spread_keys (a b : object) (k : str) :
  In k (keys a) -> In k (keys (spread a b)).
Proof.
  unfold spread. revert a. induction b as [|[k1 v1] b IH]; intros a Ha;
    cbn [fold_left fst snd]; [exact Ha|].
  apply IH. apply keys_setProp. now left.
Qed.

Lemma getProp_spread (k : str) (a b : object) :
  NoDup (keys b) ->
  getProp k (spread a b)
  = match getProp k b with
    | Some v => Some v
    | None => getProp k a
    end.
Proof.
  unfold spread. revert a.
  induction b as [|[k1 v1] b IH]; intros a Hnd; cbn [fold_left fst snd getProp];
    [reflexivity|].
  cbn [keys List.map fst] in Hnd. inversion Hnd as [|? ? Hnotin Hrest]; subst.
  rewrite IH by exact Hrest. rewrite getProp_setProp.
  destruct (str_eqb k1 k) eqn:E; [|reflexivity].
  apply str_eqb_eq in E. subst k1.
  now rewrite (proj2 (getProp_none_iff k b) Hnotin).
Qed.

Lemma newApp_store (s : Store) : store (newApp s) = s.
Proof.
  unfold newApp, loadSettings, loadUser.
  destruct s as [flag [ | o | ] [ | o' | ]]; reflexivity.
Qed.

Lemma newApp_user (s : Store) :
  user (newApp s)
  = match userDataItem s with
    | Json o => Some o
    | Absent | Garbled => None
    end.
Proof.
  unfold newApp, loadSettings, loadUser.
  destruct s as [flag [ | o | ] [ | o' | ]]; reflexivity.
Qed.

Lemma newApp_settings (s : Store) :
  settings (newApp s)
  = match settingsItem s with
    | Json o => spread DEFAULT_SETTINGS o
    | Absent | Garbled => DEFAULT_SETTINGS
    end.
Proof.
  unfold newApp, loadSettings, loadUser.
  destruct s as [flag [ | o | ] [ | o' | ]]; reflexivity.
Qed.

Section AccountFacts.
Variable q : Quota.

Lemma strictEq_text (x : option value) (s : str) :
  strictEq x (Some (VText s)) = true -> x = Some (VText s).
Proof.
  destruct x as [[ | b | t]|]; cbn [strictEq]; try discriminate.
  intro H. apply str_eqb_eq in H. now subst.
Qed.

Lemma strictEq_refl (x : option value) : strictEq x x = true.
Proof.
  destruct x as [[ | b | t]|]; cbn [strictEq]; try reflexivity.
  - now destruct b.
  - now apply str_eqb_eq.
Qed.

Lemma newUser_email (now email : str) :
  getProp (js "email")
    (setProp (js "createdAt") (VText now)
       (setProp (js "lastName") (VText (js "User"))
          (setProp (js "firstName") (VText (hd [] (split 64 email)))
             (setProp (js "email") (VText email) DEFAULT_USER))))
  = Some (VText email).
Proof. reflexivity. Qed.

(** What a call of [login] that returns has done. *)
Lemma login_returns (now email password : str) (remember : bool) (a : App)
  (res : AuthResult) (a1 : App) :
  login q now email password remember a = Returns res a1 ->
  success res = true /\ isLoggedIn a1 = true /\
  exists u, user a1 = Some u /\ getProp (js "email") u = Some (VText email).
Proof.
  unfold login, getUserByEmail.
  destruct (user a) as [u|] eqn:Eu.
  - destruct (strictEq (getProp (js "email") u) (Some (VText email))) eqn:Ee.
    + destruct (flagFits q); [|discriminate]. intro H. injection H as <- <-.
      split; [reflexivity|]. split; [reflexivity|].
      exists u. split; [reflexivity|]. now apply strictEq_text.
    + destruct (flagFits q); [|discriminate]. intro H. injection H as <- <-.
      split; [reflexivity|]. split; [reflexivity|].
      eexists. split; [reflexivity|]. apply newUser_email.
  - destruct (flagFits q); [|discriminate]. intro H. injection H as <- <-.
    split; [reflexivity|]. split; [reflexivity|].
    eexists. split; [reflexivity|]. apply newUser_email.
Qed.

Lemma login_does_return (now email password : str) (remember : bool) (a : App) :
  flagFits q = true ->
  exists res a1, login q now email password remember a = Returns res a1.
Proof.
  intro Hfits. unfold login. rewrite Hfits.
  destruct (getUserByEmail _ a); do 2 eexists; reflexivity.
Qed.
End AccountFacts.

(** X18.  [login] checks no password: whatever the email, the password and
    the state of the application, if the storage takes the session flag the
    call returns a success, the application is logged in afterwards, and its
    user carries the email that was given. *)
Theorem login_succeeds_whatever_the_password (q : Quota) (now email password : str)
  (remember : bool) (a : App) :
  flagFits q = true ->
  exists res a1,
    login q now email password remember a = Returns res a1 /\
    success res = true /\ isLoggedIn a1 = true /\
    getProp (js "email") (getUser a1) = Some (VText email).
Proof.
  intro Hfits.
  destruct (login_does_return q now email password remember a Hfits)
    as (res & a1 & Hlogin).
  exists res, a1. split; [exact Hlogin|].
  destruct (login_returns _ _ _ _ _ _ Hlogin) as (Hs & Hl & u & Hu & He).
  split; [exact Hs|]. split; [exact Hl|]. unfold getUser. now rewrite Hu.
Qed.

Lemma login_succeeds_whatever_the_password_witness :
  flagFits roomyQuota = true /\
  exists res a1,
    login roomyQuota (js "2024-05-01T10:00:00.000Z") (js "eve@example.com")
      (js "wrong password") false (newApp adaStore)
    = Returns res a1 /\
    success res = true /\ isLoggedIn a1 = true /\
    getProp (js "email") (getUser a1) = Some (VText (js "eve@example.com")).
Proof.
  split; [reflexivity|].
  exact (@login_succeeds_whatever_the_password roomyQuota
           (js "2024-05-01T10:00:00.000Z") (js "eve@example.com")
           (js "wrong password") false (newApp adaStore) eq_refl).
Defined.

(** X19.  After a [login] that has returned, a [signup] whose data carry
    the same email is refused, and it changes neither the application nor
    the storage. *)
Theorem signup_refuses_the_email_logged_in (q : Quota) (now now' email password : str)
  (remember : bool) (a a1 : App) (res : AuthResult) (userData : object) :
  login q now email password remember a = Returns res a1 ->
  getProp (js "email") userData = Some (VText email) ->
  signup q now' userData a1
  = Returns {| success := false;
               message := js "An account with this email already exists." |} a1.
Proof.
  intros Hlogin Hemail.
  destruct (login_returns _ _ _ _ _ _ Hlogin) as (_ & _ & u & Hu & He).
  unfold signup, getUserByEmail. now rewrite Hu, Hemail, He, strictEq_refl.
Qed.

Lemma signup_refuses_the_email_logged_in_witness :
  exists res a1,
    login roomyQuota (js "2024-05-01T10:00:00.000Z") (js "ada@example.com")
      (js "pw") false (newApp emptyStore) = Returns res a1 /\
    getProp (js "email") [(js "email", VText (js "ada@example.com"))]
    = Some (VText (js "ada@example.com")) /\
    signup roomyQuota (js "2024-05-02T10:00:00.000Z")
      [(js "email", VText (js "ada@example.com"))] a1
    = Returns {| success := false;
                 message := js "An account with this email already exists." |} a1.
Proof.
  do 2 eexists. split; [reflexivity|]. split; [reflexivity|].
  exact (@signup_refuses_the_email_logged_in roomyQuota
           (js "2024-05-01T10:00:00.000Z") (js "2024-05-02T10:00:00.000Z")
           (js "ada@example.com") (js "pw") false (newApp emptyStore) _ _
           [(js "email", VText (js "ada@example.com"))] eq_refl eq_refl).
Defined.

(** X20.  [logout] leaves the user data in the storage.  After a logout
    and a new page load the application is not logged in, and a [login]
    with the email of the stored data finds them: the user is the stored
    object, unchanged, and the storage still holds it. *)
Theorem profile_survives_logout (q : Quota) (now email password : str)
  (remember : bool) (a : App) (o : object) :
  userDataItem (store a) = Json o ->
  getProp (js "email") o = Some (VText email) ->
  flagFits q = true ->
  let a' := newApp (store (logout a)) in
  isLoggedIn a' = false /\
  exists res a'',
    login q now email password remember a' = Returns res a'' /\
    success res = true /\ isLoggedIn a'' = true /\
    user a'' = Some o /\ userDataItem (store a'') = Json o.
Proof.
  intros Hitem Hemail Hfits. cbv zeta.
  assert (Hstore : store (logout a)
                   = {| loggedInItem := None; userDataItem := Json o;
                        settingsItem := settingsItem (store a) |}).
  { unfold logout. cbn [store setLocation setUser setLoggedInItem].
    now rewrite Hitem. }
  rewrite Hstore.
  set (s := {| loggedInItem := None; userDataItem := Json o;
               settingsItem := settingsItem (store a) |}).
  assert (Hu : user (newApp s) = Some o) by (now rewrite newApp_user).
  split.
  - unfold isLoggedIn. now rewrite newApp_store.
  - unfold login, getUserByEmail. rewrite Hu, Hemail, strictEq_refl, Hfits.
    do 2 eexists. split; [reflexivity|].
    split; [reflexivity|]. split; [reflexivity|]. split; [reflexivity|].
    cbn [store setUser setLoggedInItem userDataItem]. now rewrite newApp_store.
Qed.

Lemma profile_survives_logout_witness :
  exists o,
    userDataItem (store (newApp adaStore)) = Json o /\
    getProp (js "email") o = Some (VText (js "ada@example.com")) /\
    flagFits roomyQuota = true /\
    let a' := newApp (store (logout (newApp adaStore))) in
    isLoggedIn a' = false /\
    exists res a'',
      login roomyQuota (js "2024-05-03T10:00:00.000Z") (js "ada@example.com")
        (js "pw") false a' = Returns res a'' /\
      success res = true /\ isLoggedIn a'' = true /\
      user a'' = Some o /\ userDataItem (store a'') = Json o.
Proof.
  eexists. split; [reflexivity|]. split; [reflexivity|]. split; [reflexivity|].
  exact (@profile_survives_logout roomyQuota (js "2024-05-03T10:00:00.000Z")
           (js "ada@example.com") (js "pw") false (newApp adaStore) _
           eq_refl eq_refl eq_refl).
Defined.

Lemma DEFAULT_USER_keys : NoDup (keys DEFAULT_USER).
Proof.
  repeat (constructor; [vm_compute; intuition discriminate|]). constructor.
Qed.

Lemma DEFAULT_SETTINGS_keys : NoDup (keys DEFAULT_SETTINGS).
Proof.
  repeat (constructor; [vm_compute; intuition discriminate|]). constructor.
Qed.

Lemma newUser_keys (now email k : str) :
  getProp k DEFAULT_USER = None ->
  getProp k
    (setProp (js "createdAt") (VText now)
       (setProp (js "lastName") (VText (js "User"))
          (setProp (js "firstName") (VText (hd [] (split 64 email)))
             (setProp (js "email") (VText email) DEFAULT_USER))))
  = None.
Proof.
  intro Hk. rewrite !getProp_setProp.
  assert (Hne : forall key, getProp key DEFAULT_USER <> None -> str_eqb key k = false).
  { intros key Hkey. apply str_eqb_neq. intros ->. contradiction. }
  rewrite !Hne by (vm_compute; discriminate). exact Hk.
Qed.

(** X21.  A login with an email other than the one of the current user
    stores the new user merged over the old one.  A property of the old user
    that is not one of the default properties is therefore absent from the
    user in memory, but it is kept in the storage, and after the next page
    load the user, now under the new email, has it again. *)
Theorem login_as_another_keeps_foreign_fields (q : Quota) (now email password : str)
  (remember : bool) (a : App) (u : object) (k : str) (v : value) :
  user a = Some u ->
  strictEq (getProp (js "email") u) (Some (VText email)) = false ->
  flagFits q = true -> (forall o, userFits q o = true) ->
  getProp k u = Some v -> getProp k DEFAULT_USER = None ->
  exists res a1,
    login q now email password remember a = Returns res a1 /\
    getProp k (getUser a1) = None /\
    getProp k (getUser (newApp (store a1))) = Some v /\
    getProp (js "email") (getUser (newApp (store a1))) = Some (VText email).
Proof.
  intros Hu Hother Hflag Hfits Hold Hforeign.
  unfold login, getUserByEmail. rewrite Hu, Hother, Hflag.
  do 2 eexists. split; [reflexivity|].
  unfold saveUser. rewrite Hu, Hfits. cbn [snd].
  split; [|split].
  - cbn [getUser user setUser]. now apply newUser_keys.
  - unfold getUser. rewrite newApp_user.
    cbn [store setUser setLoggedInItem setUserDataItem userDataItem].
    rewrite getProp_spread_absent by now apply newUser_keys. exact Hold.
  - unfold getUser. rewrite newApp_user.
    cbn [store setUser setLoggedInItem setUserDataItem userDataItem].
    rewrite getProp_spread by (do 4 apply setProp_NoDup; exact DEFAULT_USER_keys).
    now rewrite newUser_email.
Qed.

Lemma login_as_another_keeps_foreign_fields_witness :
  exists u,
    user (newApp adaStore) = Some u /\
    strictEq (getProp (js "email") u) (Some (VText (js "eve@example.com"))) = false /\
    flagFits roomyQuota = true /\ (forall o, userFits roomyQuota o = true) /\
    getProp (js "password") u = Some (VText (js "s3cret")) /\
    getProp (js "password") DEFAULT_USER = None /\
    exists res a1,
      login roomyQuota (js "2024-05-04T10:00:00.000Z") (js "eve@example.com")
        (js "pw") false (newApp adaStore) = Returns res a1 /\
      getProp (js "password") (getUser a1) = None /\
      getProp (js "password") (getUser (newApp (store a1)))
      = Some (VText (js "s3cret")) /\
      getProp (js "email") (getUser (newApp (store a1)))
      = Some (VText (js "eve@example.com")).
Proof.
  eexists. split; [reflexivity|]. split; [reflexivity|]. split; [reflexivity|].
  split; [intro o; reflexivity|]. split; [reflexivity|]. split; [reflexivity|].
  exact (@login_as_another_keeps_foreign_fields roomyQuota
           (js "2024-05-04T10:00:00.000Z") (js "eve@example.com") (js "pw") false
           (newApp adaStore) _ (js "password") (VText (js "s3cret"))
           eq_refl eq_refl eq_refl (fun _ => eq_refl) eq_refl eq_refl).
Defined.

Lemma newApp_settings_keys (s : Store) :
  NoDup (keys (settings (newApp s))) /\
  forall k, In k (keys DEFAULT_SETTINGS) -> In k (keys (settings (newApp s))).
Proof.
  rewrite newApp_settings. destruct (settingsItem s) as [ | o | ].
  - split; [exact DEFAULT_SETTINGS_keys | tauto].
  - split; [apply spread_NoDup, DEFAULT_SETTINGS_keys|].
    intro k. apply spread_keys.
  - split; [exact DEFAULT_SETTINGS_keys | tauto].
Qed.

(** Loading an object that has distinct keys and all the default keys gives
    the same properties back. *)
Lemma spread_defaults_over (d o : object) (k : str) :
  NoDup (keys o) -> (forall x, In x (keys d) -> In x (keys o)) ->
  getProp k (spread d o) = getProp k o.
Proof.
  intros Hnd Hcover. rewrite getProp_spread by exact Hnd.
  destruct (getProp k o) eqn:E; [reflexivity|].
  apply getProp_none_iff. intro Hin. apply getProp_none_iff in E.
  now apply E, Hcover.
Qed.

(** X22.  Saved settings survive a page load, and refused ones do not.  On
    a freshly loaded page, [saveSettings] merges the new settings over the
    current ones; a property that the new settings do not name keeps its
    value.  If the storage takes the write, the next page load reads every
    property as it was after the call.  If the storage refuses it, the call
    returns [false] although the settings in memory have changed, and the
    next page load has the settings of before the call. *)
Theorem saveSettings_and_reload (q : Quota) (s : Store) (newSettings : object) :
  let a := newApp s in
  let a1 := snd (saveSettings q newSettings a) in
  getSettings a1 = spread (getSettings a) newSettings /\
  (forall k, getProp k newSettings = None ->
             getProp k (getSettings a1) = getProp k (getSettings a)) /\
  (settingsFits q (spread (getSettings a) newSettings) = true ->
   fst (saveSettings q newSettings a) = true /\
   forall k, getProp k (getSettings (newApp (store a1)))
             = getProp k (getSettings a1)) /\
  (settingsFits q (spread (getSettings a) newSettings) = false ->
   fst (saveSettings q newSettings a) = false /\
   getSettings (newApp (store a1)) = getSettings a).
Proof.
  cbv zeta. unfold saveSettings, getSettings.
  destruct (newApp_settings_keys s) as [Hnd Hcover].
  split; [now destruct (settingsFits q _)|].
  split.
  { intros k Hk. destruct (settingsFits q _); cbn [snd settings setSettingsItem setSettings];
      now apply getProp_spread_absent. }
  split; intro Hfits; rewrite Hfits; cbn [fst snd].
  - split; [reflexivity|]. intro k. rewrite newApp_settings.
    cbn [store setSettingsItem setSettings settingsItem settings].
    apply spread_defaults_over; [now apply spread_NoDup|].
    intros x Hx. now apply spread_keys, Hcover.
  - split; [reflexivity|]. cbn [store setSettings]. now rewrite newApp_store.
Qed.

Lemma saveSettings_and_reload_witness :
  let q := roomyQuota in
  let new := [(js "theme", VText (js "light"))] in
  let a := newApp emptyStore in
  let a1 := snd (saveSettings q new a) in
  settingsFits q (spread (getSettings a) new) = true /\
  fst (saveSettings q new a) = true /\
  (forall k, getProp k (getSettings (newApp (store a1)))
             = getProp k (getSettings a1)) /\
  getProp (js "theme") (getSettings (newApp (store a1))) = Some (VText (js "light")) /\
  getProp (js "currency") (getSettings (newApp (store a1)))
  = Some (VText (js "NGN")).
Proof.
  cbv zeta. split; [reflexivity|].
  destruct (proj1 (proj2 (proj2
              (saveSettings_and_reload roomyQuota emptyStore
                 [(js "theme", VText (js "light"))]))) eq_refl) as [Hok Hsame].
  split; [exact Hok|]. split; [exact Hsame|]. split; reflexivity.
Defined.

(** X23.  Items of the storage that cannot be parsed are survived.  A page
    that loads over unreadable user data and settings has no user, is not
    logged in whatever the session flag says, and has the default settings;
    a [login] on that page, when the storage takes the writes, replaces the
    unreadable user data by the new user, and the next page load is logged
    in as that user. *)
Theorem unreadable_items_are_survived (q : Quota) (s : Store)
  (now email password : str) (remember : bool) :
  userDataItem s = Garbled -> settingsItem s = Garbled ->
  flagFits q = true -> (forall o, userFits q o = true) ->
  let a := newApp s in
  user a = None /\ isLoggedIn a = false /\ getSettings a = DEFAULT_SETTINGS /\
  exists res a1,
    login q now email password remember a = Returns res a1 /\
    success res = true /\
    isLoggedIn (newApp (store a1)) = true /\
    getProp (js "email") (getUser (newApp (store a1))) = Some (VText email).
Proof.
  intros Hu Hs Hflag Hfits. cbv zeta.
  assert (Huser : user (newApp s) = None) by (now rewrite newApp_user, Hu).
  split; [exact Huser|]. split.
  { unfold isLoggedIn. rewrite Huser. now destruct (loggedInItem (store (newApp s))). }
  split; [unfold getSettings; now rewrite newApp_settings, Hs|].
  unfold login, getUserByEmail, saveUser. rewrite Huser, Hflag, Hfits.
  cbn [snd]. do 2 eexists. split; [reflexivity|]. split; [reflexivity|].
  unfold isLoggedIn, getUser. rewrite !newApp_user, !newApp_store.
  cbn [store setUser setLoggedInItem setUserDataItem userDataItem loggedInItem].
  split; [reflexivity|]. apply newUser_email.
Qed.

Lemma unreadable_items_are_survived_witness :
  userDataItem garbledStore = Garbled /\ settingsItem garbledStore = Garbled /\
  flagFits roomyQuota = true /\ (forall o, userFits roomyQuota o = true) /\
  let a := newApp garbledStore in
  user a = None /\ isLoggedIn a = false /\ getSettings a = DEFAULT_SETTINGS /\
  exists res a1,
    login roomyQuota (js "2024-05-05T10:00:00.000Z") (js "ada@example.com")
      (js "pw") false a = Returns res a1 /\
    success res = true /\
    isLoggedIn (newApp (store a1)) = true /\
    getProp (js "email") (getUser (newApp (store a1)))
    = Some (VText (js "ada@example.com")).
Proof.
  split; [reflexivity|]. split; [reflexivity|]. split; [reflexivity|].
  split; [intro o; reflexivity|].
  exact (@unreadable_items_are_survived roomyQuota garbledStore
           (js "2024-05-05T10:00:00.000Z") (js "ada@example.com") (js "pw") false
           eq_refl eq_refl eq_refl (fun _ => eq_refl)).
Defined.

(** X24.  A refused write of the user data is not reported.  When nobody
    is the user yet and the storage takes the session flag but not the user
    data, [login] still answers that the account was created and the
    application counts as logged in; the storage holds no user data more
    than before, and if it held none the next page load is not logged
    in. *)
Theorem login_hides_a_refused_write (q : Quota) (now email password : str)
  (remember : bool) (a : App) :
  user a = None -> flagFits q = true -> (forall o, userFits q o = false) ->
  exists a1,
    login q now email password remember a
    = Returns {| success := true; message := js "Welcome! Account created." |} a1 /\
    isLoggedIn a1 = true /\
    userDataItem (store a1) = userDataItem (store a) /\
    (userDataItem (store a) = Absent -> isLoggedIn (newApp (store a1)) = false).
Proof.
  intros Hu Hflag Hfull.
  unfold login, getUserByEmail, saveUser. rewrite Hu, Hflag, Hfull. cbn [snd].
  eexists. split; [reflexivity|]. split; [reflexivity|]. split; [reflexivity|].
  intro Habsent. unfold isLoggedIn. rewrite newApp_user, newApp_store.
  cbn [store setUser setLoggedInItem userDataItem loggedInItem].
  now rewrite Habsent.
Qed.

Lemma login_hides_a_refused_write_witness :
  user (newApp emptyStore) = None /\ flagFits fullQuota = true /\
  (forall o, userFits fullQuota o = false) /\
  exists a1,
    login fullQuota (js "2024-05-06T10:00:00.000Z") (js "ada@example.com")
      (js "pw") false (newApp emptyStore)
    = Returns {| success := true; message := js "Welcome! Account created." |} a1 /\
    isLoggedIn a1 = true /\
    userDataItem (store a1) = userDataItem (store (newApp emptyStore)) /\
    (userDataItem (store (newApp emptyStore)) = Absent ->
     isLoggedIn (newApp (store a1)) = false).
Proof.
  split; [reflexivity|]. split; [reflexivity|]. split; [intro o; reflexivity|].
  exact (@login_hides_a_refused_write fullQuota (js "2024-05-06T10:00:00.000Z")
           (js "ada@example.com") (js "pw") false (newApp emptyStore)
           eq_refl eq_refl (fun _ => eq_refl)).
Defined.

(** X25.  The two page guards follow the session.  After a [login] that
    has returned, [requireAuth] lets the page through and
    [redirectIfLoggedIn] sends the login page on to its destination; after a
    logout and a new page load it is the other way round: [requireAuth]
    sends the page to login.html and [redirectIfLoggedIn] stays.  Neither
    guard changes the user, the settings or the storage. *)
Theorem guards_follow_the_session (q : Quota) (now email password : str)
  (remember : bool) (a a1 : App) (res : AuthResult) (destination : str) :
  login q now email password remember a = Returns res a1 ->
  (requireAuth a1 = (true, a1) /\
   redirectIfLoggedIn destination a1 = (true, setLocation destination a1)) /\
  (let a2 := newApp (store (logout a1)) in
   requireAuth a2 = (false, setLocation (js "login.html") a2) /\
   redirectIfLoggedIn destination a2 = (false, a2)).
Proof.
  intro Hlogin.
  destruct (login_returns _ _ _ _ _ _ Hlogin) as (_ & Hin & _).
  unfold requireAuth, redirectIfLoggedIn. rewrite Hin. split; [now split|].
  cbv zeta.
  assert (Hout : isLoggedIn (newApp (store (logout a1))) = false).
  { unfold isLoggedIn. now rewrite newApp_store. }
  rewrite Hout. now split.
Qed.

Lemma guards_follow_the_session_witness :
  exists res a1,
    login roomyQuota (js "2024-05-07T10:00:00.000Z") (js "ada@example.com")
      (js "pw") false (newApp emptyStore) = Returns res a1 /\
    requireAuth a1 = (true, a1) /\
    fst (requireAuth (newApp (store (logout a1)))) = false /\
    location (snd (requireAuth (newApp (store (logout a1)))))
    = Some (js "login.html").
Proof.
  do 2 eexists. split; [reflexivity|].
  destruct (@guards_follow_the_session roomyQuota (js "2024-05-07T10:00:00.000Z")
              (js "ada@example.com") (js "pw") false (newApp emptyStore) _ _
              (js "dashboard.html") eq_refl) as [[Hin _] [Hout _]].
  split; [exact Hin|]. rewrite Hout. split; reflexivity.
Defined.

(** X26.  [updateProfile] merges the updates over the user and keeps every
    property that the updates do not name; without a user it makes one of
    the updates alone.  If the storage takes the write, the user of the
    next page load is the user as the call left it; if the storage refuses
    it, the call returns [false] and the stored user data are what they
    were. *)
Theorem updateProfile_and_reload (q : Quota) (updates : object) (a : App) :
  let a1 := snd (updateProfile q updates a) in
  user a1 = Some (spread (match user a with Some u => u | None => [] end) updates) /\
  (forall k, getProp k updates = None ->
             getProp k (getUser a1)
             = match user a with Some u => getProp k u | None => None end) /\
  (fst (updateProfile q updates a) = true ->
   user (newApp (store a1)) = user a1) /\
  (fst (updateProfile q updates a) = false ->
   userDataItem (store a1) = userDataItem (store a)).
Proof.
  cbv zeta. unfold updateProfile, saveUser.
  destruct (userFits q _) eqn:Hfits; cbn [fst snd].
  - split; [reflexivity|]. split.
    + intros k Hk. cbn [getUser user setUserDataItem setUser].
      rewrite getProp_spread_absent by exact Hk. now destruct (user a).
    + split; [|discriminate]. intros _. now rewrite newApp_user.
  - split; [reflexivity|]. split.
    + intros k Hk. cbn [getUser user setUser].
      rewrite getProp_spread_absent by exact Hk. now destruct (user a).
    + split; [discriminate|]. reflexivity.
Qed.

Lemma updateProfile_and_reload_witness :
  let updates := [(js "phone", VText (js "0803 000 0000"))] in
  let a1 := snd (updateProfile roomyQuota updates (newApp adaStore)) in
  fst (updateProfile roomyQuota updates (newApp adaStore)) = true /\
  user (newApp (store a1)) = user a1 /\
  getProp (js "phone") (getUser (newApp (store a1)))
  = Some (VText (js "0803 000 0000")) /\
  getProp (js "email") (getUser (newApp (store a1)))
  = Some (VText (js "ada@example.com")).
Proof.
  cbv zeta. split; [reflexivity|].
  pose proof (proj1 (proj2 (proj2
                (updateProfile_and_reload roomyQuota
                   [(js "phone", VText (js "0803 000 0000"))] (newApp adaStore))))
                eq_refl) as Hsame.
  split; [exact Hsame|]. split; reflexivity.
Defined.

(** ** Amounts that are not numbers *)

Lemma nadd_nan_r (x : number) : nadd x NaN = NaN.
Proof. now destruct x. Qed.

Lemma sum_from_nan (l : list Transaction) :
  fold_left (fun sum t => nadd sum (tx_amount t)) l NaN = NaN.
Proof. induction l as [|t l IH]; cbn [fold_left nadd]; [reflexivity | exact IH]. Qed.

Lemma sum_with_nan (l : list Transaction) (tx : Transaction) (a : number) :
  In tx l -> tx_amount tx = NaN ->
  fold_left (fun sum t => nadd sum (tx_amount t)) l a = NaN.
Proof.
  revert a. induction l as [|t l IH]; intros a [] Hnan; cbn [fold_left].
  - subst t. rewrite Hnan, nadd_nan_r. apply sum_from_nan.
  - now apply IH.
Qed.

(** X27.  [addTransaction] converts the amount it is given and stores it
    unchecked; a stored amount that is not a number makes the sum of its
    kind and the total of [getTaxSummary] not a number, whatever else the
    ledger holds. *)
Theorem nan_amount_poisons_summary (w : World) (tx : Transaction) :
  In tx (transactions w) -> tx_amount tx = NaN -> In (tx_type tx) kinds ->
  let s := getTaxSummary w in
  total s = NaN /\
  (tx_type tx = js "PAYE" -> paye s = NaN) /\
  (tx_type tx = js "VAT" -> vat s = NaN) /\
  (tx_type tx = js "Consumption" -> consumption s = NaN).
Proof.
  intros Hin Hnan Hkind. cbv zeta. unfold getTaxSummary.
  cbn [paye vat consumption total count].
  destruct (summary_sums (transactions w) (length (transactions w)))
    as (Hp & Hv & Hc & _).
  cbv zeta in *. rewrite Hp, Hv, Hc.
  assert (Hsum : forall kind, tx_type tx = kind ->
            sumAmounts (filter (fun t => str_eqb (tx_type t) kind) (transactions w))
            = NaN).
  { intros kind Hk. unfold sumAmounts. apply (@sum_with_nan _ tx); [|exact Hnan].
    apply filter_In. split; [exact Hin|]. now apply str_eqb_eq. }
  split; [|now repeat split; intro Hk; apply Hsum].
  unfold kinds in Hkind. cbn [In] in Hkind.
  destruct Hkind as [Hk|[Hk|[Hk|[]]]]; rewrite (Hsum _ (eq_sym Hk)).
  - reflexivity.
  - now rewrite nadd_nan_r.
  - now rewrite nadd_nan_r.
Qed.

Lemma nan_amount_poisons_summary_witness :
  exists tx,
    In tx (transactions poisonedWorld) /\ tx_amount tx = NaN /\
    In (tx_type tx) kinds /\
    total (getTaxSummary poisonedWorld) = NaN /\
    vat (getTaxSummary poisonedWorld) = NaN.
Proof.
  exists (nth 1 (transactions poisonedWorld) (sampleTx "none" "VAT" 0)).
  assert (Hin : In (nth 1 (transactions poisonedWorld) (sampleTx "none" "VAT" 0))
                  (transactions poisonedWorld))
    by (vm_compute; tauto).
  assert (Hkind : In (tx_type (nth 1 (transactions poisonedWorld)
                                 (sampleTx "none" "VAT" 0))) kinds)
    by (vm_compute; tauto).
  split; [exact Hin|]. split; [reflexivity|]. split; [exact Hkind|].
  destruct (@nan_amount_poisons_summary poisonedWorld _ Hin eq_refl Hkind)
    as (Htotal & _ & Hvat & _).
  split; [exact Htotal | exact (Hvat eq_refl)].
Defined.

(** ** What the confirmation records *)

Lemma positive_notNegative (x : number) :
  ngtb x (Fin 0) = true -> ngeb x (Fin 0) = true.
Proof. intro Hx. unfold ngeb. now rewrite Hx. Qed.

Lemma confirmLine_appends (h : Host) (w : World) (line : Candidate) :
  exists new,
    transactions (confirmLine h w line) = transactions w ++ new /\
    Forall notNegative new.
Proof.
  unfold confirmLine.
  destruct (getRow w (line_id line)) as [r|];
    [|exists []; now rewrite app_nil_r].
  destruct (row_checked r); [|exists []; now rewrite app_nil_r].
  destruct (ngtb (parseFloat (row_amount r)) (Fin 0)) eqn:Hpos;
    [|exists []; now rewrite app_nil_r].
  eexists. split; [apply addTransaction_transactions|].
  constructor; [|constructor]. unfold notNegative.
  cbn [addTransaction fst tx_amount in_amount].
  destruct (str_eqb (row_type r) (js "VAT")).
  - now apply calculateVAT_of_positive.
  - now apply positive_notNegative.
Qed.

(** X28.  The confirmation only appends to the ledger, and every
    transaction it appends has an amount that is zero or more: a row whose
    amount does not parse as a positive number is passed over, a VAT row
    records [calculateVAT] of its amount and any other row its amount.  With
    the import of CSV files, which does the same, no handler of the
    dashboard records a negative amount or one that is not a number. *)
Theorem confirmOCR_appends_amounts_not_negative (h : Host) (w : World) :
  exists new,
    transactions (confirmOCR h w) = transactions w ++ new /\
    Forall notNegative new.
Proof.
  rewrite confirmOCR_transactions. generalize (ocrLines w) as lines.
  intro lines. revert w.
  induction lines as [|line lines IH]; intro w; cbn [fold_left].
  - exists []. now rewrite app_nil_r.
  - destruct (confirmLine_appends h w line) as (n1 & H1 & F1).
    destruct (IH (confirmLine h w line)) as (n2 & H2 & F2).
    exists (n1 ++ n2). rewrite H2, H1, <- app_assoc. split; [reflexivity|].
    apply Forall_app. now split.
Qed.

(** ** The two summaries *)

Lemma totals_agree (kind : str) (l : list Transaction) (l' : list Legacy.Tx)
  (a : number) :
  List.map (fun tx => (tx_type tx, tx_amount tx)) l
  = List.map (fun t => (Legacy.type t, Legacy.amount t)) l' ->
  fold_left (fun sum t => nadd sum (Legacy.amount t))
    (filter (fun t => str_eqb (Legacy.type t) kind) l') a
  = fold_left (fun sum t => nadd sum (tx_amount t))
      (filter (fun tx => str_eqb (tx_type tx) kind) l) a.
Proof.
  revert l' a. induction l as [|tx l IH]; intros [|t l'] a Hmap;
    try discriminate Hmap; [reflexivity|].
  cbn [List.map] in Hmap. injection Hmap as Htype Hamount Hrest.
  cbn [filter]. rewrite <- Htype.
  destruct (str_eqb (tx_type tx) kind); cbn [fold_left].
  - rewrite <- Hamount. now apply IH.
  - now apply IH.
Qed.

(** X29.  The summary of the first dashboard script and [getTaxSummary] of
    app.js compute the same totals: on two ledgers whose transactions have,
    in order, the same kinds and amounts, the PAYE, VAT and Consumption
    totals that [updateSummary] stores are the three sums that
    [getTaxSummary] returns. *)
Theorem legacy_summary_agrees_with_getTaxSummary (w : World) (d : Legacy.TaxData) :
  List.map (fun tx => (tx_type tx, tx_amount tx)) (transactions w)
  = List.map (fun t => (Legacy.type t, Legacy.amount t)) (Legacy.transactions d) ->
  let d' := Legacy.updateSummary d in
  let s := getTaxSummary w in
  Legacy.paye d' = paye s /\ Legacy.vat d' = vat s /\
  Legacy.consumption d' = consumption s /\
  length (Legacy.transactions d') = count s.
Proof.
  intro Hmap. cbv zeta. unfold getTaxSummary, Legacy.updateSummary, Legacy.totalOf.
  cbn [paye vat consumption total count Legacy.paye Legacy.vat Legacy.consumption
       Legacy.transactions].
  destruct (summary_sums (transactions w) (length (transactions w)))
    as (Hp & Hv & Hc & Hn).
  cbv zeta in *. rewrite Hp, Hv, Hc, Hn. unfold sumAmounts.
  rewrite !(totals_agree _ _ _ _ Hmap).
  repeat split. apply (f_equal (@length _)) in Hmap.
  now rewrite !length_map in Hmap.
Qed.

Lemma legacy_summary_agrees_with_getTaxSummary_witness :
  let w := addAll sampleHost [sampleInput "VAT" 375.04; sampleInput "PAYE" 54000]
             emptyWorld in
  let d := Legacy.addTransaction (js "2024-05-01") (js "PAYE") (Fin 54000)
             (js "Salary Tax Calculation")
             (Legacy.addTransaction (js "2024-05-01") (js "VAT") (Fin 375.04)
                (js "Manual Entry") Legacy.initial) in
  List.map (fun tx => (tx_type tx, tx_amount tx)) (transactions w)
  = List.map (fun t => (Legacy.type t, Legacy.amount t)) (Legacy.transactions d) /\
  Legacy.paye (Legacy.updateSummary d) = paye (getTaxSummary w) /\
  Legacy.vat (Legacy.updateSummary d) = vat (getTaxSummary w).
Proof.
  cbv zeta.
  assert (Hmap :
    List.map (fun tx => (tx_type tx, tx_amount tx))
      (transactions
         (addAll sampleHost [sampleInput "VAT" 375.04; sampleInput "PAYE" 54000]
            emptyWorld))
    = List.map (fun t => (Legacy.type t, Legacy.amount t))
        (Legacy.transactions
           (Legacy.addTransaction (js "2024-05-01") (js "PAYE") (Fin 54000)
              (js "Salary Tax Calculation")
              (Legacy.addTransaction (js "2024-05-01") (js "VAT") (Fin 375.04)
                 (js "Manual Entry") Legacy.initial)))) by reflexivity.
  split; [exact Hmap|].
  destruct (@legacy_summary_agrees_with_getTaxSummary _ _ Hmap)
    as (Hp & Hv & _).
  split; [exact Hp | exact Hv].
Defined.

(** The first script records the VAT of an amount unrounded, where
    [calculateVAT] of app.js rounds it to hundredths. *)
Remark legacy_vat_is_not_rounded :
  List.map Legacy.amount
    (Legacy.transactions
       (Legacy.calculateVAT (js "2024-05-01T10:00:00.000Z") (Fin 5000.50)
          (js "Manual Entry") (js "VAT") Legacy.initial))
  = [Fin (5000.50 * 0.075)] /\
  calculateVAT (Fin 5000.50) =n= Fin 375.04 /\
  ~ Fin (5000.50 * 0.075) =n= Fin 375.04.
Proof.
  split; [reflexivity|]. split; [vm_compute; reflexivity|].
  vm_compute. intro Hc. discriminate Hc.
Qed.

(** ** The texts that the amount pattern matches *)

Lemma starLoop_prefix (p : N -> bool)
  (step : str -> (str -> option str) -> option str) (k : str -> option str) :
  (forall s k' x, step s k' = Some x ->
     exists pre s', s = pre ++ s' /\ forallb p pre = true /\ k' s' = Some x) ->
  forall n s x, starLoop step k n s = Some x ->
    exists pre s', s = pre ++ s' /\ forallb p pre = true /\ k s' = Some x.
Proof.
  intros Hstep n. induction n as [|n IH]; intros s x Hx; cbn [starLoop] in Hx.
  - exists [], s. now repeat split.
  - destruct (step s _) as [rest|] eqn:E.
    + injection Hx as ->. apply Hstep in E.
      destruct E as (pre1 & s1 & Hs & Hpre1 & Hk).
      destruct (length s1 <? length s)%nat; [|discriminate].
      apply IH in Hk. destruct Hk as (pre2 & s2 & Hs1 & Hpre2 & Hk).
      exists (pre1 ++ pre2), s2. rewrite <- app_assoc, <- Hs1.
      split; [exact Hs|]. split; [|exact Hk].
      rewrite forallb_app. now rewrite Hpre1, Hpre2.
    + exists [], s. now repeat split.
Qed.

(** A match consumes only code units that the classes of its pattern
    accept. *)
Lemma rmatch_prefix (p : N -> bool) (r : regex) :
  within p r ->
  forall s k x, rmatch r s k = Some x ->
    exists pre s', s = pre ++ s' /\ forallb p pre = true /\ k s' = Some x.
Proof.
  induction r as [|c|r1 IH1 r2 IH2|r1 IH1 r2 IH2|r IH]; intros Hin s k x Hx;
    cbn [rmatch within] in *.
  - exists [], s. now repeat split.
  - destruct s as [|u s']; [discriminate|].
    destruct (c u) eqn:Eu; [|discriminate].
    exists [u], s'. split; [reflexivity|]. split; [|exact Hx].
    cbn [forallb]. now rewrite (Hin u Eu).
  - destruct Hin as [H1 H2]. apply (IH1 H1) in Hx.
    destruct Hx as (pre1 & s1 & Hs & Hpre1 & Hx).
    apply (IH2 H2) in Hx. destruct Hx as (pre2 & s2 & Hs1 & Hpre2 & Hx).
    exists (pre1 ++ pre2), s2. rewrite <- app_assoc, <- Hs1.
    split; [exact Hs|]. split; [|exact Hx].
    rewrite forallb_app. now rewrite Hpre1, Hpre2.
  - destruct Hin as [H1 H2]. destruct (rmatch r1 s k) as [rest|] eqn:E.
    + injection Hx as ->. now apply (IH1 H1).
    + now apply (IH2 H2).
  - now apply (@starLoop_prefix p (rmatch r) k (IH Hin)) in Hx.
Qed.

Lemma matchHead_within (p : N -> bool) (r : regex) (s m rest : str) :
  within p r -> matchHead r s = Some (m, rest) ->
  s = m ++ rest /\ forallb p m = true.
Proof.
  intros Hin. unfold matchHead.
  destruct (rmatch r s Some) as [x|] eqn:E; [|discriminate].
  intro H. injection H as <- <-.
  apply (rmatch_prefix p r Hin) in E. destruct E as (pre & s' & Hs & Hpre & Hk).
  injection Hk as ->. subst s. rewrite length_app.
  replace (length pre + length x - length x)%nat with (length pre + 0)%nat by lia.
  rewrite firstn_app_2. cbn [firstn]. rewrite app_nil_r. now split.
Qed.

Lemma matchAllFrom_within (p : N -> bool) (r : regex) (fuel : nat) (s : str) :
  within p r -> Forall (fun m => forallb p m = true) (matchAllFrom fuel r s).
Proof.
  intro Hin. revert s. induction fuel as [|fuel IH]; intro s; cbn [matchAllFrom];
    [constructor|].
  assert (Hskip : Forall (fun m => forallb p m = true)
                    match s with [] => [] | _ :: s' => matchAllFrom fuel r s' end)
    by (destruct s; [constructor | apply IH]).
  destruct (matchHead r s) as [[m rest]|] eqn:E; [|exact Hskip].
  constructor; [now destruct (matchHead_within p r s Hin E)|].
  destruct (nonEmpty m); [apply IH | exact Hskip].
Qed.

Lemma amountRe_within : within isAmountUnit amountRe.
Proof.
  unfold amountRe, Plus, Opt, Unit, isAmountUnit. cbn [within].
  repeat split; intros x Hx; try (now rewrite Hx);
    try (now rewrite Hx, ?orb_true_r).
  apply N.eqb_eq in Hx. subst x. reflexivity.
Qed.

Lemma rmatch_class_first (p : N -> bool) (r : regex) (s x : str) :
  rmatch (Cat (Cat (Class p) (Star (Class p))) r) s Some = Some x ->
  (length x < length s)%nat.
Proof.
  intro E.
  assert (E' : match s with
               | c :: s0 =>
                   if p c then rmatch (Cat (Star (Class p)) r) s0 Some else None
               | [] => None
               end = Some x) by exact E.
  destruct s as [|c s0]; [discriminate E'|].
  destruct (p c); [|discriminate E'].
  apply rmatch_suffix in E'. destruct E' as (s' & Hsome & Hlen).
  injection Hsome as ->. cbn [length]. lia.
Qed.

Lemma amountRe_nonEmpty (s m rest : str) :
  matchHead amountRe s = Some (m, rest) -> nonEmpty m = true.
Proof.
  unfold matchHead. destruct (rmatch amountRe s Some) as [x|] eqn:E; [|discriminate].
  intro H. injection H as <- <-.
  apply rmatch_class_first in E.
  destruct s as [|c s0]; [cbn [length] in E; lia|].
  cbn [length] in *. destruct (S (length s0) - length x)%nat eqn:Ed; [lia|].
  reflexivity.
Qed.

Lemma matchAllFrom_amountRe_nonEmpty (fuel : nat) (s : str) :
  Forall (fun m => nonEmpty m = true) (matchAllFrom fuel amountRe s).
Proof.
  revert s. induction fuel as [|fuel IH]; intro s; cbn [matchAllFrom]; [constructor|].
  assert (Hskip : Forall (fun m => nonEmpty m = true)
                    match s with [] => [] | _ :: s' => matchAllFrom fuel amountRe s' end)
    by (destruct s; [constructor | apply IH]).
  destruct (matchHead amountRe s) as [[m rest]|] eqn:E; [|exact Hskip].
  constructor; [now apply (amountRe_nonEmpty s E)|].
  destruct (nonEmpty m); [apply IH | exact Hskip].
Qed.

(** X30.  Every text that the extraction takes for an amount is a non-empty
    run of digits, commas and dots.  It carries no sign and no exponent, so
    a negative number printed on a receipt is read without its sign, and
    the candidates, the details and the kind apart, depend on these runs
    alone. *)
Theorem amount_texts_are_unsigned (line : str) :
  Forall (fun m => nonEmpty m = true /\ forallb isAmountUnit m = true)
    (matchAll amountRe line).
Proof.
  unfold matchAll.
  pose proof (matchAllFrom_within isAmountUnit amountRe (S (length line)) line
                amountRe_within) as H1.
  pose proof (matchAllFrom_amountRe_nonEmpty (S (length line)) line) as H2.
  rewrite Forall_forall in *. intros m Hm. split; [now apply H2 | now apply H1].
Qed.

